(** * Plane concepts: two pygame visualisations, embedded and verified

    [ele.py] (class [GeometryViz]) draws Euclidean and affine constructions
    on four draggable points; [ℝ²confusion.py] (class [CrossSectionViz])
    draws cross-sections of the complex curve z1² + z2² = r².

    The embedding follows the Python text.  Python [int] is [Z]; Python
    [float] is an abstract carrier with the operations the two programs use
    (class [PyFloat]), instantiated twice: by IEEE 754 binary64, which is
    what CPython runs, and by the real numbers, which is the arithmetic the
    geometry is meant to approximate.  Exceptions are explicit: a
    computation returns [Ok v] or [Raise e]. *)

From Stdlib Require Import ZArith QArith List String Bool Lia.
From Stdlib Require Import Reals Lra.
From Stdlib Require Import Floats.SpecFloat.
Import ListNotations.

Local Open Scope Z_scope.

(* ===================================================================== *)
(** ** Python runtime: exceptions and numbers *)
(* ===================================================================== *)

Module Py.

(** The built-in exceptions arithmetic can raise. *)
Inductive exn : Type :=
| ZeroDivisionError
| ValueError
| OverflowError
| KeyError.

Inductive result (A : Type) : Type :=
| Ok (a : A)
| Raise (e : exn).
Arguments Ok {A} a.
Arguments Raise {A} e.

Definition bind {A B : Type} (c : result A) (k : A -> result B) : result B :=
  match c with
  | Ok a => k a
  | Raise e => Raise e
  end.

(** [try: c  except: pass] around a block whose value is a list of
    emitted primitives: an exception emits nothing. *)
Definition try_pass {A : Type} (c : result (list A)) : list A :=
  match c with
  | Ok l => l
  | Raise _ => []
  end.

(** A raised exception other than [ZeroDivisionError], or a value. *)
Definition no_zero_division {A : Type} (c : result A) : Prop :=
  c <> Raise ZeroDivisionError.

(** The operations of Python [float] (and of [math]) that the programs
    use on it.  [of_int] is the implicit conversion of an [int] operand,
    [int_truediv] is [/] on two [int]s, [ftrunc] is [int(x)]. *)
Class PyFloat (F : Type) : Type := {
  of_int : Z -> result F;
  int_truediv : Z -> Z -> result F;
  fadd : F -> F -> F;
  fsub : F -> F -> F;
  fmul : F -> F -> F;
  fdiv : F -> F -> result F;
  fneg : F -> F;
  fabs : F -> F;
  fpow2 : F -> result F;
  fsqrt : F -> result F;
  fltb : F -> F -> bool;
  ftrunc : F -> result Z
}.

(** [math.sin], [math.cos], [math.sinh], [math.cosh] and [math.pi]. *)
Class PyMath (F : Type) : Type := {
  msin : F -> F;
  mcos : F -> F;
  msinh : F -> F;
  mcosh : F -> F;
  mpi : F
}.

(** A Python number as an argument of dynamically typed code. *)
Inductive num (F : Type) : Type :=
| Int (z : Z)
| Float (f : F).
Arguments Int {F} z.
Arguments Float {F} f.

Definition float_of {F : Type} `{PyFloat F} (x : num F) : result F :=
  match x with
  | Int z => of_int z
  | Float f => Ok f
  end.

(** A decimal literal [n/d] ([0.3] is [lit 3 10]): the float nearest to
    the written value, which is the correctly rounded quotient. *)
Definition lit {F : Type} `{PyFloat F} (n d : Z) : result F :=
  int_truediv n d.

(** A loop that threads a state through a body that can raise. *)
Fixpoint foldM {A S : Type} (f : S -> A -> result S) (l : list A) (s : S)
  : result S :=
  match l with
  | [] => Ok s
  | a :: l' =>
      match f s a with
      | Raise e => Raise e
      | Ok s' => foldM f l' s'
      end
  end.

(** [for x in l: ...] over a body that can raise. *)
Fixpoint mapM {A B : Type} (f : A -> result B) (l : list A)
  : result (list B) :=
  match l with
  | [] => Ok []
  | a :: l' =>
      match f a with
      | Raise e => Raise e
      | Ok b =>
          match mapM f l' with
          | Raise e => Raise e
          | Ok bs => Ok (b :: bs)
          end
      end
  end.

End Py.

Export Py.

Declare Scope py_scope.
Delimit Scope py_scope with py.
Notation "x <- c ;; k" := (Py.bind c (fun x => k))
  (at level 61, c at next level, right associativity) : py_scope.
Notation "' pat <- c ;; k" := (Py.bind c (fun x => match x with pat => k end))
  (at level 61, pat pattern, c at next level, right associativity) : py_scope.
Local Open Scope py_scope.

(* ===================================================================== *)
(** ** IEEE 754 binary64: the [float] of CPython *)
(* ===================================================================== *)

Module Binary64.

Definition prec : Z := 53.
Definition emax : Z := 1024.

Definition b64 : Type := spec_float.

Definition is_inf (f : b64) : bool :=
  match f with S754_infinity _ => true | _ => false end.

Definition is_zero (f : b64) : bool :=
  match f with S754_zero _ => true | _ => false end.

Definition zero : b64 := S754_zero false.

(** [float(n)]: correctly rounded; "int too large to convert to float"
    when the rounded value is not finite. *)
Definition b64_of_int (n : Z) : result b64 :=
  let f := binary_normalize prec emax n 0 false in
  if is_inf f then Raise OverflowError else Ok f.

(** [a / b] on two ints: the correctly rounded quotient. *)
Definition b64_int_truediv (a b : Z) : result b64 :=
  match a, b with
  | _, Z0 => Raise ZeroDivisionError
  | Z0, _ => Ok (S754_zero (b <? 0))
  | _, _ =>
      let '(mz, ez, lz) :=
        SFdiv_core_binary prec emax (Z.abs a) 0 (Z.abs b) 0 in
      let f := binary_round_aux prec emax
                 (xorb (a <? 0) (b <? 0)) mz ez lz in
      if is_inf f then Raise OverflowError else Ok f
  end.

Definition b64_div (x y : b64) : result b64 :=
  if is_zero y then Raise ZeroDivisionError else Ok (SFdiv prec emax x y).

(** [x ** 2]: float_pow raises when a finite base overflows.  The C
    library's [pow(x, 2.0)] is taken to return the correctly rounded
    square. *)
Definition b64_pow2 (x : b64) : result b64 :=
  let p := SFmul prec emax x x in
  if is_inf p && negb (is_inf x) then Raise OverflowError else Ok p.

(** [math.sqrt]: "math domain error" below zero. *)
Definition b64_sqrt (x : b64) : result b64 :=
  match x with
  | S754_finite true _ _ => Raise ValueError
  | S754_infinity true => Raise ValueError
  | _ => Ok (SFsqrt prec emax x)
  end.

(** [int(x)]: truncation toward zero. *)
Definition b64_trunc (x : b64) : result Z :=
  match x with
  | S754_zero _ => Ok 0
  | S754_infinity _ => Raise OverflowError
  | S754_nan => Raise ValueError
  | S754_finite s m e => Ok (cond_Zopp s (Z.shiftl (Zpos m) e))
  end.

#[export] Instance b64_float : PyFloat b64 := {
  of_int := b64_of_int;
  int_truediv := b64_int_truediv;
  fadd := SFadd prec emax;
  fsub := SFsub prec emax;
  fmul := SFmul prec emax;
  fdiv := b64_div;
  fneg := SFopp;
  fabs := SFabs;
  fpow2 := b64_pow2;
  fsqrt := b64_sqrt;
  fltb := SFltb;
  ftrunc := b64_trunc
}.

(** The binary64 value of a small integer, in the canonical form the
    rounding functions produce: the mantissa fills all 53 bits. *)
Definition shl (a : positive) (k : Z) : positive :=
  match k with
  | Zpos d => Pos.iter xO a d
  | _ => a
  end.

Definition canon_pos (s : bool) (a : positive) : b64 :=
  S754_finite s (shl a (53 - Zpos (digits2_pos a)))
                (Zpos (digits2_pos a) - 53).

Definition canon_int (v : Z) : b64 :=
  match v with
  | Z0 => S754_zero false
  | Zpos a => canon_pos false a
  | Zneg a => canon_pos true a
  end.

(** The rational a finite float denotes. *)
Definition to_Q (f : b64) : option Q :=
  match f with
  | S754_zero _ => Some 0%Q
  | S754_finite s m e =>
      Some (inject_Z (cond_Zopp s (Zpos m)) * Qpower 2 e)%Q
  | _ => None
  end.

(** The dot product of two finite floats with two ints, without rounding. *)
Definition exact_dot (v : b64 * b64) (w : Z * Z) : option Q :=
  match to_Q (fst v), to_Q (snd v) with
  | Some a, Some b =>
      Some (Qred (a * inject_Z (fst w) + b * inject_Z (snd w)))%Q
  | _, _ => None
  end.

End Binary64.

(* ===================================================================== *)
(** ** Exact real arithmetic *)
(* ===================================================================== *)

Module Exact.

Definition R_div (x y : R) : result R :=
  if Req_dec_T y 0%R then Raise ZeroDivisionError else Ok (x / y)%R.

Definition R_int_truediv (a b : Z) : result R :=
  if Z.eqb b 0 then Raise ZeroDivisionError else Ok (IZR a / IZR b)%R.

Definition R_sqrt (x : R) : result R :=
  if Rlt_dec x 0%R then Raise ValueError else Ok (sqrt x).

Definition R_ltb (x y : R) : bool :=
  if Rlt_dec x y then true else false.

(** Truncation toward zero. *)
Definition R_trunc (x : R) : Z :=
  if Rle_dec 0%R x then Int_part x else - Int_part (- x)%R.

#[export] Instance R_float : PyFloat R := {
  of_int := fun z => Ok (IZR z);
  int_truediv := R_int_truediv;
  fadd := Rplus;
  fsub := Rminus;
  fmul := Rmult;
  fdiv := R_div;
  fneg := Ropp;
  fabs := Rabs;
  fpow2 := fun x => Ok (x * x)%R;
  fsqrt := R_sqrt;
  fltb := R_ltb;
  ftrunc := fun x => Ok (R_trunc x)
}.

#[export] Instance R_math : PyMath R := {
  msin := sin;
  mcos := cos;
  msinh := sinh;
  mcosh := cosh;
  mpi := PI
}.

End Exact.

(* ===================================================================== *)
(** ** ele.py: GeometryViz *)
(* ===================================================================== *)

Module Ele.

Definition WIDTH : Z := 900.
Definition HEIGHT : Z := 600.
Definition FPS : Z := 60.
Definition GRID_SIZE : Z := 25.

Inductive GeometryMode : Type := EUCLIDEAN | AFFINE | BOTH.

Definition mode_eqb (a b : GeometryMode) : bool :=
  match a, b with
  | EUCLIDEAN, EUCLIDEAN | AFFINE, AFFINE | BOTH, BOTH => true
  | _, _ => false
  end.

(** A point is the two-element list [[x, y]]; every list the program
    stores holds ints (the literals of [__init__] and of the reset, and
    the pair [to_math] returns for integer pixel positions). *)
Definition point : Type := (Z * Z)%type.

(** [self.points]: a dict, which keeps its keys in insertion order. *)
Definition dict : Type := list (string * point).

Fixpoint dict_get (k : string) (d : dict) : option point :=
  match d with
  | [] => None
  | (k', v) :: d' => if String.eqb k k' then Some v else dict_get k d'
  end.

(** [d[k] = v]: replaces the value of a present key where it stands,
    appends an absent one. *)
Fixpoint dict_set (k : string) (v : point) (d : dict) : dict :=
  match d with
  | [] => [(k, v)]
  | (k', v') :: d' =>
      if String.eqb k k' then (k', v) :: d' else (k', v') :: dict_set k v d'
  end.

(** [d[k]] as an expression. *)
Definition dict_lookup (k : string) (d : dict) : result point :=
  match dict_get k d with
  | Some v => Ok v
  | None => Raise KeyError
  end.

Definition default_points : dict :=
  [ ("A"%string, (-120, -80)); ("B"%string, (150, 120));
    ("C"%string, (-80, 150)); ("D"%string, (120, -120)) ].

Record line : Type := {
  line_start : point;
  line_end : point;
  line_offset : Z
}.

(** [generate_parallel_lines]: [for i in range(3)]. *)
Definition generate_parallel_lines : list line :=
  map (fun i =>
         let offset := i * 45 - 45 in
         {| line_start := (-250, -150 + offset);
            line_end := (250, 150 + offset);
            line_offset := offset |})
      [0; 1; 2].

Inductive key : Type :=
| K_e | K_a | K_b | K_g | K_SPACE | K_r | K_other.

Inductive event : Type :=
| QUIT
| KEYDOWN (k : key)
| OTHER.

(** The event [K_SPACE] is the one that assigns to [self.animate]. *)
Definition is_space (ev : event) : bool :=
  match ev with
  | KEYDOWN K_SPACE => true
  | _ => false
  end.

(** What one iteration of the loop reads from pygame: the milliseconds
    [clock.tick] returns, the queued events, the pointer position and the
    state of the left button. *)
Record frame_input : Type := {
  tick_ms : Z;
  events : list event;
  mouse_pos : Z * Z;
  mouse_pressed : bool
}.

Section WithFloat.
Context {F : Type} `{PyFloat F}.

Record GeometryViz : Type := {
  mode : GeometryMode;
  show_grid : bool;
  animate : bool;
  time : num F;
  points : dict;
  dragging : option string;
  drag_offset : Z * Z;
  pulse_phase : num F;
  rotation_angle : num F;
  parallel_lines : list line
}.

(** [__init__] *)
Definition init : GeometryViz :=
  {| mode := BOTH;
     show_grid := true;
     animate := true;
     time := Int 0;
     points := default_points;
     dragging := None;
     drag_offset := (0, 0);
     pulse_phase := Int 0;
     rotation_angle := Int 0;
     parallel_lines := generate_parallel_lines |}.

Definition set_points (st : GeometryViz) (p : dict) : GeometryViz :=
  {| mode := mode st; show_grid := show_grid st; animate := animate st;
     time := time st; points := p; dragging := dragging st;
     drag_offset := drag_offset st; pulse_phase := pulse_phase st;
     rotation_angle := rotation_angle st;
     parallel_lines := parallel_lines st |}.

Definition set_dragging (st : GeometryViz) (d : option string)
           (off : Z * Z) : GeometryViz :=
  {| mode := mode st; show_grid := show_grid st; animate := animate st;
     time := time st; points := points st; dragging := d;
     drag_offset := off; pulse_phase := pulse_phase st;
     rotation_angle := rotation_angle st;
     parallel_lines := parallel_lines st |}.

Definition set_mode (st : GeometryViz) (m : GeometryMode) : GeometryViz :=
  {| mode := m; show_grid := show_grid st; animate := animate st;
     time := time st; points := points st; dragging := dragging st;
     drag_offset := drag_offset st; pulse_phase := pulse_phase st;
     rotation_angle := rotation_angle st;
     parallel_lines := parallel_lines st |}.

Definition set_show_grid (st : GeometryViz) (b : bool) : GeometryViz :=
  {| mode := mode st; show_grid := b; animate := animate st;
     time := time st; points := points st; dragging := dragging st;
     drag_offset := drag_offset st; pulse_phase := pulse_phase st;
     rotation_angle := rotation_angle st;
     parallel_lines := parallel_lines st |}.

Definition set_animate (st : GeometryViz) (b : bool) : GeometryViz :=
  {| mode := mode st; show_grid := show_grid st; animate := b;
     time := time st; points := points st; dragging := dragging st;
     drag_offset := drag_offset st; pulse_phase := pulse_phase st;
     rotation_angle := rotation_angle st;
     parallel_lines := parallel_lines st |}.

Definition set_clock (st : GeometryViz) (t ph ang : num F) : GeometryViz :=
  {| mode := mode st; show_grid := show_grid st; animate := animate st;
     time := t; points := points st; dragging := dragging st;
     drag_offset := drag_offset st; pulse_phase := ph;
     rotation_angle := ang;
     parallel_lines := parallel_lines st |}.

(** The fields the animation flag guards. *)
Definition phases (st : GeometryViz) : num F * num F :=
  (pulse_phase st, rotation_angle st).

(** [return int(WIDTH / 2 + x), int(HEIGHT / 2 - y)] *)
Definition to_screen (x y : num F) : result (Z * Z) :=
  w2 <- int_truediv WIDTH 2 ;;
  fx <- float_of x ;;
  sx <- ftrunc (fadd w2 fx) ;;
  h2 <- int_truediv HEIGHT 2 ;;
  fy <- float_of y ;;
  sy <- ftrunc (fsub h2 fy) ;;
  Ok (sx, sy).

(** The locals of the perpendicular-bisector block of
    [draw_euclidean_elements]; the segment drawn runs from
    [perp_start] to [perp_end]. *)
Record bisector : Type := {
  mid : F * F;
  perp : F * F;
  perp_start : F * F;
  perp_end : F * F
}.

(** Lines 148-161 of [draw_euclidean_elements]: [None] when the guard
    [length > 0] fails and no line is drawn. *)
Definition perp_bisector (A B : point) : result (option bisector) :=
  mid_x <- int_truediv (fst A + fst B) 2 ;;
  mid_y <- int_truediv (snd A + snd B) 2 ;;
  let dx := fst B - fst A in
  let dy := snd B - snd A in
  sq <- of_int (dx * dx + dy * dy) ;;
  length <- fsqrt sq ;;
  z <- of_int 0 ;;
  if fltb z length then
    ndy <- of_int (- dy) ;;
    qx <- fdiv ndy length ;;
    c1 <- of_int 80 ;;
    let perp_dx := fmul qx c1 in
    fdx <- of_int dx ;;
    qy <- fdiv fdx length ;;
    c2 <- of_int 80 ;;
    let perp_dy := fmul qy c2 in
    Ok (Some {| mid := (mid_x, mid_y);
                perp := (perp_dx, perp_dy);
                perp_start := (fadd mid_x perp_dx, fadd mid_y perp_dy);
                perp_end := (fsub mid_x perp_dx, fsub mid_y perp_dy) |})
  else Ok None.

(** [v[0] * w[0] + v[1] * w[1]] for a float vector and an int vector. *)
Definition dot (v : F * F) (w : Z * Z) : result F :=
  w0 <- of_int (fst w) ;;
  w1 <- of_int (snd w) ;;
  Ok (fadd (fmul (fst v) w0) (fmul (snd v) w1)).

(** The vector from [perp_start] to [perp_end]. *)
Definition direction (b : bisector) : F * F :=
  (fsub (fst (perp_end b)) (fst (perp_start b)),
   fsub (snd (perp_end b)) (snd (perp_start b))).

(** [((p[0] + q[0]) / 2, (p[1] + q[1]) / 2)] *)
Definition midpoint (p q : F * F) : result (F * F) :=
  two <- of_int 2 ;;
  mx <- fdiv (fadd (fst p) (fst q)) two ;;
  my <- fdiv (fadd (snd p) (snd q)) two ;;
  Ok (mx, my).

(** The segment [draw_euclidean_elements] hands to [pygame.draw.line]
    for the bisector, in screen coordinates; nothing in AFFINE mode. *)
Definition draw_perpendicular (st : GeometryViz)
  : result (list ((Z * Z) * (Z * Z))) :=
  if mode_eqb (mode st) AFFINE then Ok []
  else
    A <- dict_lookup "A" (points st) ;;
    B <- dict_lookup "B" (points st) ;;
    ob <- perp_bisector A B ;;
    match ob with
    | None => Ok []
    | Some b =>
        p <- to_screen (Float (fst (perp_start b)))
                       (Float (snd (perp_start b))) ;;
        q <- to_screen (Float (fst (perp_end b)))
                       (Float (snd (perp_end b))) ;;
        Ok [(p, q)]
    end.

(** The loop of [handle_mouse] over [self.points.items()]: the first
    point within 15 pixels, with the offset to capture. *)
Fixpoint hit_test (mp : Z * Z) (d : dict)
  : result (option (string * (Z * Z))) :=
  match d with
  | [] => Ok None
  | (name, pos) :: d' =>
      screen_pos <- to_screen (Int (fst pos)) (Int (snd pos)) ;;
      let ox := fst mp - fst screen_pos in
      let oy := snd mp - snd screen_pos in
      sq <- of_int (ox ^ 2 + oy ^ 2) ;;
      distance <- fsqrt sq ;;
      c <- of_int 15 ;;
      if fltb distance c then Ok (Some (name, (ox, oy)))
      else hit_test mp d'
  end.

(** [to_math] on the pointer position less the captured offset. *)
Definition to_math (screen_x screen_y : Z) : Z * Z :=
  (screen_x - WIDTH / 2, HEIGHT / 2 - screen_y).

(** [to_math] applied to the pair [to_screen(x, y)] returns, for two
    ints. *)
Definition round_trip (x y : Z) : result (Z * Z) :=
  s <- to_screen (Int x) (Int y) ;;
  Ok (to_math (fst s) (snd s)).

Definition handle_mouse (st : GeometryViz) (mp : Z * Z) (pressed : bool)
  : result GeometryViz :=
  if pressed then
    match dragging st with
    | None =>
        h <- hit_test mp (points st) ;;
        match h with
        | Some (name, off) => Ok (set_dragging st (Some name) off)
        | None => Ok st
        end
    | Some name =>
        let new_pos := to_math (fst mp - fst (drag_offset st))
                               (snd mp - snd (drag_offset st)) in
        Ok (set_points st (dict_set name new_pos (points st)))
    end
  else Ok (set_dragging st None (drag_offset st)).

(** The body of [for event in pygame.event.get()]; the flag is
    [running]. *)
Definition handle_event (sr : GeometryViz * bool) (ev : event)
  : GeometryViz * bool :=
  let (st, running) := sr in
  match ev with
  | QUIT => (st, false)
  | KEYDOWN K_e => (set_mode st EUCLIDEAN, running)
  | KEYDOWN K_a => (set_mode st AFFINE, running)
  | KEYDOWN K_b => (set_mode st BOTH, running)
  | KEYDOWN K_g => (set_show_grid st (negb (show_grid st)), running)
  | KEYDOWN K_SPACE => (set_animate st (negb (animate st)), running)
  | KEYDOWN K_r => (set_points st default_points, running)
  | KEYDOWN K_other => (st, running)
  | OTHER => (st, running)
  end.

(** [x += d] for a float [d]. *)
Definition iadd (x : num F) (d : F) : result (num F) :=
  fx <- float_of x ;;
  Ok (Float (fadd fx d)).

(** Lines 285-319 of [run]: everything one iteration assigns to the
    state.  The drawing calls that follow read the state only (an
    exception raised while drawing would end the program there). *)
Definition frame (st : GeometryViz) (inp : frame_input)
  : result (GeometryViz * bool) :=
  ms <- of_int (tick_ms inp) ;;
  k <- lit 1000 1 ;;
  dt <- fdiv ms k ;;
  t <- iadd (time st) dt ;;
  st1 <- (if animate st then
            c3 <- of_int 3 ;;
            ph <- iadd (pulse_phase st) (fmul dt c3) ;;
            c5 <- lit 5 10 ;;
            ang <- iadd (rotation_angle st) (fmul dt c5) ;;
            Ok (set_clock st t ph ang)
          else Ok (set_clock st t (pulse_phase st) (rotation_angle st))) ;;
  let (st2, running) := fold_left handle_event (events inp) (st1, true) in
  st3 <- handle_mouse st2 (mouse_pos inp) (mouse_pressed inp) ;;
  Ok (st3, running).

(** [while running:] over the inputs of successive iterations. *)
Fixpoint run (st : GeometryViz) (inps : list frame_input)
  : result GeometryViz :=
  match inps with
  | [] => Ok st
  | inp :: rest =>
      r <- frame st inp ;;
      if snd r then run (fst r) rest else Ok (fst r)
  end.

Section WithMath.
Context `{PyMath F}.

(** [shear_factor = 0.3 * math.sin(self.time * 0.5)] *)
Definition shear_factor (st : GeometryViz) : result F :=
  c3 <- lit 3 10 ;;
  t <- float_of (time st) ;;
  c5 <- lit 5 10 ;;
  Ok (fmul c3 (msin (fmul t c5))).

(** The sheared triangle of [draw_affine_elements], in screen
    coordinates. *)
Definition transformed (st : GeometryViz) : result (list (Z * Z)) :=
  if mode_eqb (mode st) EUCLIDEAN then Ok []
  else
    A <- dict_lookup "A" (points st) ;;
    B <- dict_lookup "B" (points st) ;;
    C <- dict_lookup "C" (points st) ;;
    k <- shear_factor st ;;
    mapM (fun p : point =>
            y <- of_int (snd p) ;;
            x <- of_int (fst p) ;;
            to_screen (Float (fadd x (fmul k y))) (Int (snd p)))
         [A; B; C].

(** [pulse = math.sin(self.pulse_phase) * 0.5 + 1] *)
Definition pulse (st : GeometryViz) : result F :=
  ph <- float_of (pulse_phase st) ;;
  c5 <- lit 5 10 ;;
  one <- of_int 1 ;;
  Ok (fadd (fmul (msin ph) c5) one).

End WithMath.
End WithFloat.

Arguments GeometryViz F : clear implicits.
Arguments bisector F : clear implicits.

End Ele.

(* ===================================================================== *)
(** ** numpy.linspace *)
(* ===================================================================== *)

Module Numpy.
Section WithFloat.
Context {F : Type} `{PyFloat F}.

(** [np.linspace(start, stop, num)] with the default [endpoint=True]:
    [step = (stop - start) / (num - 1)], the samples are
    [i * step + start], and the last one is then overwritten with
    [stop].  (The branch numpy takes for a zero step is left out: every
    call in the program has [start < stop].) *)
Definition linspace (start stop : F) (n : nat) : result (list F) :=
  match n with
  | O => Ok []
  | S O => Ok [start]
  | S n' =>
      div <- of_int (Z.of_nat n') ;;
      step <- fdiv (fsub stop start) div ;;
      mapM (fun i =>
              if Nat.eqb i n' then Ok stop
              else
                fi <- of_int (Z.of_nat i) ;;
                Ok (fadd (fmul fi step) start))
           (seq 0 n)
  end.

End WithFloat.
End Numpy.

(* ===================================================================== *)
(** ** ℝ²confusion.py: CrossSectionViz *)
(* ===================================================================== *)

Module Confusion.

Import Numpy.

Definition WIDTH : Z := 1200.
Definition HEIGHT : Z := 800.
Definition FPS : Z := 60.
Definition GRID_SIZE : Z := 25.

Inductive ViewMode : Type :=
| REAL_PLANE | COMPLEX_PROJECTION | FOUR_D_SLICES | MULTI_FIELD.

Inductive key : Type :=
| K_1 | K_2 | K_3 | K_4
| K_UP | K_DOWN | K_LEFT | K_RIGHT
| K_p | K_h | K_a | K_other.

Inductive event : Type :=
| QUIT
| KEYDOWN (k : key)
| OTHER.

(** The events whose branch assigns to a slice parameter. *)
Definition is_arrow (ev : event) : bool :=
  match ev with
  | KEYDOWN K_UP | KEYDOWN K_DOWN | KEYDOWN K_LEFT | KEYDOWN K_RIGHT => true
  | _ => false
  end.

(** The event [K_a] is the one that assigns to [self.animate]. *)
Definition is_toggle (ev : event) : bool :=
  match ev with
  | KEYDOWN K_a => true
  | _ => false
  end.

Record frame_input : Type := {
  tick_ms : Z;
  events : list event
}.

(** [range(-2, 3)] *)
Definition range_m2_3 : list Z := [-2; -1; 0; 1; 2].

(** The 𝔽₁₁ branch of [draw_multi_field_comparison]: the lattice points
    [(x, y)] that pass the test, in the order the loops meet them. *)
Definition finite_field_points (radius : Z) : list (Z * Z) :=
  flat_map
    (fun x =>
       flat_map
         (fun y =>
            if (x * x + y * y) mod 11 =? (radius / 10) mod 11
            then [(x, y)] else [])
         range_m2_3)
    range_m2_3.

Section WithFloat.
Context {F : Type} `{PyFloat F}.

Record CrossSectionViz : Type := {
  view_mode : ViewMode;
  time : num F;
  show_projections : bool;
  show_hidden_dims : bool;
  animate : bool;
  slice_real_im : F;
  slice_imaginary : F;
  viewing_angle : F;
  radius : Z
}.

(** [__init__] *)
Definition init : result CrossSectionViz :=
  z <- lit 0 1 ;;
  Ok {| view_mode := REAL_PLANE;
        time := Int 0;
        show_projections := true;
        show_hidden_dims := true;
        animate := true;
        slice_real_im := z;
        slice_imaginary := z;
        viewing_angle := z;
        radius := 80 |}.

Definition set_view_mode (st : CrossSectionViz) (m : ViewMode) :=
  {| view_mode := m; time := time st;
     show_projections := show_projections st;
     show_hidden_dims := show_hidden_dims st; animate := animate st;
     slice_real_im := slice_real_im st;
     slice_imaginary := slice_imaginary st;
     viewing_angle := viewing_angle st; radius := radius st |}.

Definition set_time (st : CrossSectionViz) (t : num F) :=
  {| view_mode := view_mode st; time := t;
     show_projections := show_projections st;
     show_hidden_dims := show_hidden_dims st; animate := animate st;
     slice_real_im := slice_real_im st;
     slice_imaginary := slice_imaginary st;
     viewing_angle := viewing_angle st; radius := radius st |}.

Definition set_slices (st : CrossSectionViz) (a b : F) :=
  {| view_mode := view_mode st; time := time st;
     show_projections := show_projections st;
     show_hidden_dims := show_hidden_dims st; animate := animate st;
     slice_real_im := a;
     slice_imaginary := b;
     viewing_angle := viewing_angle st; radius := radius st |}.

Definition set_flags (st : CrossSectionViz) (p h a : bool) :=
  {| view_mode := view_mode st; time := time st;
     show_projections := p;
     show_hidden_dims := h; animate := a;
     slice_real_im := slice_real_im st;
     slice_imaginary := slice_imaginary st;
     viewing_angle := viewing_angle st; radius := radius st |}.

(** The two slice parameters. *)
Definition slices (st : CrossSectionViz) : F * F :=
  (slice_real_im st, slice_imaginary st).

(** [to_screen(x, y, offset_x, offset_y)]: the bases are ints, so an
    int coordinate never becomes a float. *)
Definition to_screen1 (base : Z) (sign : bool) (x : num F) : result Z :=
  match x with
  | Int z => Ok (if sign then base - z else base + z)
  | Float f =>
      b <- of_int base ;;
      ftrunc (if sign then fsub b f else fadd b f)
  end.

Definition to_screen (x y : num F) (offset_x offset_y : Z)
  : result (Z * Z) :=
  let base_x := WIDTH / 2 + offset_x in
  let base_y := HEIGHT / 2 + offset_y in
  sx <- to_screen1 base_x false x ;;
  sy <- to_screen1 base_y true y ;;
  Ok (sx, sy).

(** [y_val = math.sqrt(abs(self.radius**2 - s**2 - x**2))], where [s]
    is a Python float and [x] a numpy float64. *)
Definition y_val (radius : Z) (s x : F) : result F :=
  s2 <- fpow2 s ;;
  r2 <- of_int (radius ^ 2) ;;
  fsqrt (fabs (fsub (fsub r2 s2) (fmul x x))).

(** One pass of the body of [for x in np.linspace(-50, 50, 100)] in
    [draw_four_d_slices], inside its [try: ... except: pass]: the two
    circle centres, or nothing. *)
Definition slice_sample (radius : Z) (s : F) (offset_x offset_y : Z)
           (x : F) : list (Z * Z) :=
  try_pass
    (y <- y_val radius s x ;;
     pt1 <- to_screen (Float x) (Float y) offset_x offset_y ;;
     pt2 <- to_screen (Float x) (Float (fneg y)) offset_x offset_y ;;
     Ok [pt1; pt2]).

(** The circle centres of quadrant [i == 1] (with
    [s = self.slice_imaginary]) and [i == 2] (with
    [s = self.slice_real_im]). *)
Definition slice_points (radius : Z) (s : F) (offset_x offset_y : Z)
  : result (list (Z * Z)) :=
  lo <- of_int (-50) ;;
  hi <- of_int 50 ;;
  xs <- linspace lo hi 100 ;;
  Ok (flat_map (slice_sample radius s offset_x offset_y) xs).

(** The circle centres of the 𝔽₁₁ quadrant. *)
Definition finite_field_screen (radius : Z) (offset_x offset_y : Z)
  : result (list (Z * Z)) :=
  mapM (fun p : Z * Z =>
          to_screen (Int (fst p * 15)) (Int (snd p * 15))
                    offset_x offset_y)
       (finite_field_points radius).

(** Python [complex]: a pair of floats. *)
Definition complex : Type := (F * F)%type.

Definition cmul (a b : complex) : complex :=
  (fsub (fmul (fst a) (fst b)) (fmul (snd a) (snd b)),
   fadd (fmul (fst a) (snd b)) (fmul (snd a) (fst b))).

Definition cadd (a b : complex) : complex :=
  (fadd (fst a) (fst b), fadd (snd a) (snd b)).

(** [r * z] for an int [r]: [r] becomes [complex(r, 0.0)]. *)
Definition int_cmul (r : Z) (z : complex) : result complex :=
  fr <- of_int r ;;
  z0 <- lit 0 1 ;;
  Ok (cmul (fr, z0) z).

Section WithMath.
Context `{PyMath F}.

(** The body of the inner loop of [complex_circle_solutions]. *)
Definition solution (r : Z) (real_t complex_param : F)
  : result (complex * complex) :=
  let t : complex := (real_t, complex_param) in
  z1 <- int_cmul r (fmul (mcos (fst t)) (mcosh (snd t)),
                    fmul (fneg (msin (fst t))) (msinh (snd t))) ;;
  z2 <- int_cmul r (fmul (msin (fst t)) (mcosh (snd t)),
                    fmul (mcos (fst t)) (msinh (snd t))) ;;
  Ok (z1, z2).

(** The parameter values of the outer and of the inner loop. *)
Definition real_ts : result (list F) :=
  z <- of_int 0 ;;
  two <- of_int 2 ;;
  linspace z (fmul two mpi) 40.

Definition complex_params : result (list F) :=
  h <- lit 5 10 ;;
  h' <- lit 5 10 ;;
  linspace (fneg h) h' 5.

Definition complex_circle_solutions (r : Z)
  : result (list (complex * complex)) :=
  ts <- real_ts ;;
  rows <- mapM (fun real_t =>
                  cs <- complex_params ;;
                  mapM (solution r real_t) cs)
               ts ;;
  Ok (List.concat rows).

(** The two assignments under [if self.animate:] in [run]. *)
Definition animated_slices (t : num F) : result (F * F) :=
  c3 <- lit 3 10 ;;
  ft <- float_of t ;;
  c5 <- lit 5 10 ;;
  let a := fmul c3 (msin (fmul ft c5)) in
  c3' <- lit 3 10 ;;
  ft' <- float_of t ;;
  c7 <- lit 7 10 ;;
  let b := fmul c3' (mcos (fmul ft' c7)) in
  Ok (a, b).

(** The body of [for event in pygame.event.get()]. *)
Definition handle_event (sr : CrossSectionViz * bool) (ev : event)
  : result (CrossSectionViz * bool) :=
  let (st, running) := sr in
  match ev with
  | QUIT => Ok (st, false)
  | KEYDOWN K_1 => Ok (set_view_mode st REAL_PLANE, running)
  | KEYDOWN K_2 => Ok (set_view_mode st COMPLEX_PROJECTION, running)
  | KEYDOWN K_3 => Ok (set_view_mode st FOUR_D_SLICES, running)
  | KEYDOWN K_4 => Ok (set_view_mode st MULTI_FIELD, running)
  | KEYDOWN K_UP =>
      c <- lit 1 10 ;;
      Ok (set_slices st (fadd (slice_real_im st) c)
                     (slice_imaginary st), running)
  | KEYDOWN K_DOWN =>
      c <- lit 1 10 ;;
      Ok (set_slices st (fsub (slice_real_im st) c)
                     (slice_imaginary st), running)
  | KEYDOWN K_LEFT =>
      c <- lit 1 10 ;;
      Ok (set_slices st (slice_real_im st)
                     (fsub (slice_imaginary st) c), running)
  | KEYDOWN K_RIGHT =>
      c <- lit 1 10 ;;
      Ok (set_slices st (slice_real_im st)
                     (fadd (slice_imaginary st) c), running)
  | KEYDOWN K_p =>
      Ok (set_flags st (negb (show_projections st))
                    (show_hidden_dims st) (animate st), running)
  | KEYDOWN K_h =>
      Ok (set_flags st (show_projections st)
                    (negb (show_hidden_dims st)) (animate st), running)
  | KEYDOWN K_a =>
      Ok (set_flags st (show_projections st)
                    (show_hidden_dims st) (negb (animate st)), running)
  | KEYDOWN K_other => Ok (st, running)
  | OTHER => Ok (st, running)
  end.

(** [self.time += dt] with [dt = self.clock.tick(FPS) / 1000.0]. *)
Definition advance (st : CrossSectionViz) (ms : Z) : result (num F) :=
  fms <- of_int ms ;;
  k <- lit 1000 1 ;;
  dt <- fdiv fms k ;;
  ft <- float_of (time st) ;;
  Ok (Float (fadd ft dt)).

(** Lines 332-365 of [run]: everything one iteration assigns to the
    state.  The drawing calls that follow read the state only (an
    exception raised while drawing would end the program there). *)
Definition frame (st : CrossSectionViz) (inp : frame_input)
  : result (CrossSectionViz * bool) :=
  t <- advance st (tick_ms inp) ;;
  let st0 := set_time st t in
  st1 <- (if animate st0 then
            ab <- animated_slices t ;;
            Ok (set_slices st0 (fst ab) (snd ab))
          else Ok st0) ;;
  foldM handle_event (events inp) (st1, true).

(** [while running:] over the inputs of successive iterations. *)
Fixpoint run (st : CrossSectionViz) (inps : list frame_input)
  : result CrossSectionViz :=
  match inps with
  | [] => Ok st
  | inp :: rest =>
      r <- frame st inp ;;
      if snd r then run (fst r) rest else Ok (fst r)
  end.

End WithMath.
End WithFloat.

Arguments CrossSectionViz F : clear implicits.
Arguments complex F : clear implicits.

End Confusion.

(* ===================================================================== *)
(** ** Python's range *)
(* ===================================================================== *)

Module PyRange.

(** The number of elements of [range(start, stop, step)]. *)
Definition range_len (start stop step : Z) : Z :=
  if 0 <? step then Z.max 0 ((stop - start + step - 1) / step)
  else if step <? 0 then Z.max 0 ((start - stop - step - 1) / (- step))
  else 0.

(** [range(start, stop, step)] as the list of its elements.  ([step = 0]
    is a [ValueError] in Python; no call in the programs passes it.) *)
Definition py_range (start stop step : Z) : list Z :=
  map (fun i => start + Z.of_nat i * step)
      (seq 0 (Z.to_nat (range_len start stop step))).

End PyRange.

(* ===================================================================== *)
(** ** ele.py: the drawing methods *)
(* ===================================================================== *)

Module EleDraw.
Import PyRange Ele.

Definition is_quit (ev : event) : bool :=
  match ev with
  | QUIT => true
  | _ => false
  end.

(** A call of [pygame.draw.line]: the two end points and the width. *)
Record draw_line : Type := {
  line_from : Z * Z;
  line_to : Z * Z;
  line_width : Z
}.

(** [draw_elegant_grid]: the vertical lines, then the horizontal ones. *)
Definition grid_lines (show_grid : bool) : list draw_line :=
  if negb show_grid then []
  else
    map (fun x =>
           let screen_x := WIDTH / 2 + x in
           {| line_from := (screen_x, 0); line_to := (screen_x, HEIGHT);
              line_width := 1 |})
        (py_range (- WIDTH / 2) (WIDTH / 2) GRID_SIZE)
    ++
    map (fun y =>
           let screen_y := HEIGHT / 2 - y in
           {| line_from := (0, screen_y); line_to := (WIDTH, screen_y);
              line_width := 1 |})
        (py_range (- HEIGHT / 2) (HEIGHT / 2) GRID_SIZE).

Section WithFloat.
Context {F : Type} `{PyFloat F}.

Definition draw_elegant_grid (st : GeometryViz F) : list draw_line :=
  grid_lines (show_grid st).

(** The test of [handle_mouse] on one point: whether the pointer is
    within 15 pixels of it, and the offset of the pointer from it. *)
Definition near (mp : Z * Z) (pos : point) : result (bool * (Z * Z)) :=
  screen_pos <- to_screen (Int (fst pos)) (Int (snd pos)) ;;
  let ox := fst mp - fst screen_pos in
  let oy := snd mp - snd screen_pos in
  sq <- of_int (ox ^ 2 + oy ^ 2) ;;
  distance <- fsqrt sq ;;
  c <- of_int 15 ;;
  Ok (fltb distance c, (ox, oy)).

(** What [self.points] and [self.dragging] satisfy all along: the four
    names in their order, and a dragged name that is one of them. *)
Definition point_names : list string :=
  ["A"%string; "B"%string; "C"%string; "D"%string].

Definition well_formed (st : GeometryViz F) : Prop :=
  map fst (points st) = point_names /\
  forall d, dragging st = Some d -> In d point_names.

(** [handle_mouse] over the pointer states of successive frames. *)
Definition handle_mouse_seq (st : GeometryViz F)
           (moves : list ((Z * Z) * bool)) : result (GeometryViz F) :=
  foldM (fun s m => handle_mouse s (fst m) (snd m)) moves st.

(** The milliseconds of the frames a run goes through: all of them up
    to and including the first one that holds a [QUIT]. *)
Fixpoint run_ms (inps : list frame_input) : Z :=
  match inps with
  | [] => 0
  | inp :: rest =>
      if existsb is_quit (events inp) then tick_ms inp
      else tick_ms inp + run_ms rest
  end.

(** [self.pulse_phase * 2] *)
Definition double (x : num F) : result F :=
  match x with
  | Int z => of_int (z * 2)
  | Float f =>
      two <- of_int 2 ;;
      Ok (fmul f two)
  end.

Section WithMath.
Context `{PyMath F}.

(** [thickness = int(base_thickness * pulse)] in
    [draw_euclidean_elements]. *)
Definition thickness (st : GeometryViz F) : result Z :=
  p <- pulse st ;;
  base_thickness <- of_int 3 ;;
  ftrunc (fmul base_thickness p).

(** The widths of the glow lines: [thickness + i] for
    [i in range(5, 0, -1)]. *)
Definition glow_widths (st : GeometryViz F) : result (list Z) :=
  t <- thickness st ;;
  Ok (map (fun i => t + i) (py_range 5 0 (-1))).

(** [size] in the loop of [draw_points]. *)
Definition point_size (st : GeometryViz F) (name : string) : result Z :=
  let base_size := 8 in
  match dragging st with
  | Some d =>
      if String.eqb d name then
        ph2 <- double (pulse_phase st) ;;
        two <- of_int 2 ;;
        six <- of_int 6 ;;
        let pulse := fadd (fmul (msin ph2) two) six in
        b <- of_int base_size ;;
        ftrunc (fadd b pulse)
      else Ok base_size
  | None => Ok base_size
  end.

(** The triangle [draw_affine_elements] draws before shearing it. *)
Definition triangle (st : GeometryViz F) : result (list (Z * Z)) :=
  if mode_eqb (mode st) EUCLIDEAN then Ok []
  else
    A <- dict_lookup "A" (points st) ;;
    B <- dict_lookup "B" (points st) ;;
    C <- dict_lookup "C" (points st) ;;
    mapM (fun p : point => to_screen (Int (fst p)) (Int (snd p))) [A; B; C].

End WithMath.
End WithFloat.

End EleDraw.

(* ===================================================================== *)
(** ** ele.py: the hit test on integers, and the states a run can reach *)
(* ===================================================================== *)

Module EleSafety.
Import Binary64 Ele EleDraw.

(** The scan of [handle_mouse] with the test [distance < 15] replaced by
    the comparison of the squared pixel distance with 225. *)
Fixpoint first_within (mp : Z * Z) (d : dict) : option (string * (Z * Z)) :=
  match d with
  | [] => None
  | (name, pos) :: d' =>
      let ox := fst mp - (WIDTH / 2 + fst pos) in
      let oy := snd mp - (HEIGHT / 2 - snd pos) in
      if ox ^ 2 + oy ^ 2 <? 225 then Some (name, (ox, oy))
      else first_within mp d'
  end.

(** Coordinates of magnitude below 2^24. *)
Definition small (p : Z * Z) : Prop :=
  Z.abs (fst p) < 2 ^ 24 /\ Z.abs (snd p) < 2 ^ 24.

(** A pointer position inside the window. *)
Definition in_window (mp : Z * Z) : Prop :=
  0 <= fst mp < WIDTH /\ 0 <= snd mp < HEIGHT.

(** A point no further than 14 pixels outside the window. *)
Definition in_reach (p : point) : Prop :=
  -464 <= fst p <= 463 /\ -313 <= snd p <= 314.

(** A clock field that converts to a float without overflow. *)
Definition convertible (x : num b64) : Prop :=
  match x with
  | Int z => Z.abs z < 2 ^ 53
  | Float _ => True
  end.

(** The states a run from [init] passes through when the pointer stays
    inside the window. *)
Definition safe (st : GeometryViz b64) : Prop :=
  map fst (points st) = point_names /\
  Forall (fun kv => in_reach (snd kv)) (points st) /\
  (forall d, dragging st = Some d ->
             In d point_names /\
             Z.abs (fst (drag_offset st)) <= 14 /\
             Z.abs (snd (drag_offset st)) <= 14) /\
  convertible (time st) /\
  convertible (pulse_phase st) /\
  convertible (rotation_angle st).

Definition input_ok (inp : frame_input) : Prop :=
  0 <= tick_ms inp < 2 ^ 53 /\ in_window (mouse_pos inp).

End EleSafety.

(* ===================================================================== *)
(** ** ℝ²confusion.py: more of the drawing methods *)
(* ===================================================================== *)

Module ConfusionDraw.
Import Numpy Confusion.

Definition is_quit (ev : event) : bool :=
  match ev with
  | QUIT => true
  | _ => false
  end.

(** [l[::3]] *)
Fixpoint every_third {A : Type} (l : list A) : list A :=
  match l with
  | a :: _ :: _ :: l' => a :: every_third l'
  | a :: _ => [a]
  | [] => []
  end.

(** [enumerate(l)] from a given first index. *)
Fixpoint enumerate_from {A : Type} (i : Z) (l : list A) : list (Z * A) :=
  match l with
  | [] => []
  | a :: l' => (i, a) :: enumerate_from (i + 1) l'
  end.

(** The arrow keys of a list of events, counted with their signs: up
    less down, and right less left. *)
Definition arrow_step (ev : event) : Z * Z :=
  match ev with
  | KEYDOWN K_UP => (1, 0)
  | KEYDOWN K_DOWN => (-1, 0)
  | KEYDOWN K_RIGHT => (0, 1)
  | KEYDOWN K_LEFT => (0, -1)
  | _ => (0, 0)
  end.

Definition net_arrows (evs : list event) : Z * Z :=
  fold_right (fun ev acc => (fst (arrow_step ev) + fst acc,
                             snd (arrow_step ev) + snd acc))
             (0, 0) evs.

(** What one pass of the loop of [draw_complex_projection_view] draws:
    the two circle centres and whether the line between them is drawn. *)
Record projection : Type := {
  real_pt : Z * Z;
  proj_pt : Z * Z;
  with_line : bool
}.

Section WithFloat.
Context {F : Type} `{PyFloat F}.

(** Quadrant [i == 3] of [draw_four_d_slices]:
    [int(max(10, self.radius - abs(self.slice_real_im +
    self.slice_imaginary)))]; [max] returns its first argument unless the
    second compares greater. *)
Definition radius_adjusted (st : CrossSectionViz F) : result Z :=
  r <- of_int (radius st) ;;
  let v := fsub r (fabs (fadd (slice_real_im st) (slice_imaginary st))) in
  ten <- of_int 10 ;;
  if fltb ten v then ftrunc v else Ok 10.

(** The body of the loop of [draw_complex_projection_view]. *)
Definition project (show_projections : bool)
           (iz : Z * (complex F * complex F)) : result projection :=
  let '(i, (z1, z2)) := iz in
  p <- to_screen (Float (fst z1)) (Float (fst z2)) (-200) 0 ;;
  q <- to_screen (Float (fst z1)) (Float (fst z2)) 200 0 ;;
  Ok {| real_pt := p; proj_pt := q;
        with_line := show_projections && (i mod 5 =? 0) |}.

Section WithMath.
Context `{PyMath F}.

Definition draw_complex_projection_view (st : CrossSectionViz F)
  : result (list projection) :=
  solutions <- complex_circle_solutions (radius st) ;;
  mapM (project (show_projections st))
       (enumerate_from 0 (every_third solutions)).

(** The ℚ̄ branch of [draw_multi_field_comparison]: the lattice point
    [(int(40 * cos(angle)), int(40 * sin(angle)))] of each angle. *)
Definition rational_point (angle : F) : result (Z * Z) :=
  c <- of_int 40 ;;
  x <- ftrunc (fmul c (mcos angle)) ;;
  c' <- of_int 40 ;;
  y <- ftrunc (fmul c' (msin angle)) ;;
  Ok (x, y).

Definition rational_points : result (list (Z * Z)) :=
  z <- of_int 0 ;;
  two <- of_int 2 ;;
  angles <- linspace z (fmul two mpi) 20 ;;
  mapM rational_point angles.

End WithMath.
End WithFloat.

End ConfusionDraw.

(* ===================================================================== *)
(** ** Closed forms over the reals *)
(* ===================================================================== *)

Module Closed.
Import Exact.
Local Open Scope R_scope.

(** The value the sampler returns over the reals. *)
Definition bisector_R (A B : Ele.point) : Ele.bisector R :=
  let dx := (fst B - fst A)%Z in
  let dy := (snd B - snd A)%Z in
  let length := sqrt (IZR (dx * dx + dy * dy)) in
  let mid_x := IZR (fst A + fst B) / 2 in
  let mid_y := IZR (snd A + snd B) / 2 in
  let perp_dx := IZR (- dy) / length * 80 in
  let perp_dy := IZR dx / length * 80 in
  {| Ele.mid := (mid_x, mid_y);
     Ele.perp := (perp_dx, perp_dy);
     Ele.perp_start := (mid_x + perp_dx, mid_y + perp_dy);
     Ele.perp_end := (mid_x - perp_dx, mid_y - perp_dy) |}.

(** The samples [np.linspace] returns over the reals. *)
Definition linspace_R (a b : R) (n : nat) : list R :=
  map (fun i => if Nat.eqb i (n - 1) then b
                else IZR (Z.of_nat i) * ((b - a) / IZR (Z.of_nat (n - 1))) + a)
      (seq 0 n).

(** The pair the inner loop body appends over the reals. *)
Definition solution_R (r : Z) (t c : R) : Confusion.complex R * Confusion.complex R :=
  (Confusion.cmul (IZR r, IZR 0 / IZR 1) (cos t * cosh c, - sin t * sinh c),
   Confusion.cmul (IZR r, IZR 0 / IZR 1) (sin t * cosh c, cos t * sinh c)).

(** The float a [self.time] holds, over the reals. *)
Definition time_R (t : num R) : R :=
  match t with
  | Int z => IZR z
  | Float f => f
  end.

End Closed.

(* ===================================================================== *)
(** ** States and inputs used in the scenarios *)
(* ===================================================================== *)

(** CrossSectionViz with the animation switched off, and switched on. *)
Definition c_off : Confusion.CrossSectionViz R :=
  {| Confusion.view_mode := Confusion.FOUR_D_SLICES;
     Confusion.time := Int 0;
     Confusion.show_projections := true;
     Confusion.show_hidden_dims := true;
     Confusion.animate := false;
     Confusion.slice_real_im := 0%R;
     Confusion.slice_imaginary := 0%R;
     Confusion.viewing_angle := 0%R;
     Confusion.radius := 80 |}.

Definition c_on : Confusion.CrossSectionViz R :=
  Confusion.set_flags c_off true true true.

(** A 16 ms frame with the up arrow pressed; one with a view switch. *)
Definition frame_up : Confusion.frame_input :=
  {| Confusion.tick_ms := 16;
     Confusion.events := [Confusion.KEYDOWN Confusion.K_UP] |}.

Definition frame_quiet : Confusion.frame_input :=
  {| Confusion.tick_ms := 16;
     Confusion.events := [Confusion.KEYDOWN Confusion.K_3] |}.

(** Two 16 ms frames that switch the animation off, the first after an
    up arrow; and a frame without events. *)
Definition frame_up_toggle : Confusion.frame_input :=
  {| Confusion.tick_ms := 16;
     Confusion.events := [Confusion.KEYDOWN Confusion.K_UP;
                          Confusion.KEYDOWN Confusion.K_a] |}.

Definition frame_toggle : Confusion.frame_input :=
  {| Confusion.tick_ms := 16;
     Confusion.events := [Confusion.KEYDOWN Confusion.K_a] |}.

Definition frame_none : Confusion.frame_input :=
  {| Confusion.tick_ms := 16; Confusion.events := [] |}.

(** GeometryViz over the reals with the animation switched off, and a
    frame of one second without input. *)
Definition g_off : Ele.GeometryViz R :=
  Ele.set_animate Ele.init false.

Definition second : Ele.frame_input :=
  {| Ele.tick_ms := 1000; Ele.events := [];
     Ele.mouse_pos := (0, 0); Ele.mouse_pressed := false |}.

(** A 16 ms frame with the grid key and the button held over point A. *)
Definition drag_frame : Ele.frame_input :=
  {| Ele.tick_ms := 16; Ele.events := [Ele.KEYDOWN Ele.K_g];
     Ele.mouse_pos := (332, 381); Ele.mouse_pressed := true |}.

(** A 16 ms frame that closes the window after the grid key; and one of
    CrossSectionViz that closes it before an up arrow. *)
Definition quit_frame : Ele.frame_input :=
  {| Ele.tick_ms := 16; Ele.events := [Ele.KEYDOWN Ele.K_g; Ele.QUIT];
     Ele.mouse_pos := (0, 0); Ele.mouse_pressed := false |}.

Definition cross_quit_frame : Confusion.frame_input :=
  {| Confusion.tick_ms := 16;
     Confusion.events := [Confusion.QUIT; Confusion.KEYDOWN Confusion.K_UP] |}.

(** GeometryViz over binary64 with point A grabbed 2 pixels right of and
    1 pixel below its centre, and a pointer path with the button down. *)
Definition grabbed : Ele.GeometryViz Binary64.b64 :=
  Ele.set_dragging Ele.init (Some "A"%string) (2, 1).

Definition drag_path : list ((Z * Z) * bool) :=
  [((340, 390), true); ((500, 200), true)].


(* ===================================================================== *)
(** * Properties *)
(* ===================================================================== *)

(** ** binary64 is exact on integers below 2^53

    [binary_normalize] on a mantissa and exponent that denote an integer
    of magnitude below 2^53 returns that integer in canonical form, and so
    do the sum and the difference of two such floats when the result stays
    below 2^53. *)

Import Binary64 Exact Closed.

Module Binary64Facts.

Lemma iter_xO_mul a d : Zpos (Pos.iter xO a d) = Zpos a * 2 ^ Zpos d.
Proof.
  induction d as [|d IH] using Pos.peano_ind.
  - simpl. lia.
  - rewrite Pos.iter_succ, Pos2Z.inj_xO, IH, Pos2Z.inj_succ, Z.pow_succ_r by lia. ring.
Qed.

Lemma shl_mul a k : 0 <= k -> Zpos (shl a k) = Zpos a * 2 ^ k.
Proof.
  destruct k as [|d|d]; intro Hk; simpl shl.
  - rewrite Z.pow_0_r; lia.
  - apply iter_xO_mul.
  - lia.
Qed.

Lemma digits_iter_xO a d :
  Zpos (digits2_pos (Pos.iter xO a d)) = Zpos (digits2_pos a) + Zpos d.
Proof.
  induction d as [|d IH] using Pos.peano_ind.
  - simpl. lia.
  - rewrite Pos.iter_succ. simpl digits2_pos. rewrite Pos2Z.inj_succ, IH. lia.
Qed.

Lemma digits_shl a k :
  0 <= k -> Zpos (digits2_pos (shl a k)) = Zpos (digits2_pos a) + k.
Proof.
  destruct k as [|d|d]; intro Hk; simpl shl; [lia | apply digits_iter_xO | lia].
Qed.

Lemma shl_shl a j k : 0 <= j -> 0 <= k -> shl (shl a j) k = shl a (j + k).
Proof.
  intros Hj Hk. apply Pos2Z.inj.
  rewrite !shl_mul, Z.pow_add_r by lia. ring.
Qed.

Lemma iter_pos_comm {A} (f : A -> A) n x : iter_pos f n (f x) = f (iter_pos f n x).
Proof.
  revert x. induction n as [n IH|n IH|]; intro x; simpl.
  - now rewrite !IH.
  - now rewrite !IH.
  - reflexivity.
Qed.

Lemma iter_pos_iter {A} (f : A -> A) n x : iter_pos f n x = Pos.iter f x n.
Proof.
  revert x. induction n as [n IH|n IH|]; intro x; simpl.
  - rewrite iter_pos_comm, iter_pos_comm, !IH. reflexivity.
  - rewrite !IH. reflexivity.
  - reflexivity.
Qed.

Lemma shr_iter_xO a n :
  iter_pos shr_1 n (Build_shr_record (Zpos (Pos.iter xO a n)) false false)
  = Build_shr_record (Zpos a) false false.
Proof.
  rewrite iter_pos_iter.
  induction n as [|n IH] using Pos.peano_ind.
  - reflexivity.
  - rewrite Pos.iter_succ_r, Pos.iter_succ. simpl shr_1. exact IH.
Qed.

Lemma fexp_small d : -1021 <= d -> fexp prec emax d = d - 53.
Proof. intro Hd. unfold fexp, emin, prec, emax. lia. Qed.

Lemma binary_round_exact s a k :
  0 <= k -> Zpos (digits2_pos a) <= 53 ->
  binary_round prec emax s (shl a k) (- k)
  = S754_finite s (shl a (53 - Zpos (digits2_pos a))) (Zpos (digits2_pos a) - 53).
Proof.
  intros Hk Hd.
  remember (Zpos (digits2_pos a)) as D eqn:ED.
  assert (HD : 1 <= D) by lia.
  (* the canonical mantissa is a fixed point of the two shifts *)
  assert (Hcanon : forall M e, Zpos (digits2_pos M) = 53 -> e = D - 53 ->
            shr_fexp prec emax (Zpos M) e loc_Exact
            = (Build_shr_record (Zpos M) false false, e)).
  { intros M e HM He. unfold shr_fexp. cbn [Zdigits2]. rewrite HM.
    rewrite fexp_small by lia.
    replace (53 + e - 53 - e) with 0 by lia. reflexivity. }
  assert (Hfirst : let '(mz, ez) := shl_align (shl a k) (- k)
                       (fexp prec emax (Zpos (digits2_pos (shl a k)) + - k)) in
            shr_fexp prec emax (Zpos mz) ez loc_Exact
            = (Build_shr_record (Zpos (shl a (53 - D))) false false, D - 53)).
  { rewrite digits_shl by lia. rewrite <- ED.
    replace (D + k + - k) with D by lia.
    rewrite fexp_small by lia.
    unfold shl_align.
    destruct (D - 53 - - k) as [|n|n] eqn:En.
    - assert (k = 53 - D) by lia. subst k.
      replace (- (53 - D)) with (D - 53) by lia.
      apply Hcanon; [rewrite digits_shl by lia; rewrite <- ED; lia | reflexivity].
    - unfold shr_fexp. cbn [Zdigits2]. rewrite digits_shl by lia. rewrite <- ED.
      replace (D + k + - k) with D by lia.
      rewrite fexp_small by lia.
      replace (D - 53 - - k) with (Zpos n) by lia.
      unfold shr. cbn [shr_record_of_loc].
      replace (shl a k) with (Pos.iter xO (shl a (53 - D)) n).
      + rewrite shr_iter_xO. f_equal. lia.
      + change (Pos.iter xO (shl a (53 - D)) n) with (shl (shl a (53 - D)) (Zpos n)).
        rewrite shl_shl by lia. f_equal. lia.
    - change (Pos.iter xO (shl a k) n) with (shl (shl a k) (Zpos n)).
      rewrite shl_shl by lia.
      replace (k + Zpos n) with (53 - D) by lia.
      apply Hcanon; [rewrite digits_shl by lia; rewrite <- ED; lia | reflexivity]. }
  unfold binary_round.
  destruct (shl_align _ _ _) as [mz ez].
  unfold binary_round_aux. rewrite Hfirst.
  cbn [shr_m shr_r shr_s loc_of_shr_record round_nearest_even].
  rewrite Hcanon; [ | rewrite digits_shl by lia; rewrite <- ED; lia | reflexivity ].
  cbn [shr_m].
  replace (D - 53 <=? emax - prec) with true; [reflexivity|].
  symmetry. apply Z.leb_le. unfold emax, prec. lia.
Qed.

Lemma digits_bound a : Zpos a < 2 ^ 53 -> Zpos (digits2_pos a) <= 53.
Proof.
  assert (Hs : forall p, digits2_pos p = Pos.size p)
    by (induction p as [p IH|p IH|]; cbn [digits2_pos Pos.size]; rewrite ?IH; reflexivity).
  intro Ha. specialize (Hs a).
  pose proof (Pos.size_le a) as Hle. rewrite <- Hs in Hle.
  apply Pos2Z.pos_le_pos in Hle. rewrite Pos2Z.inj_pow in Hle.
  destruct (Z_le_gt_dec (Zpos (digits2_pos a)) 53) as [|Hgt]; [assumption|exfalso].
  assert (2 ^ 54 <= 2 ^ Zpos (digits2_pos a)) by (apply Z.pow_le_mono_r; lia).
  change (2 ^ 54) with (2 * 2 ^ 53) in *. lia.
Qed.

Lemma normalize_exact v k :
  0 <= k -> Z.abs v < 2 ^ 53 ->
  binary_normalize prec emax (v * 2 ^ k) (- k) false = canon_int v.
Proof.
  intros Hk Hv.
  assert (H2k : 0 < 2 ^ k) by (apply Z.pow_pos_nonneg; lia).
  destruct v as [|a|a]; [reflexivity| |].
  - rewrite <- shl_mul by assumption. cbn [binary_normalize canon_int].
    apply binary_round_exact; [assumption | apply digits_bound; assumption].
  - change (Zneg a) with (- Zpos a). rewrite Z.mul_opp_l, <- shl_mul by assumption.
    cbn [Z.opp binary_normalize canon_int].
    apply binary_round_exact; [assumption | apply digits_bound; assumption].
Qed.

Lemma of_int_exact v :
  Z.abs v < 2 ^ 53 -> binary_normalize prec emax v 0 false = canon_int v.
Proof.
  intro Hv. pose proof (normalize_exact v 0 (Z.le_refl 0) Hv) as E.
  rewrite Z.pow_0_r, Z.mul_1_r in E. exact E.
Qed.

Lemma canon_value a :
  Zpos a < 2 ^ 53 ->
  Z.shiftl (Zpos (shl a (53 - Zpos (digits2_pos a)))) (Zpos (digits2_pos a) - 53) = Zpos a.
Proof.
  intro Ha. pose proof (digits_bound a Ha) as Hd.
  remember (Zpos (digits2_pos a)) as D eqn:ED.
  rewrite shl_mul by lia.
  replace (D - 53) with (- (53 - D)) by lia.
  rewrite Z.shiftl_opp_r, Z.shiftr_div_pow2 by lia.
  apply Z.div_mul. apply Z.pow_nonzero; lia.
Qed.

Lemma fst_shl_align m e ez :
  ez <= e -> Zpos (fst (shl_align m e ez)) = Zpos m * 2 ^ (e - ez).
Proof.
  intro H. unfold shl_align.
  destruct (ez - e) as [|d|d] eqn:E; cbn [fst].
  - replace (e - ez) with 0 by lia. rewrite Z.pow_0_r. lia.
  - lia.
  - rewrite iter_xO_mul. f_equal. f_equal. lia.
Qed.

Lemma canon_pos_value s a :
  Zpos a < 2 ^ 53 ->
  exists m e, canon_pos s a = S754_finite s m e /\ e <= 0 /\ -52 <= e /\
              Zpos m = Zpos a * 2 ^ (- e).
Proof.
  intro Ha. pose proof (digits_bound a Ha) as Hd.
  exists (shl a (53 - Zpos (digits2_pos a))), (Zpos (digits2_pos a) - 53).
  repeat split; try lia.
  rewrite shl_mul by lia. f_equal. f_equal. lia.
Qed.

Lemma cond_Zopp_mul s m k : cond_Zopp s m * k = cond_Zopp s (m * k).
Proof. destruct s; simpl; lia. Qed.

Lemma add_exact u v :
  Z.abs u < 2 ^ 53 -> Z.abs v < 2 ^ 53 -> Z.abs (u + v) < 2 ^ 53 ->
  SFadd prec emax (canon_int u) (canon_int v) = canon_int (u + v).
Proof.
  intros Hu Hv Huv.
  assert (Hfin : forall su a sv b,
             Zpos a < 2 ^ 53 -> Zpos b < 2 ^ 53 ->
             Z.abs (cond_Zopp su (Zpos a) + cond_Zopp sv (Zpos b)) < 2 ^ 53 ->
             SFadd prec emax (canon_pos su a) (canon_pos sv b)
             = canon_int (cond_Zopp su (Zpos a) + cond_Zopp sv (Zpos b))).
  { intros su a sv b Ha Hb Hab.
    destruct (canon_pos_value su a Ha) as (ma & ea & -> & Hea & Hea' & Hma).
    destruct (canon_pos_value sv b Hb) as (mb & eb & -> & Heb & Heb' & Hmb).
    cbn [SFadd].
    rewrite !fst_shl_align by lia. rewrite Hma, Hmb.
    set (ez := Z.min ea eb).
    replace (Zpos a * 2 ^ (- ea) * 2 ^ (ea - ez)) with (Zpos a * 2 ^ (- ez))
      by (rewrite <- Z.mul_assoc, <- Z.pow_add_r by lia; f_equal; f_equal; lia).
    replace (Zpos b * 2 ^ (- eb) * 2 ^ (eb - ez)) with (Zpos b * 2 ^ (- ez))
      by (rewrite <- Z.mul_assoc, <- Z.pow_add_r by lia; f_equal; f_equal; lia).
    rewrite <- !cond_Zopp_mul, <- Z.mul_add_distr_r.
    replace ez with (- (- ez)) at 2 by lia.
    apply normalize_exact; [lia | assumption]. }
  destruct u as [|a|a], v as [|b|b]; try reflexivity.
  - apply (Hfin false a false b); assumption.
  - apply (Hfin false a true b); assumption.
  - apply (Hfin true a false b); assumption.
  - apply (Hfin true a true b); assumption.
Qed.

Lemma sub_exact u v :
  Z.abs u < 2 ^ 53 -> Z.abs v < 2 ^ 53 -> Z.abs (u - v) < 2 ^ 53 ->
  SFsub prec emax (canon_int u) (canon_int v) = canon_int (u - v).
Proof.
  intros Hu Hv Huv.
  assert (Hfin : forall su a sv b,
             Zpos a < 2 ^ 53 -> Zpos b < 2 ^ 53 ->
             Z.abs (cond_Zopp su (Zpos a) - cond_Zopp sv (Zpos b)) < 2 ^ 53 ->
             SFsub prec emax (canon_pos su a) (canon_pos sv b)
             = canon_int (cond_Zopp su (Zpos a) - cond_Zopp sv (Zpos b))).
  { intros su a sv b Ha Hb Hab.
    destruct (canon_pos_value su a Ha) as (ma & ea & -> & Hea & Hea' & Hma).
    destruct (canon_pos_value sv b Hb) as (mb & eb & -> & Heb & Heb' & Hmb).
    cbn [SFsub].
    rewrite !fst_shl_align by lia. rewrite Hma, Hmb.
    set (ez := Z.min ea eb).
    replace (Zpos a * 2 ^ (- ea) * 2 ^ (ea - ez)) with (Zpos a * 2 ^ (- ez))
      by (rewrite <- Z.mul_assoc, <- Z.pow_add_r by lia; f_equal; f_equal; lia).
    replace (Zpos b * 2 ^ (- eb) * 2 ^ (eb - ez)) with (Zpos b * 2 ^ (- ez))
      by (rewrite <- Z.mul_assoc, <- Z.pow_add_r by lia; f_equal; f_equal; lia).
    rewrite <- !cond_Zopp_mul, <- Z.mul_sub_distr_r.
    replace ez with (- (- ez)) at 2 by lia.
    apply normalize_exact; [lia | assumption]. }
  destruct u as [|a|a], v as [|b|b]; try reflexivity.
  - apply (Hfin false a false b); assumption.
  - apply (Hfin false a true b); assumption.
  - apply (Hfin true a false b); assumption.
  - apply (Hfin true a true b); assumption.
Qed.

Lemma trunc_canon v : Z.abs v < 2 ^ 53 -> b64_trunc (canon_int v) = Ok v.
Proof.
  intro Hv. destruct v as [|a|a]; [reflexivity| |];
    cbn [canon_int canon_pos b64_trunc cond_Zopp];
    rewrite canon_value by exact Hv; reflexivity.
Qed.

Lemma b64_of_int_exact v :
  Z.abs v < 2 ^ 53 -> b64_of_int v = Ok (canon_int v).
Proof.
  intro Hv. unfold b64_of_int. rewrite of_int_exact by exact Hv.
  destruct v; reflexivity.
Qed.

End Binary64Facts.

(* ===================================================================== *)
(** ** ele.py: the coordinate mapper *)
(* ===================================================================== *)

Section CoordinateMapper.
Import Binary64Facts.

Lemma to_screen_int (x y : Z) :
  Z.abs x < 2 ^ 53 - 450 -> Z.abs y < 2 ^ 53 - 300 ->
  Ele.to_screen (F := b64) (Int x) (Int y) = Ok (450 + x, 300 - y).
Proof.
  intros Hx Hy. unfold Ele.to_screen.
  cbn [int_truediv of_int float_of fadd fsub ftrunc b64_float].
  change (b64_int_truediv Ele.WIDTH 2) with (Ok (canon_int 450)).
  change (b64_int_truediv Ele.HEIGHT 2) with (Ok (canon_int 300)).
  cbn [Py.bind].
  rewrite (b64_of_int_exact x) by lia. cbn [Py.bind].
  rewrite add_exact by (change (Z.abs 450) with 450; lia).
  rewrite trunc_canon by lia. cbn [Py.bind].
  rewrite (b64_of_int_exact y) by lia. cbn [Py.bind].
  rewrite sub_exact by (change (Z.abs 300) with 300; lia).
  rewrite trunc_canon by lia. reflexivity.
Qed.

(** C1 (binary64, the arithmetic the program runs on): for all integers
    [x], [y] with |x| < 2^53 - 450 and |y| < 2^53 - 300, [to_screen]
    returns without raising and [to_math] applied to its result gives
    back exactly [(x, y)]. *)
Theorem to_math_inverts_to_screen (x y : Z) :
  Z.abs x < 2 ^ 53 - 450 -> Z.abs y < 2 ^ 53 - 300 ->
  Ele.round_trip (F := b64) x y = Ok (x, y).
Proof.
  intros Hx Hy. unfold Ele.round_trip.
  rewrite to_screen_int by assumption.
  cbn [Py.bind fst snd]. unfold Ele.to_math.
  change (Ele.WIDTH / 2) with 450. change (Ele.HEIGHT / 2) with 300.
  f_equal. f_equal; lia.
Qed.

Lemma to_math_inverts_to_screen_witness :
  Z.abs (-120) < 2 ^ 53 - 450 /\ Z.abs (-80) < 2 ^ 53 - 300 /\
  Ele.round_trip (F := b64) (-120) (-80) = Ok (-120, -80).
Proof.
  split; [reflexivity | split; [reflexivity | ]].
  apply (to_math_inverts_to_screen (-120) (-80)); reflexivity.
Defined.

(** C1 as stated fails beyond 53 bits: [WIDTH / 2 + x] is a float sum,
    and 2^53 + 1 is not a binary64 value.  The conversion rounds it to
    2^53, so the round trip returns [(2^53, 0)]. *)
Lemma round_trip_loses_large_int :
  Ele.round_trip (F := b64) (2 ^ 53 + 1) 0 <> Ok (2 ^ 53 + 1, 0).
Proof. vm_compute. discriminate. Qed.

Example round_trip_large_int_value :
  Ele.round_trip (F := b64) (2 ^ 53 + 1) 0 = Ok (2 ^ 53, 0).
Proof. vm_compute. reflexivity. Qed.

(** Beyond the range of binary64 the conversion raises, so [to_screen]
    is not total on Python ints. *)
Example to_screen_overflow :
  Ele.to_screen (F := b64) (Int (2 ^ 1024)) (Int 0) = Raise OverflowError.
Proof. vm_compute. reflexivity. Qed.

End CoordinateMapper.

(* ===================================================================== *)
(** ** ele.py: the point dictionary, dragging and reset *)
(* ===================================================================== *)

Section Points.
Import Ele.

Lemma dict_get_set_same k v d : dict_get k (dict_set k v d) = Some v.
Proof.
  induction d as [|[k' v'] d IH]; cbn [dict_set dict_get].
  - now rewrite String.eqb_refl.
  - destruct (String.eqb k k') eqn:E; cbn [dict_get]; rewrite E; auto.
Qed.

Lemma dict_get_set_other n k v d :
  n <> k -> dict_get n (dict_set k v d) = dict_get n d.
Proof.
  intro Hn. induction d as [|[k' v'] d IH]; cbn [dict_set dict_get].
  - destruct (String.eqb_spec n k); [contradiction | reflexivity].
  - destruct (String.eqb_spec k k') as [->|Hk]; cbn [dict_get].
    + destruct (String.eqb_spec n k'); [contradiction | reflexivity].
    + now rewrite IH.
Qed.

(** Assigning to a key the dict already has leaves the keys and their
    order as they are. *)
Lemma dict_set_keys k v d :
  In k (map fst d) -> map fst (dict_set k v d) = map fst d.
Proof.
  induction d as [|[k' v'] d IH]; cbn [dict_set map fst In]; [tauto|].
  intros [->|Hin].
  - now rewrite String.eqb_refl.
  - destruct (String.eqb k k'); cbn [map fst]; [reflexivity|].
    now rewrite IH.
Qed.

Context {F : Type} `{PyFloat F}.

(** C7: a call of [handle_mouse] made while a point is being dragged
    returns normally, and the value stored under every name other than
    the dragged one is the same after the call as before it. *)
Theorem drag_moves_only_dragged_point
        (st : GeometryViz F) (mp : Z * Z) (pressed : bool) (d : string) :
  dragging st = Some d ->
  exists st', handle_mouse st mp pressed = Ok st' /\
              forall n, n <> d ->
                        dict_get n (points st') = dict_get n (points st).
Proof.
  intro Hd. unfold handle_mouse. rewrite Hd.
  destruct pressed; eexists; (split; [reflexivity|]); intros n Hn;
    cbn [points set_points set_dragging].
  - now apply dict_get_set_other.
  - reflexivity.
Qed.

(** While no point is dragged, [handle_mouse] does not assign to
    [self.points] at all. *)
Lemma handle_mouse_idle (st st' : GeometryViz F) mp pressed :
  dragging st = None -> handle_mouse st mp pressed = Ok st' ->
  points st' = points st.
Proof.
  intros Hd. unfold handle_mouse. rewrite Hd. destruct pressed.
  - destruct (hit_test mp (points st)) as [[[name off]|]|e];
      cbn [Py.bind]; intro E; inversion E; reflexivity.
  - intro E; inversion E; reflexivity.
Qed.

Lemma events_keep_default_points (evs : list event) (sr : GeometryViz F * bool) :
  points (fst sr) = default_points ->
  points (fst (fold_left handle_event evs sr)) = default_points.
Proof.
  revert sr. induction evs as [|ev evs IH]; intros sr Hsr; [exact Hsr|].
  cbn [fold_left]. apply IH.
  destruct sr as [st r], ev as [|[]|]; cbn [handle_event fst] in *;
    try exact Hsr; reflexivity.
Qed.

(** C9: the branch of the event loop for [K_r] assigns the default
    mapping to [self.points] whatever the state was; and an event loop in
    which [K_r] occurs leaves [self.points] equal to that mapping,
    whatever the state it started from and whatever the other events. *)
Theorem reset_restores_default_points (st : GeometryViz F) (running : bool) :
  points (fst (handle_event (st, running) (KEYDOWN K_r)))
  = [ ("A"%string, (-120, -80)); ("B"%string, (150, 120));
      ("C"%string, (-80, 150)); ("D"%string, (120, -120)) ] /\
  forall evs evs' : list event,
    points (fst (fold_left handle_event (evs ++ KEYDOWN K_r :: evs')
                           (st, running)))
    = [ ("A"%string, (-120, -80)); ("B"%string, (150, 120));
        ("C"%string, (-80, 150)); ("D"%string, (120, -120)) ].
Proof.
  split; [reflexivity|]. intros evs evs'.
  rewrite fold_left_app. cbn [fold_left].
  apply events_keep_default_points.
  destruct (fold_left handle_event evs (st, running)) as [st1 r1].
  reflexivity.
Qed.

End Points.

Lemma drag_moves_only_dragged_point_witness :
  let st := Ele.set_dragging (F := b64) Ele.init (Some "A"%string) (3, -2) in
  Ele.dragging st = Some "A"%string /\
  exists st', Ele.handle_mouse st (400, 300) true = Ok st' /\
              forall n, n <> "A"%string ->
                        Ele.dict_get n (Ele.points st')
                        = Ele.dict_get n (Ele.points st).
Proof.
  split; [reflexivity|].
  apply (drag_moves_only_dragged_point
           (Ele.set_dragging (F := b64) Ele.init (Some "A"%string) (3, -2))
           (400, 300) true "A"%string).
  reflexivity.
Defined.

Example drag_example :
  Py.bind (Ele.handle_mouse
             (Ele.set_dragging (F := b64) Ele.init (Some "A"%string) (3, -2))
             (400, 300) true)
          (fun st' => Ok (Ele.points st'))
  = Ok [ ("A"%string, (-53, -2)); ("B"%string, (150, 120));
         ("C"%string, (-80, 150)); ("D"%string, (120, -120)) ].
Proof. vm_compute. reflexivity. Qed.

(* ===================================================================== *)
(** ** ℝ²confusion.py: the finite-field lattice *)
(* ===================================================================== *)

Section FiniteField.
Import Confusion.

(** C6: a lattice point is emitted exactly when it lies on the
    enumerated 5 x 5 grid and [(x*x + y*y) % 11 == (radius // 10) % 11];
    so every emitted point satisfies the equation and no grid point that
    violates it is emitted. *)
Theorem finite_field_points_spec (radius x y : Z) :
  In (x, y) (finite_field_points radius) <->
  In x range_m2_3 /\ In y range_m2_3 /\
  (x * x + y * y) mod 11 = (radius / 10) mod 11.
Proof.
  unfold finite_field_points. rewrite in_flat_map. split.
  - intros (x' & Hx' & Hin). apply in_flat_map in Hin.
    destruct Hin as (y' & Hy' & Hin).
    destruct (Z.eqb_spec ((x' * x' + y' * y') mod 11) ((radius / 10) mod 11))
      as [E|E]; [|contradiction].
    destruct Hin as [Hin|[]]. inversion Hin; subst. auto.
  - intros (Hx & Hy & E). exists x. split; [assumption|].
    apply in_flat_map. exists y. split; [assumption|].
    rewrite E, Z.eqb_refl. now left.
Qed.

(** With the radius [__init__] sets, the target is 8 and four points
    pass. *)
Example finite_field_points_80 :
  finite_field_points 80 = [(-2, -2); (-2, 2); (2, -2); (2, 2)].
Proof. reflexivity. Qed.

(** The circles drawn are centred on the images of those points. *)
Lemma finite_field_screen_spec {F : Type} `{PyFloat F} radius ox oy :
  finite_field_screen radius ox oy
  = Ok (map (fun p => (WIDTH / 2 + ox + fst p * 15,
                       HEIGHT / 2 + oy - snd p * 15))
            (finite_field_points radius)).
Proof.
  unfold finite_field_screen.
  induction (finite_field_points radius) as [|p l IH]; [reflexivity|].
  cbn [mapM map]. rewrite IH. reflexivity.
Qed.

End FiniteField.

(* ===================================================================== *)
(** ** ele.py: the perpendicular bisector *)
(* ===================================================================== *)

Section Bisector.
Import Ele.


Lemma no_zero_division_bind {A B : Type} (c : result A) (k : A -> result B) :
  no_zero_division c ->
  (forall a, c = Ok a -> no_zero_division (k a)) ->
  no_zero_division (Py.bind c k).
Proof.
  unfold no_zero_division. intros Hc Hk.
  destruct c as [a|e]; cbn [Py.bind]; [now apply Hk|].
  intro E. apply Hc. inversion E. reflexivity.
Qed.

Lemma b64_of_int_no_zd n : no_zero_division (b64_of_int n).
Proof.
  unfold no_zero_division, b64_of_int.
  destruct (is_inf _); discriminate.
Qed.

Lemma b64_half_no_zd n : no_zero_division (b64_int_truediv n 2).
Proof.
  unfold no_zero_division, b64_int_truediv.
  destruct n; try discriminate;
    destruct (SFdiv_core_binary _ _ _ _ _ _) as [[mz ez] lz];
    destruct (is_inf _); discriminate.
Qed.

Lemma b64_sqrt_no_zd x : no_zero_division (b64_sqrt x).
Proof.
  unfold no_zero_division.
  destruct x as [s|s| |s m e]; try destruct s; discriminate.
Qed.

Lemma b64_div_guarded x z length :
  b64_of_int 0 = Ok z -> SFltb z length = true ->
  b64_div x length = Ok (SFdiv prec emax x length).
Proof.
  intros Hz Hlt. inversion Hz; subst z.
  unfold b64_div. destruct length as [s|s| |s m e]; try reflexivity.
  discriminate Hlt.
Qed.

Lemma bisector_no_zd_b64 (A B : point) :
  no_zero_division (perp_bisector (F := b64) A B).
Proof.
  unfold perp_bisector.
  cbn [int_truediv of_int fsqrt fltb fdiv fmul fadd fsub b64_float].
  apply no_zero_division_bind; [apply b64_half_no_zd | intros mid_x _].
  apply no_zero_division_bind; [apply b64_half_no_zd | intros mid_y _].
  apply no_zero_division_bind; [apply b64_of_int_no_zd | intros sq _].
  apply no_zero_division_bind; [apply b64_sqrt_no_zd | intros length _].
  apply no_zero_division_bind; [apply b64_of_int_no_zd | intros z Hz].
  destruct (SFltb z length) eqn:Hlt; [|discriminate].
  apply no_zero_division_bind; [apply b64_of_int_no_zd | intros ndy _].
  rewrite (b64_div_guarded ndy z length Hz Hlt). cbn [Py.bind].
  apply no_zero_division_bind; [apply b64_of_int_no_zd | intros c1 _].
  apply no_zero_division_bind; [apply b64_of_int_no_zd | intros fdx _].
  rewrite (b64_div_guarded fdx z length Hz Hlt). cbn [Py.bind].
  apply no_zero_division_bind; [apply b64_of_int_no_zd | intros c2 _].
  discriminate.
Qed.

Lemma b64_half_cases n :
  (exists f, b64_int_truediv n 2 = Ok f) \/
  b64_int_truediv n 2 = Raise OverflowError.
Proof.
  unfold b64_int_truediv.
  destruct n; [left; eexists; reflexivity| |];
    destruct (SFdiv_core_binary _ _ _ _ _ _) as [[mz ez] lz];
    destruct (is_inf _); [right; reflexivity | left; eexists; reflexivity
                         | right; reflexivity | left; eexists; reflexivity].
Qed.

Lemma bisector_degenerate_b64 (A : point) :
  perp_bisector (F := b64) A A = Ok None \/
  perp_bisector (F := b64) A A = Raise OverflowError.
Proof.
  unfold perp_bisector.
  cbn [int_truediv of_int fsqrt fltb fdiv fmul fadd fsub b64_float].
  rewrite !Z.sub_diag.
  destruct (b64_half_cases (fst A + fst A)) as [[mx ->]| ->];
    cbn [Py.bind]; [|now right].
  destruct (b64_half_cases (snd A + snd A)) as [[my ->]| ->];
    cbn [Py.bind]; [|now right].
  left. reflexivity.
Qed.

Lemma squares_pos (A B : point) :
  A <> B ->
  0 < (fst B - fst A) * (fst B - fst A) + (snd B - snd A) * (snd B - snd A).
Proof.
  destruct A as [ax ay], B as [bx b_y]. cbn [fst snd]. intro Hne.
  assert (bx - ax <> 0 \/ b_y - ay <> 0) as [Hx|Hy].
  { destruct (Z.eq_dec ax bx) as [->|]; [|left; lia].
    destruct (Z.eq_dec ay b_y) as [->|]; [now elim Hne | right; lia]. }
  - pose proof (Z.square_nonneg (b_y - ay)).
    assert (0 < (bx - ax) * (bx - ax)) by
      (destruct (Z.lt_total (bx - ax) 0) as [|[|]]; [nia | contradiction | nia]).
    lia.
  - pose proof (Z.square_nonneg (bx - ax)).
    assert (0 < (b_y - ay) * (b_y - ay)) by
      (destruct (Z.lt_total (b_y - ay) 0) as [|[|]]; [nia | contradiction | nia]).
    lia.
Qed.

Open Scope R_scope.


Lemma R_div_nonzero x y : y <> 0 -> R_div x y = Ok (x / y).
Proof. intro Hy. unfold R_div. destruct (Req_dec_T y 0); [contradiction | reflexivity]. Qed.

Lemma R_sqrt_nonneg x : 0 <= x -> R_sqrt x = Ok (sqrt x).
Proof. intro Hx. unfold R_sqrt. destruct (Rlt_dec x 0); [lra | reflexivity]. Qed.

Lemma R_ltb_true x y : x < y -> R_ltb x y = true.
Proof. intro Hx. unfold R_ltb. destruct (Rlt_dec x y); [reflexivity | contradiction]. Qed.

Lemma R_ltb_false x y : ~ x < y -> R_ltb x y = false.
Proof. intro Hx. unfold R_ltb. destruct (Rlt_dec x y); [contradiction | reflexivity]. Qed.

Lemma bisector_length_pos (A B : point) :
  A <> B ->
  0 < sqrt (IZR ((fst B - fst A) * (fst B - fst A)
                 + (snd B - snd A) * (snd B - snd A))).
Proof.
  intro Hne. apply sqrt_lt_R0. apply IZR_lt. now apply squares_pos.
Qed.

Lemma perp_bisector_R (A B : point) :
  A <> B -> perp_bisector (F := R) A B = Ok (Some (bisector_R A B)).
Proof.
  intro Hne. pose proof (bisector_length_pos A B Hne) as HL.
  pose proof (squares_pos A B Hne) as Hsq. apply IZR_lt in Hsq.
  unfold perp_bisector, bisector_R.
  cbn [int_truediv of_int fsqrt fltb fdiv fmul fadd fsub R_float Py.bind].
  unfold R_int_truediv. cbn [Z.eqb Py.bind].
  rewrite R_sqrt_nonneg by lra. cbn [Py.bind].
  rewrite R_ltb_true by exact HL.
  rewrite !R_div_nonzero by lra. cbn [Py.bind]. reflexivity.
Qed.

Lemma perp_bisector_R_degenerate (A : point) :
  perp_bisector (F := R) A A = Ok None.
Proof.
  unfold perp_bisector.
  cbn [int_truediv of_int fsqrt fltb fdiv fmul fadd fsub R_float Py.bind].
  unfold R_int_truediv. cbn [Z.eqb Py.bind].
  rewrite !Z.sub_diag. cbn [Z.mul Z.add].
  rewrite R_sqrt_nonneg by lra. cbn [Py.bind].
  rewrite sqrt_0, R_ltb_false by lra. reflexivity.
Qed.

Lemma bisector_no_zd_R (A B : point) :
  no_zero_division (perp_bisector (F := R) A B).
Proof.
  assert (Hdec : A = B \/ A <> B).
  { destruct A as [ax ay], B as [bx b_y].
    destruct (Z.eq_dec ax bx) as [->|]; [|right; congruence].
    destruct (Z.eq_dec ay b_y) as [->|]; [now left | right; congruence]. }
  destruct Hdec as [->|Hne].
  - rewrite perp_bisector_R_degenerate. discriminate.
  - rewrite perp_bisector_R by exact Hne. discriminate.
Qed.

(** C8: for every pair of points the bisector block ends without
    [ZeroDivisionError], in binary64 and over the reals; and when the two
    points coincide it returns no segment ([None], the guard [length > 0]
    being false), short of the overflow of [float(n)] on ints beyond the
    binary64 range. *)
Theorem bisector_guards_division :
  (forall A B : point,
      perp_bisector (F := b64) A B <> Raise ZeroDivisionError) /\
  (forall A : point,
      perp_bisector (F := b64) A A = Ok None \/
      perp_bisector (F := b64) A A = Raise OverflowError) /\
  (forall A B : point,
      perp_bisector (F := R) A B <> Raise ZeroDivisionError) /\
  (forall A : point, perp_bisector (F := R) A A = Ok None).
Proof.
  split; [exact bisector_no_zd_b64|].
  split; [exact bisector_degenerate_b64|].
  split; [exact bisector_no_zd_R | exact perp_bisector_R_degenerate].
Qed.

Example bisector_degenerate_default :
  perp_bisector (F := b64) (-120, -80)%Z (-120, -80)%Z = Ok None.
Proof. vm_compute. reflexivity. Qed.

(** C3 (exact real arithmetic): for A <> B the block returns a segment;
    its direction [(perp_dx, perp_dy)], and the vector from one end of the
    segment to the other, have dot product exactly 0 with B - A; and the
    midpoint of the segment is exactly the midpoint of A and B. *)
Theorem bisector_orthogonal_through_midpoint (A B : point) :
  A <> B ->
  exists b : bisector R,
    perp_bisector (F := R) A B = Ok (Some b) /\
    dot (perp b) (fst B - fst A, snd B - snd A)%Z = Ok 0 /\
    dot (direction b) (fst B - fst A, snd B - snd A)%Z = Ok 0 /\
    midpoint (perp_start b) (perp_end b)
    = Ok ((IZR (fst A) + IZR (fst B)) / 2, (IZR (snd A) + IZR (snd B)) / 2).
Proof.
  intro Hne. exists (bisector_R A B).
  split; [now apply perp_bisector_R|].
  pose proof (bisector_length_pos A B Hne) as HL.
  unfold dot, midpoint, direction, bisector_R.
  cbn [of_int fadd fsub fmul fdiv R_float Py.bind fst snd
       perp perp_start perp_end].
  rewrite !R_div_nonzero by lra. cbn [Py.bind].
  set (L := sqrt _) in *.
  rewrite !opp_IZR, !plus_IZR.
  assert (HL0 : L <> 0) by lra.
  split; [f_equal; field; exact HL0|].
  split; [f_equal; field; exact HL0|].
  f_equal. f_equal; field; exact HL0.
Qed.

Lemma bisector_orthogonal_through_midpoint_witness :
  (-120, -80)%Z <> (150, 120)%Z /\
  exists b : bisector R,
    perp_bisector (F := R) (-120, -80)%Z (150, 120)%Z = Ok (Some b) /\
    dot (perp b) (270, 200)%Z = Ok 0 /\
    dot (direction b) (270, 200)%Z = Ok 0 /\
    midpoint (perp_start b) (perp_end b)
    = Ok ((IZR (-120) + IZR 150) / 2, (IZR (-80) + IZR 120) / 2).
Proof.
  split; [discriminate|].
  apply (bisector_orthogonal_through_midpoint (-120, -80)%Z (150, 120)%Z).
  discriminate.
Defined.

Close Scope R_scope.

(** C3 as stated fails in the arithmetic the program runs on.  At the
    points [__init__] sets, [perp_dx * 270 + perp_dy * 200] evaluates in
    binary64 to -2^-39, and the dot product of the two floats taken
    without rounding is -5/2^44. *)
Lemma bisector_dot_nonzero_binary64 :
  exists (b : bisector b64) (d : b64),
    perp_bisector (F := b64) (-120, -80) (150, 120) = Ok (Some b) /\
    dot (perp b) (150 - -120, 120 - -80) = Ok d /\
    SFeqb d zero = false /\
    exact_dot (perp b) (150 - -120, 120 - -80) = Some (-5 # 17592186044416)%Q.
Proof.
  eexists. eexists.
  split; [vm_compute; reflexivity|].
  split; [vm_compute; reflexivity|].
  split; vm_compute; reflexivity.
Qed.

End Bisector.

(* ===================================================================== *)
(** ** ℝ²confusion.py: the 4D slices *)
(* ===================================================================== *)

Section Slices.
Import Confusion.


Open Scope R_scope.



(** At the initial state and the ends of the sampled range the binary64
    value is the float nearest to sqrt(|6400 - 0 - 2500|). *)
Example y_val_at_fifty :
  Py.bind (of_int (F := b64) 50) (y_val 80 zero)
  = Ok (S754_finite false 8789053330786412 (-47)).
Proof. vm_compute. reflexivity. Qed.

(** The absolute value is what keeps [math.sqrt] in its domain: inside
    the circle the radicand is positive, outside it is negative. *)
Example radicand_negative_outside :
  IZR 80 * IZR 80 - 0 * 0 - 100 * 100 < 0.
Proof. lra. Qed.

Close Scope R_scope.

(** One pass of the sampling loop emits two centres or, when something
    raises, none. *)
Lemma slice_sample_length {F : Type} `{PyFloat F} radius (s : F) ox oy x :
  List.length (slice_sample radius s ox oy x) = 2%nat \/
  slice_sample radius s ox oy x = [].
Proof.
  unfold slice_sample.
  destruct (y_val radius s x) as [y|e]; cbn [Py.bind try_pass]; [|now right].
  destruct (to_screen (Float x) (Float y) ox oy) as [p|e];
    cbn [Py.bind try_pass]; [|now right].
  destruct (to_screen (Float x) (Float (fneg y)) ox oy) as [q|e];
    cbn [Py.bind try_pass]; [now left | now right].
Qed.

End Slices.

(* ===================================================================== *)
(** ** ℝ²confusion.py: the complex curve *)
(* ===================================================================== *)

Section ComplexCurve.
Import Numpy Confusion.

Lemma mapM_total {A B : Type} (f : A -> result B) (g : A -> B) (l : list A) :
  (forall a, In a l -> f a = Ok (g a)) -> mapM f l = Ok (map g l).
Proof.
  induction l as [|a l IH]; intro Hf; [reflexivity|].
  cbn [mapM map]. rewrite (Hf a) by now left.
  rewrite IH by (intros; apply Hf; now right). reflexivity.
Qed.

Lemma map_list_prod {A B C : Type} (g : A -> B -> C) (l : list A) (l' : list B) :
  map (fun p => g (fst p) (snd p)) (list_prod l l')
  = List.concat (map (fun a => map (g a) l') l).
Proof.
  induction l as [|a l IH]; [reflexivity|].
  cbn [list_prod map List.concat].
  rewrite map_app, map_map, IH. reflexivity.
Qed.

Open Scope R_scope.


Lemma linspace_exact (a b : R) (n : nat) :
  (2 <= n)%nat -> linspace (F := R) a b n = Ok (linspace_R a b n).
Proof.
  intro Hn. destruct n as [|[|m]]; try lia.
  unfold linspace, linspace_R.
  cbn [of_int fdiv fsub fadd fmul R_float Py.bind].
  replace (S (S m) - 1)%nat with (S m) by lia.
  rewrite R_div_nonzero.
  - cbn [Py.bind]. apply mapM_total. intros i _.
    destruct (Nat.eqb i (S m)); reflexivity.
  - apply not_0_IZR. lia.
Qed.

Lemma linspace_R_length a b n : List.length (linspace_R a b n) = n.
Proof. unfold linspace_R. now rewrite length_map, length_seq. Qed.

Lemma linspace_R_range (a b : R) (n : nat) :
  a <= b -> Forall (fun v => a <= v <= b) (linspace_R a b n).
Proof.
  intro Hab. apply Forall_forall. intros v Hv.
  unfold linspace_R in Hv. apply in_map_iff in Hv.
  destruct Hv as (i & <- & Hi). apply in_seq in Hi.
  destruct (Nat.eqb_spec i (n - 1)) as [_|Hne]; [lra|].
  assert (Hi' : (i < n - 1)%nat) by lia.
  assert (Hd : 0 < IZR (Z.of_nat (n - 1))) by (apply IZR_lt; lia).
  assert (H0 : 0 <= IZR (Z.of_nat i)) by (apply IZR_le; lia).
  assert (H1 : IZR (Z.of_nat i) <= IZR (Z.of_nat (n - 1)))
    by (apply IZR_le; lia).
  set (d := IZR (Z.of_nat (n - 1))) in *.
  set (k := IZR (Z.of_nat i)) in *.
  assert (Hq : 0 <= (b - a) / d).
  { apply Rmult_le_pos; [lra | apply Rlt_le, Rinv_0_lt_compat, Hd]. }
  split.
  - pose proof (Rmult_le_pos _ _ H0 Hq). lra.
  - assert (k * ((b - a) / d) <= d * ((b - a) / d))
      by (apply Rmult_le_compat_r; assumption).
    replace (d * ((b - a) / d)) with (b - a) in * by (field; lra). lra.
Qed.


Lemma solution_exact r t c : solution (F := R) r t c = Ok (solution_R r t c).
Proof. reflexivity. Qed.

Lemma cosh2_minus_sinh2 x : cosh x * cosh x - sinh x * sinh x = 1.
Proof.
  unfold cosh, sinh.
  assert (E : exp x * exp (- x) = 1)
    by (rewrite <- exp_plus, Rplus_opp_r; apply exp_0).
  set (a := exp x) in *. set (b := exp (- x)) in *.
  replace ((a + b) / 2 * ((a + b) / 2) - (a - b) / 2 * ((a - b) / 2))
    with (a * b) by field.
  exact E.
Qed.

Lemma solution_on_curve r t c :
  let zz := solution_R r t c in
  cadd (cmul (fst zz) (fst zz)) (cmul (snd zz) (snd zz))
  = (IZR r * IZR r, 0).
Proof.
  pose proof (sin2_cos2 t) as Ht. unfold Rsqr in Ht.
  pose proof (cosh2_minus_sinh2 c) as Hc.
  unfold solution_R, cadd, cmul.
  cbn [fst snd fadd fsub fmul R_float].
  set (S := sin t) in *. set (C := cos t) in *.
  set (ch := cosh c) in *. set (sh := sinh c) in *.
  f_equal.
  - transitivity (IZR r * IZR r * ((S * S + C * C) * (ch * ch - sh * sh)));
      [field | rewrite Ht, Hc; ring].
  - field.
Qed.

Lemma solution_R_parts (r : Z) (t c : R) :
  solution_R r t c
  = ((IZR r * (cos t * cosh c), IZR r * (- sin t * sinh c)),
     (IZR r * (sin t * cosh c), IZR r * (cos t * sinh c))).
Proof.
  unfold solution_R, cmul. cbn [fst snd fsub fadd fmul R_float].
  f_equal; f_equal; field.
Qed.

Lemma real_grid :
  linspace_R (IZR 0) (IZR 2 * PI) 40
  = map (fun i => IZR (Z.of_nat i) * (2 * PI / 39)) (seq 0 40).
Proof.
  unfold linspace_R. apply map_ext_in. intros i Hi. apply in_seq in Hi.
  change (40 - 1)%nat with 39%nat. change (Z.of_nat 39) with 39%Z.
  destruct (Nat.eqb_spec i 39) as [->|_].
  - change (Z.of_nat 39) with 39%Z. field.
  - field.
Qed.

Lemma imaginary_grid :
  linspace_R (- (IZR 5 / IZR 10)) (IZR 5 / IZR 10) 5
  = [- (1 / 2); - (1 / 4); 0; 1 / 4; 1 / 2].
Proof.
  unfold linspace_R.
  cbn [seq map Nat.eqb Nat.sub Z.of_nat Pos.of_succ_nat Pos.succ].
  repeat (apply (f_equal2 cons); [lra|]). reflexivity.
Qed.

(** C5: over the reals the sampler returns 200 pairs, one for each point
    of the grid of 40 real parts by 5 imaginary parts, taken row by row:
    the real parts are [i · 2π/39] for [i = 0 .. 39], from 0 to 2π, the
    imaginary parts are -1/2, -1/4, 0, 1/4 and 1/2, and the pair at
    [(t, c)] is [z1 = r·(cos t·cosh c - i·sin t·sinh c)],
    [z2 = r·(sin t·cosh c + i·cos t·sinh c)]; every pair satisfies
    z1² + z2² = r² as an equation between complex numbers. *)
Theorem complex_circle_solutions_on_curve (r : Z) :
  exists (ts cs : list R) (sols : list (complex R * complex R)),
    real_ts (F := R) = Ok ts /\
    complex_params (F := R) = Ok cs /\
    complex_circle_solutions (F := R) r = Ok sols /\
    ts = map (fun i => IZR (Z.of_nat i) * (2 * PI / 39)) (seq 0 40) /\
    cs = [- (1 / 2); - (1 / 4); 0; 1 / 4; 1 / 2] /\
    sols = map (fun tc =>
                  ((IZR r * (cos (fst tc) * cosh (snd tc)),
                    IZR r * (- sin (fst tc) * sinh (snd tc))),
                   (IZR r * (sin (fst tc) * cosh (snd tc)),
                    IZR r * (cos (fst tc) * sinh (snd tc)))))
               (list_prod ts cs) /\
    List.length ts = 40%nat /\ List.length cs = 5%nat /\
    Forall (fun t => 0 <= t <= 2 * PI) ts /\
    Forall (fun c => - (1 / 2) <= c <= 1 / 2) cs /\
    mapM (fun tc => solution r (fst tc) (snd tc)) (list_prod ts cs) = Ok sols /\
    List.length sols = 200%nat /\
    Forall (fun zz => cadd (cmul (fst zz) (fst zz)) (cmul (snd zz) (snd zz))
                      = (IZR r * IZR r, 0)) sols.
Proof.
  set (ts := linspace_R (IZR 0) (IZR 2 * PI) 40).
  set (cs := linspace_R (- (IZR 5 / IZR 10)) (IZR 5 / IZR 10) 5).
  set (sols := map (fun tc => solution_R r (fst tc) (snd tc)) (list_prod ts cs)).
  assert (Hts : real_ts (F := R) = Ok ts).
  { unfold real_ts. cbn [of_int fmul mpi R_float R_math Py.bind].
    apply linspace_exact. lia. }
  assert (Hcs : complex_params (F := R) = Ok cs).
  { unfold complex_params, lit.
    cbn [int_truediv fneg R_float]. unfold R_int_truediv.
    cbn [Z.eqb Py.bind]. apply linspace_exact. lia. }
  exists ts, cs, sols.
  split; [exact Hts|]. split; [exact Hcs|].
  split.
  { unfold complex_circle_solutions. rewrite Hts. cbn [Py.bind].
    rewrite (mapM_total _ (fun t => map (solution_R r t) cs)).
    - cbn [Py.bind]. unfold sols.
      rewrite (map_list_prod (solution_R r)). reflexivity.
    - intros t _. rewrite Hcs. cbn [Py.bind].
      apply mapM_total. intros c _. apply solution_exact. }
  split; [exact real_grid|]. split; [exact imaginary_grid|].
  split.
  { unfold sols. apply map_ext. intro tc. apply solution_R_parts. }
  split; [apply linspace_R_length|]. split; [apply linspace_R_length|].
  split.
  { pose proof PI_RGT_0.
    eapply Forall_impl; [|apply linspace_R_range; lra]. intros t Ht.
    cbv beta in Ht. lra. }
  split.
  { eapply Forall_impl; [|apply linspace_R_range; lra]. intros c Hc.
    cbv beta in Hc. lra. }
  split.
  { apply mapM_total. intros tc _. apply solution_exact. }
  split.
  { unfold sols. rewrite length_map, length_prod.
    unfold ts, cs. now rewrite !linspace_R_length. }
  apply Forall_forall. intros zz Hzz. unfold sols in Hzz.
  apply in_map_iff in Hzz. destruct Hzz as (tc & <- & _).
  apply solution_on_curve.
Qed.

Close Scope R_scope.

End ComplexCurve.

(* ===================================================================== *)
(** ** The frame loops and the animation flag *)
(* ===================================================================== *)

Section GeometryLoop.
Import Ele.
Context {F : Type} `{PyFloat F}.


Lemma handle_event_phases (sr : GeometryViz F * bool) (ev : event) :
  phases (fst (handle_event sr ev)) = phases (fst sr).
Proof. destruct sr as [st r], ev as [|[]|]; reflexivity. Qed.

Lemma handle_event_animate (sr : GeometryViz F * bool) (ev : event) :
  is_space ev = false ->
  animate (fst (handle_event sr ev)) = animate (fst sr).
Proof. destruct sr as [st r], ev as [|[]|]; try reflexivity; discriminate. Qed.

Lemma events_keep_phases (evs : list event) (sr : GeometryViz F * bool) :
  phases (fst (fold_left handle_event evs sr)) = phases (fst sr).
Proof.
  revert sr. induction evs as [|ev evs IH]; intro sr; [reflexivity|].
  cbn [fold_left]. rewrite IH. apply handle_event_phases.
Qed.

Lemma events_keep_animate (evs : list event) (sr : GeometryViz F * bool) :
  forallb (fun ev => negb (is_space ev)) evs = true ->
  animate (fst (fold_left handle_event evs sr)) = animate (fst sr).
Proof.
  revert sr. induction evs as [|ev evs IH]; intros sr Hevs; [reflexivity|].
  cbn [forallb] in Hevs. apply andb_prop in Hevs. destruct Hevs as [Hev Hevs].
  cbn [fold_left]. rewrite IH by exact Hevs.
  apply handle_event_animate. now apply negb_true_iff.
Qed.

Lemma handle_mouse_keeps st st' mp pressed :
  handle_mouse st mp pressed = Ok st' ->
  phases st' = phases st /\ animate st' = animate st.
Proof.
  unfold handle_mouse. destruct pressed.
  - destruct (dragging st).
    + intro E; inversion E; split; reflexivity.
    + destruct (hit_test mp (points st)) as [[[name off]|]|e];
        cbn [Py.bind]; intro E; inversion E; split; reflexivity.
  - intro E; inversion E; split; reflexivity.
Qed.

Lemma frame_frozen (st st' : GeometryViz F) (inp : frame_input) (r : bool) :
  animate st = false ->
  forallb (fun ev => negb (is_space ev)) (events inp) = true ->
  frame st inp = Ok (st', r) ->
  phases st' = phases st /\ animate st' = false.
Proof.
  intros Ha Hevs. unfold frame. rewrite Ha.
  destruct (of_int (tick_ms inp)) as [ms|e]; cbn [Py.bind]; [|discriminate].
  destruct (lit 1000 1) as [k|e]; cbn [Py.bind]; [|discriminate].
  destruct (fdiv ms k) as [dt|e]; cbn [Py.bind]; [|discriminate].
  destruct (iadd (time st) dt) as [t|e]; cbn [Py.bind]; [|discriminate].
  set (st1 := set_clock st t (pulse_phase st) (rotation_angle st)).
  pose proof (events_keep_phases (events inp) (st1, true)) as Hp.
  pose proof (events_keep_animate (events inp) (st1, true) Hevs) as Hq.
  destruct (fold_left handle_event (events inp) (st1, true)) as [st2 running].
  cbn [fst] in Hp, Hq.
  destruct (handle_mouse st2 (mouse_pos inp) (mouse_pressed inp)) as [st3|e] eqn:Hm;
    cbn [Py.bind]; [|discriminate].
  intro E; inversion E; subst st3 r.
  apply handle_mouse_keeps in Hm. destruct Hm as [Hm1 Hm2].
  split; [now rewrite Hm1, Hp | now rewrite Hm2, Hq].
Qed.

Lemma run_frozen (inps : list frame_input) (st st' : GeometryViz F) :
  animate st = false ->
  forallb (fun inp => forallb (fun ev => negb (is_space ev)) (events inp))
          inps = true ->
  run st inps = Ok st' ->
  phases st' = phases st.
Proof.
  revert st. induction inps as [|inp inps IH]; intros st Ha Hin Hrun.
  - inversion Hrun. reflexivity.
  - cbn [forallb] in Hin. apply andb_prop in Hin. destruct Hin as [Hevs Hin].
    cbn [run] in Hrun.
    destruct (frame st inp) as [[st1 r]|e] eqn:Hf; cbn [Py.bind] in Hrun;
      [|discriminate].
    destruct (frame_frozen st st1 inp r Ha Hevs Hf) as [Hp Ha1].
    cbn [fst snd] in Hrun. destruct r.
    + rewrite <- Hp. now apply IH.
    + inversion Hrun; subst. exact Hp.
Qed.

End GeometryLoop.

Section CrossSectionLoop.
Import Confusion.
Context {F : Type} `{PyFloat F} `{PyMath F}.


Lemma handle_event_quiet (sr sr' : CrossSectionViz F * bool) (ev : event) :
  is_arrow ev = false -> is_toggle ev = false ->
  handle_event sr ev = Ok sr' ->
  slices (fst sr') = slices (fst sr) /\ animate (fst sr') = animate (fst sr).
Proof.
  destruct sr as [st r], ev as [|[]|]; cbn [is_arrow is_toggle handle_event];
    intros Harrow Htoggle E; try discriminate;
    inversion E; split; reflexivity.
Qed.

Lemma events_quiet (evs : list event) (sr sr' : CrossSectionViz F * bool) :
  forallb (fun ev => negb (is_arrow ev) && negb (is_toggle ev)) evs = true ->
  foldM handle_event evs sr = Ok sr' ->
  slices (fst sr') = slices (fst sr) /\ animate (fst sr') = animate (fst sr).
Proof.
  revert sr. induction evs as [|ev evs IH]; intros sr Hevs Hf.
  - inversion Hf. split; reflexivity.
  - cbn [forallb] in Hevs. apply andb_prop in Hevs. destruct Hevs as [Hev Hevs].
    apply andb_prop in Hev. destruct Hev as [Harrow Htoggle].
    apply negb_true_iff in Harrow, Htoggle.
    cbn [foldM] in Hf.
    destruct (handle_event sr ev) as [sr1|e] eqn:He; [|discriminate].
    destruct (handle_event_quiet sr sr1 ev Harrow Htoggle He) as [Hs Ha].
    destruct (IH sr1 Hevs Hf) as [Hs' Ha'].
    split; congruence.
Qed.

Lemma cross_frame_frozen (st st' : CrossSectionViz F) inp (r : bool) :
  animate st = false ->
  forallb (fun ev => negb (is_arrow ev) && negb (is_toggle ev)) (events inp)
  = true ->
  frame st inp = Ok (st', r) ->
  slices st' = slices st /\ animate st' = false.
Proof.
  intros Ha Hevs. unfold frame.
  destruct (advance st (tick_ms inp)) as [t|e]; cbn [Py.bind]; [|discriminate].
  replace (animate (set_time st t)) with false by (symmetry; exact Ha).
  cbn [Py.bind]. intro Hf.
  destruct (events_quiet _ _ _ Hevs Hf) as [Hs Hq].
  cbn [fst] in Hs, Hq. split; [exact Hs | now rewrite Hq].
Qed.

Lemma cross_run_frozen (inps : list frame_input) (st st' : CrossSectionViz F) :
  animate st = false ->
  forallb (fun inp =>
             forallb (fun ev => negb (is_arrow ev) && negb (is_toggle ev))
                     (events inp)) inps = true ->
  run st inps = Ok st' ->
  slices st' = slices st.
Proof.
  revert st. induction inps as [|inp inps IH]; intros st Ha Hin Hrun.
  - inversion Hrun. reflexivity.
  - cbn [forallb] in Hin. apply andb_prop in Hin. destruct Hin as [Hevs Hin].
    cbn [run] in Hrun.
    destruct (frame st inp) as [[st1 r]|e] eqn:Hf; cbn [Py.bind] in Hrun;
      [|discriminate].
    destruct (cross_frame_frozen st st1 inp r Ha Hevs Hf) as [Hp Ha1].
    cbn [fst snd] in Hrun. destruct r.
    + rewrite <- Hp. now apply IH.
    + inversion Hrun; subst. exact Hp.
Qed.

Lemma animated_frame (st : CrossSectionViz F) (a b : F) (inp : frame_input) :
  animate st = true ->
  frame st inp
  = (t <- advance st (tick_ms inp) ;;
     ab <- animated_slices t ;;
     foldM handle_event (events inp)
           (set_slices (set_time st t) (fst ab) (snd ab), true)) /\
  frame (set_slices st a b) inp = frame st inp.
Proof.
  intro Ha. unfold frame.
  change (advance (set_slices st a b) (tick_ms inp))
    with (advance st (tick_ms inp)).
  destruct (advance st (tick_ms inp)) as [t|e]; cbn [Py.bind];
    [|split; reflexivity].
  change (animate (set_time (set_slices st a b) t)) with (animate st).
  change (animate (set_time st t)) with (animate st).
  rewrite Ha.
  destruct (animated_slices t) as [[x y]|e]; cbn [Py.bind fst snd];
    split; reflexivity.
Qed.

End CrossSectionLoop.

Section Scenarios.
Import Confusion.
Open Scope R_scope.

Lemma advance_exact (st : CrossSectionViz R) (ms : Z) :
  advance st ms = Ok (Float (time_R (time st) + IZR ms / (1000 / 1))).
Proof.
  unfold advance, lit.
  cbn [of_int int_truediv fdiv fadd R_float Py.bind].
  unfold R_int_truediv. cbn [Z.eqb Py.bind].
  rewrite R_div_nonzero by lra. cbn [Py.bind].
  destruct (time st); reflexivity.
Qed.

Lemma animated_slices_exact (t : R) :
  animated_slices (F := R) (Float t)
  = Ok (3 / 10 * sin (5 / 10 * t), 3 / 10 * cos (7 / 10 * t)).
Proof.
  unfold animated_slices, lit.
  cbn [int_truediv float_of fmul msin mcos R_float R_math].
  unfold R_int_truediv. cbn [Z.eqb Py.bind].
  now rewrite (Rmult_comm t (5 / 10)), (Rmult_comm t (7 / 10)).
Qed.

(** C10: a frame that starts with the animation flag set first assigns
    to both slice parameters the values [animated_slices] computes from
    the advanced time alone, and only then runs the event loop; so the
    result of such a frame does not depend on the slice parameters it
    started with, and an arrow-key adjustment of an earlier frame is gone
    after it.  Over the reals the two values are 0.3·sin(0.5·time) and
    0.3·cos(0.7·time). *)
Theorem animated_frame_overwrites_slices
        {F : Type} `{PyFloat F} `{PyMath F}
        (st : CrossSectionViz F) (a b : F) (inp : frame_input) :
  animate st = true ->
  frame st inp
  = (t <- advance st (tick_ms inp) ;;
     ab <- animated_slices t ;;
     foldM handle_event (events inp)
           (set_slices (set_time st t) (fst ab) (snd ab), true)) /\
  frame (set_slices st a b) inp = frame st inp /\
  (forall t : R,
      animated_slices (F := R) (Float t)
      = Ok (3 / 10 * sin (5 / 10 * t), 3 / 10 * cos (7 / 10 * t))).
Proof.
  intro Ha. destruct (animated_frame st a b inp Ha) as [H1 H2].
  split; [exact H1|]. split; [exact H2 | exact animated_slices_exact].
Qed.

Lemma animated_frame_overwrites_slices_witness :
  animate c_on = true /\
  frame c_on frame_up
  = (t <- advance c_on (tick_ms frame_up) ;;
     ab <- animated_slices t ;;
     foldM handle_event (events frame_up)
           (set_slices (set_time c_on t) (fst ab) (snd ab), true)) /\
  frame (set_slices c_on 4 (-7)) frame_up = frame c_on frame_up /\
  (forall t : R,
      animated_slices (F := R) (Float t)
      = Ok (3 / 10 * sin (5 / 10 * t), 3 / 10 * cos (7 / 10 * t))).
Proof.
  split; [reflexivity|].
  apply (animated_frame_overwrites_slices c_on 4 (-7) frame_up).
  reflexivity.
Defined.

(** The arrow key of an animated frame is still seen by that frame: its
    increment lands on the freshly computed value. *)
Example arrow_key_in_animated_frame :
  Py.bind (frame c_on frame_up) (fun r => Ok (slice_real_im (fst r)))
  = Ok (3 / 10 * sin (5 / 10 * (0 + 16 / (1000 / 1))) + 1 / 10).
Proof.
  unfold frame. rewrite advance_exact.
  cbn [Py.bind tick_ms events frame_up animate set_time c_on time time_R].
  rewrite animated_slices_exact.
  cbn [Py.bind foldM handle_event lit int_truediv R_float fadd fst snd
       set_slices slice_real_im events frame_up].
  unfold R_int_truediv. cbn [Z.eqb Py.bind fst slice_real_im set_slices].
  reflexivity.
Qed.

(** C10 as stated fails when the frame of the arrow key also switches
    the animation off: the next tick then skips the overwrite, and the
    adjustment is still there after it.  Two runs that differ only in the
    up arrow of the first frame end with different slice parameters. *)
Lemma arrow_key_survives_toggle :
  exists c2 c2',
    run c_on [frame_up_toggle; frame_none] = Ok c2 /\
    run c_on [frame_toggle; frame_none] = Ok c2' /\
    slice_real_im c2 = slice_real_im c2' + 1 / 10 /\
    slice_real_im c2 <> slice_real_im c2'.
Proof.
  assert (E : forall evs,
             evs = [KEYDOWN K_UP; KEYDOWN K_a] \/ evs = [KEYDOWN K_a] ->
             exists c,
               run c_on [ {| tick_ms := 16; events := evs |}; frame_none ]
               = Ok c /\
               slice_real_im c
               = if is_arrow (hd OTHER evs)
                 then 3 / 10 * sin (5 / 10 * (0 + 16 / (1000 / 1))) + 1 / 10
                 else 3 / 10 * sin (5 / 10 * (0 + 16 / (1000 / 1)))).
  { intros evs [-> | ->]; eexists;
      (split;
       [ cbn [run]; unfold frame;
         repeat (progress
                   (rewrite ?advance_exact, ?animated_slices_exact;
                    unfold lit, R_int_truediv;
                    cbn [Py.bind tick_ms events frame_none animate time time_R
                         c_on c_off set_time set_slices set_flags negb
                         foldM handle_event int_truediv R_float fadd fst snd
                         slice_real_im slice_imaginary show_projections
                         show_hidden_dims Z.eqb]));
         reflexivity
       | cbn [is_arrow hd slice_real_im set_time set_slices set_flags];
         reflexivity ]). }
  destruct (E [KEYDOWN K_UP; KEYDOWN K_a]) as (c2 & H2 & V2); [now left|].
  destruct (E [KEYDOWN K_a]) as (c2' & H2' & V2'); [now right|].
  cbn [is_arrow hd] in V2, V2'.
  exists c2, c2'. split; [exact H2|]. split; [exact H2'|].
  rewrite V2, V2'. split; lra.
Qed.

Lemma run_c_off_up :
  run c_off [frame_up]
  = Ok (set_slices (set_time c_off (Float (0 + 16 / (1000 / 1))))
                   (0 + 1 / 10) 0).
Proof.
  cbn [run]. unfold frame. rewrite advance_exact.
  cbn [Py.bind tick_ms events frame_up animate set_time c_off foldM
       handle_event lit int_truediv R_float fadd].
  unfold R_int_truediv. cbn [Z.eqb Py.bind snd fst run].
  reflexivity.
Qed.

Lemma run_c_off_quiet :
  run c_off [frame_quiet; frame_quiet]
  = Ok (set_time c_off (Float (0 + 16 / (1000 / 1) + 16 / (1000 / 1)))).
Proof.
  cbn [run]. unfold frame. rewrite !advance_exact.
  cbn [Py.bind tick_ms events frame_quiet animate set_time c_off foldM
       handle_event snd fst run time time_R set_view_mode].
  rewrite !advance_exact.
  cbn [Py.bind tick_ms events frame_quiet animate set_time c_off foldM
       handle_event snd fst run time time_R set_view_mode].
  reflexivity.
Qed.

Lemma run_g_off_second :
  Ele.run g_off [second]
  = Ok (Ele.set_dragging
          (Ele.set_clock g_off (Float (0 + 1000 / (1000 / 1)))
                         (Int 0) (Int 0))
          None (0, 0)%Z).
Proof.
  cbn [Ele.run]. unfold Ele.frame, lit, Ele.iadd.
  cbn [of_int int_truediv fdiv fadd R_float Py.bind float_of
       Ele.tick_ms second Ele.time g_off Ele.set_animate Ele.init].
  unfold R_int_truediv. cbn [Z.eqb Py.bind].
  rewrite R_div_nonzero by lra.
  cbn [Py.bind Ele.animate g_off Ele.set_animate Ele.events second fold_left
       Ele.handle_mouse Ele.mouse_pressed snd fst Ele.run].
  reflexivity.
Qed.

Lemma sin_half_pos : 0 < sin (1 / 2).
Proof. pose proof PI2_1. apply sin_gt_0; lra. Qed.

Close Scope R_scope.

(** C2 (the part the two loops implement): while the animation flag is
    off and no event toggles it, a run of GeometryViz frames leaves the
    pulse phase and the rotation angle as they were, and a run of
    CrossSectionViz frames without arrow-key events leaves both slice
    parameters as they were, however many frames pass. *)
Theorem animation_off_freezes
        {F1 : Type} `{PyFloat F1} {F2 : Type} `{PyFloat F2} `{PyMath F2}
        (g g' : Ele.GeometryViz F1) (ginps : list Ele.frame_input)
        (c c' : CrossSectionViz F2) (cinps : list frame_input) :
  Ele.animate g = false ->
  forallb (fun inp => forallb (fun ev => negb (Ele.is_space ev))
                              (Ele.events inp)) ginps = true ->
  Ele.run g ginps = Ok g' ->
  animate c = false ->
  forallb (fun inp =>
             forallb (fun ev => negb (is_arrow ev) && negb (is_toggle ev))
                     (events inp)) cinps = true ->
  run c cinps = Ok c' ->
  (Ele.pulse_phase g' = Ele.pulse_phase g /\
   Ele.rotation_angle g' = Ele.rotation_angle g) /\
  (slice_real_im c' = slice_real_im c /\
   slice_imaginary c' = slice_imaginary c).
Proof.
  intros Hg Hgin Hgrun Hc Hcin Hcrun.
  pose proof (run_frozen ginps g g' Hg Hgin Hgrun) as Hp.
  pose proof (cross_run_frozen cinps c c' Hc Hcin Hcrun) as Hs.
  unfold Ele.phases in Hp. unfold slices in Hs.
  inversion Hp. inversion Hs. repeat split; assumption.
Qed.

Lemma animation_off_freezes_witness :
  let g := Ele.set_animate (F := b64) Ele.init false in
  let ginps := [drag_frame; drag_frame] in
  let cinps := [frame_quiet; frame_quiet] in
  exists g' c',
    Ele.animate g = false /\
    forallb (fun inp => forallb (fun ev => negb (Ele.is_space ev))
                                (Ele.events inp)) ginps = true /\
    Ele.run g ginps = Ok g' /\
    animate c_off = false /\
    forallb (fun inp =>
               forallb (fun ev => negb (is_arrow ev) && negb (is_toggle ev))
                       (events inp)) cinps = true /\
    run c_off cinps = Ok c' /\
    (Ele.pulse_phase g' = Ele.pulse_phase g /\
     Ele.rotation_angle g' = Ele.rotation_angle g) /\
    (slice_real_im c' = slice_real_im c_off /\
     slice_imaginary c' = slice_imaginary c_off).
Proof.
  intros g ginps cinps.
  assert (Hg : exists g', Ele.run g ginps = Ok g')
    by (eexists; vm_compute; reflexivity).
  destruct Hg as [g' Hg]. exists g'. eexists.
  split; [reflexivity|]. split; [reflexivity|]. split; [exact Hg|].
  split; [reflexivity|]. split; [reflexivity|].
  split; [exact run_c_off_quiet|].
  apply (animation_off_freezes g g' ginps c_off _ cinps);
    first [reflexivity | exact Hg | exact run_c_off_quiet].
Defined.

(** C2 as stated fails twice.  With the flag off, an arrow key still
    moves a slice parameter; and in GeometryViz [self.time] advances
    outside the guard, so the shear factor, which is computed from it,
    changes from frame to frame. *)
Lemma animation_off_still_changes :
  (exists c', run c_off [frame_up] = Ok c' /\
              animate c' = false /\
              slice_real_im c' <> slice_real_im c_off) /\
  (exists g' k k', Ele.run g_off [second] = Ok g' /\
                   Ele.animate g' = false /\
                   Ele.shear_factor g_off = Ok k /\
                   Ele.shear_factor g' = Ok k' /\
                   k <> k').
Proof.
  split.
  - eexists. split; [exact run_c_off_up|]. split; [reflexivity|].
    cbn [slice_real_im set_slices c_off]. lra.
  - eexists. exists (3 / 10 * sin (0 * (5 / 10)))%R.
    exists (3 / 10 * sin ((0 + 1000 / (1000 / 1)) * (5 / 10)))%R.
    split; [exact run_g_off_second|]. split; [reflexivity|].
    split; [|split].
    + unfold Ele.shear_factor, lit.
      cbn [int_truediv float_of of_int fmul msin R_float R_math
           Ele.time g_off Ele.set_animate Ele.init].
      unfold R_int_truediv. cbn [Z.eqb Py.bind]. reflexivity.
    + unfold Ele.shear_factor, lit.
      cbn [int_truediv float_of of_int fmul msin R_float R_math
           Ele.time Ele.set_dragging Ele.set_clock].
      unfold R_int_truediv. cbn [Z.eqb Py.bind]. reflexivity.
    + replace ((0 + 1000 / (1000 / 1)) * (5 / 10))%R with (1 / 2)%R by field.
      rewrite Rmult_0_l, sin_0. pose proof sin_half_pos. lra.
Qed.

End Scenarios.

(* ===================================================================== *)
(** * Further properties of ele.py *)
(* ===================================================================== *)

Section MouseHandling.
Import Ele EleDraw.
Context {F : Type} `{PyFloat F}.

Lemma hit_test_step (mp : Z * Z) (name : string) (pos : point) (d : dict) :
  hit_test mp ((name, pos) :: d)
  = (r <- near mp pos ;;
     if fst r then Ok (Some (name, snd r)) else hit_test mp d).
Proof.
  cbn [hit_test]. unfold near.
  destruct (to_screen (Int (fst pos)) (Int (snd pos))) as [sp|e];
    cbn [Py.bind]; [|reflexivity].
  destruct (of_int _) as [sq|e]; cbn [Py.bind]; [|reflexivity].
  destruct (fsqrt sq) as [dist|e]; cbn [Py.bind]; [|reflexivity].
  destruct (of_int 15) as [c|e]; cbn [Py.bind fst snd]; reflexivity.
Qed.

Lemma hit_test_scan (mp : Z * Z) (d : dict) :
  (forall name off,
      hit_test mp d = Ok (Some (name, off)) ->
      exists pre pos post,
        d = pre ++ (name, pos) :: post /\
        near mp pos = Ok (true, off) /\
        Forall (fun kv => exists o, near mp (snd kv) = Ok (false, o)) pre) /\
  (hit_test mp d = Ok None ->
   Forall (fun kv => exists o, near mp (snd kv) = Ok (false, o)) d).
Proof.
  induction d as [|[k pos] d [IH1 IH2]].
  - split; [discriminate | constructor].
  - rewrite hit_test_step.
    destruct (near mp pos) as [[b o]|e] eqn:Hn; cbn [Py.bind fst snd];
      [|split; [intros; discriminate | discriminate]].
    destruct b.
    + split; [|discriminate].
      intros name off E. inversion E; subst.
      exists [], pos, d.
      split; [reflexivity | split; [exact Hn | constructor]].
    + split.
      * intros name off E. destruct (IH1 name off E) as (pre & p & post & -> & Hp & Hpre).
        exists ((k, pos) :: pre), p, post.
        split; [reflexivity | split; [exact Hp|]].
        constructor; [now exists o | exact Hpre].
      * intro E. constructor; [now exists o | now apply IH2].
Qed.


Lemma hit_test_name (mp : Z * Z) (d : dict) name off :
  hit_test mp d = Ok (Some (name, off)) -> In name (map fst d).
Proof.
  intro E. destruct (proj1 (hit_test_scan mp d) name off E)
    as (pre & pos & post & -> & _).
  rewrite map_app. apply in_or_app. right. now left.
Qed.

Lemma handle_mouse_well_formed (st st' : GeometryViz F) mp pressed :
  well_formed st -> handle_mouse st mp pressed = Ok st' -> well_formed st'.
Proof.
  intros [Hk Hd]. unfold handle_mouse. destruct pressed.
  - destruct (dragging st) as [d|] eqn:Ed.
    + intro E; inversion E; subst st'. split; cbn [points dragging set_points].
      * rewrite dict_set_keys; [exact Hk | rewrite Hk; now apply Hd].
      * rewrite Ed. exact Hd.
    + destruct (hit_test mp (points st)) as [[[name off]|]|e] eqn:Eh;
        cbn [Py.bind]; intro E; inversion E; subst st'.
      * split; cbn [points dragging set_dragging]; [exact Hk|].
        intros d Ed'. inversion Ed'; subst d.
        rewrite <- Hk. eapply hit_test_name; eassumption.
      * split; [exact Hk | rewrite Ed; discriminate].
  - intro E; inversion E; subst st'. split; cbn [points dragging set_dragging];
      [exact Hk | discriminate].
Qed.

Lemma handle_event_well_formed (sr : GeometryViz F * bool) (ev : event) :
  well_formed (fst sr) -> well_formed (fst (handle_event sr ev)).
Proof.
  destruct sr as [st r]. intros [Hk Hd].
  destruct ev as [|[]|]; cbn [handle_event fst]; split;
    cbn [points dragging set_mode set_show_grid set_animate set_points];
    try exact Hk; try exact Hd; reflexivity.
Qed.

Lemma events_well_formed (evs : list event) (sr : GeometryViz F * bool) :
  well_formed (fst sr) -> well_formed (fst (fold_left handle_event evs sr)).
Proof.
  revert sr. induction evs as [|ev evs IH]; intros sr Hsr; [exact Hsr|].
  cbn [fold_left]. apply IH. now apply handle_event_well_formed.
Qed.

Lemma frame_well_formed (st st' : GeometryViz F) (inp : frame_input) (r : bool) :
  well_formed st -> frame st inp = Ok (st', r) -> well_formed st'.
Proof.
  intros Hwf. unfold frame.
  destruct (of_int (tick_ms inp)) as [ms|e]; cbn [Py.bind]; [|discriminate].
  destruct (lit 1000 1) as [k|e]; cbn [Py.bind]; [|discriminate].
  destruct (fdiv ms k) as [dt|e]; cbn [Py.bind]; [|discriminate].
  destruct (iadd (time st) dt) as [t|e]; cbn [Py.bind]; [|discriminate].
  assert (Hst1 : forall st1,
             (if animate st
              then c3 <- of_int 3 ;;
                   ph <- iadd (pulse_phase st) (fmul dt c3) ;;
                   c5 <- lit 5 10 ;;
                   ang <- iadd (rotation_angle st) (fmul dt c5) ;;
                   Ok (set_clock st t ph ang)
              else Ok (set_clock st t (pulse_phase st) (rotation_angle st)))
             = Ok st1 -> well_formed st1).
  { intros st1. destruct (animate st).
    - destruct (of_int 3) as [c3|e]; cbn [Py.bind]; [|discriminate].
      destruct (iadd (pulse_phase st) _) as [ph|e]; cbn [Py.bind]; [|discriminate].
      destruct (lit 5 10) as [c5|e]; cbn [Py.bind]; [|discriminate].
      destruct (iadd (rotation_angle st) _) as [ang|e]; cbn [Py.bind]; [|discriminate].
      intro E; inversion E. exact Hwf.
    - intro E; inversion E. exact Hwf. }
  destruct (if animate st then _ else _) as [st1|e]; cbn [Py.bind]; [|discriminate].
  specialize (Hst1 st1 eq_refl).
  pose proof (events_well_formed (events inp) (st1, true) Hst1) as H2.
  destruct (fold_left handle_event (events inp) (st1, true)) as [st2 running].
  cbn [fst] in H2.
  destruct (handle_mouse st2 (mouse_pos inp) (mouse_pressed inp)) as [st3|e] eqn:Hm;
    cbn [Py.bind]; [|discriminate].
  intro E; inversion E; subst. eapply handle_mouse_well_formed; eassumption.
Qed.

(** X6: every iteration keeps the four names of [self.points], in their
    order, and keeps [self.dragging] one of them or [None]; so the
    lookups of the drawing methods never raise [KeyError]. *)
Theorem run_keeps_point_names (inps : list frame_input) (st st' : GeometryViz F) :
  well_formed st -> run st inps = Ok st' ->
  well_formed st' /\
  forall name, In name point_names ->
               exists p, dict_lookup name (points st') = Ok p.
Proof.
  intros Hwf Hrun.
  assert (Hwf' : well_formed st').
  { revert st Hwf Hrun. induction inps as [|inp inps IH]; intros st Hwf Hrun.
    - inversion Hrun; subst. exact Hwf.
    - cbn [run] in Hrun.
      destruct (frame st inp) as [[st1 r]|e] eqn:Hf; cbn [Py.bind fst snd] in Hrun;
        [|discriminate].
      pose proof (frame_well_formed st st1 inp r Hwf Hf) as H1.
      destruct r; [now apply (IH st1) | inversion Hrun; subst; exact H1]. }
  split; [exact Hwf'|].
  destruct Hwf' as [Hk _]. intros name Hin. unfold dict_lookup.
  destruct (dict_get name (points st')) as [p|] eqn:Eg; [now exists p|].
  exfalso. rewrite <- Hk in Hin. clear - Hin Eg.
  induction (points st') as [|[k v] d IH]; [exact Hin|].
  cbn [dict_get] in Eg. cbn [map fst In] in Hin.
  destruct (String.eqb_spec name k) as [->|Hne]; [discriminate|].
  destruct Hin as [E|Hin]; [now elim Hne | now apply IH].
Qed.

Lemma handle_mouse_seq_app (st : GeometryViz F) (ms ms' : list ((Z * Z) * bool)) :
  handle_mouse_seq st (ms ++ ms')
  = (s <- handle_mouse_seq st ms ;; handle_mouse_seq s ms').
Proof.
  unfold handle_mouse_seq. revert st.
  induction ms as [|m ms IH]; intro st; [reflexivity|].
  cbn [app foldM]. destruct (handle_mouse st (fst m) (snd m)); [apply IH | reflexivity].
Qed.

Lemma hold_keeps_dragging (ms : list ((Z * Z) * bool)) (st : GeometryViz F) d :
  dragging st = Some d ->
  forallb snd ms = true ->
  exists st', handle_mouse_seq st ms = Ok st' /\
              dragging st' = Some d /\
              drag_offset st' = drag_offset st /\
              forall n, n <> d ->
                        dict_get n (points st') = dict_get n (points st).
Proof.
  revert st. induction ms as [|[mp b] ms IH]; intros st Hd Hall.
  - exists st. split; [reflexivity|]. split; [exact Hd|].
    split; reflexivity.
  - cbn [forallb snd] in Hall. apply andb_prop in Hall. destruct Hall as [-> Hall].
    unfold handle_mouse_seq. cbn [foldM fst snd]. unfold handle_mouse at 1.
    rewrite Hd.
    set (st1 := set_points st _).
    destruct (IH st1 Hd Hall) as (st' & Hrun & Hd' & Hoff & Hother).
    exists st'. split; [exact Hrun|]. split; [exact Hd'|]. split; [exact Hoff|].
    intros n Hn. rewrite (Hother n Hn). subst st1. cbn [points set_points].
    now apply dict_get_set_other.
Qed.

Lemma hold_then_move
        (ms : list ((Z * Z) * bool)) (mp : Z * Z) (st : GeometryViz F) d :
  dragging st = Some d ->
  forallb snd ms = true ->
  exists st',
    handle_mouse_seq st (ms ++ [(mp, true)]) = Ok st' /\
    dragging st' = Some d /\
    dict_get d (points st')
    = Some (to_math (fst mp - fst (drag_offset st))
                    (snd mp - snd (drag_offset st))) /\
    forall n, n <> d -> dict_get n (points st') = dict_get n (points st).
Proof.
  intros Hd Hall.
  destruct (hold_keeps_dragging ms st d Hd Hall) as (st1 & Hrun & Hd1 & Hoff & Hother).
  rewrite handle_mouse_seq_app, Hrun. cbn [Py.bind].
  unfold handle_mouse_seq. cbn [foldM fst snd]. unfold handle_mouse.
  rewrite Hd1, Hoff.
  eexists. split; [reflexivity|]. cbn [dragging points set_points].
  split; [exact Hd1|]. split; [apply dict_get_set_same|].
  intros n Hn. rewrite dict_get_set_other by exact Hn. now apply Hother.
Qed.

(** X3: while the button stays down, a drag of any length keeps the same
    point selected and the captured offset as it was, changes no other
    point, and leaves the dragged point at [to_math] of the last pointer
    position less the captured offset: the result does not depend on the
    path the pointer took. *)
Theorem drag_path_independent
        (ms : list ((Z * Z) * bool)) (mp : Z * Z) (st : GeometryViz F) d :
  dragging st = Some d ->
  forallb snd ms = true ->
  exists st',
    handle_mouse_seq st (ms ++ [(mp, true)]) = Ok st' /\
    dragging st' = Some d /\
    drag_offset st' = drag_offset st /\
    dict_get d (points st')
    = Some (to_math (fst mp - fst (drag_offset st))
                    (snd mp - snd (drag_offset st))) /\
    forall n, n <> d -> dict_get n (points st') = dict_get n (points st).
Proof.
  intros Hd Hall.
  destruct (hold_keeps_dragging ms st d Hd Hall)
    as (st1 & Hrun & Hd1 & Hoff & Hother).
  rewrite handle_mouse_seq_app, Hrun. cbn [Py.bind].
  unfold handle_mouse_seq. cbn [foldM fst snd]. unfold handle_mouse.
  rewrite Hd1. eexists. split; [reflexivity|].
  cbn [dragging drag_offset points set_points].
  split; [exact Hd1|]. split; [exact Hoff|]. rewrite Hoff.
  split; [apply dict_get_set_same|].
  intros n Hn. rewrite dict_get_set_other by exact Hn. now apply Hother.
Qed.

Lemma events_running (evs : list event) (st : GeometryViz F) (r : bool) :
  snd (fold_left handle_event evs (st, r)) = r && negb (existsb is_quit evs).
Proof.
  revert st r. induction evs as [|ev evs IH]; intros st r.
  - cbn. now rewrite andb_true_r.
  - cbn [fold_left existsb].
    destruct ev as [|[]|]; cbn [handle_event is_quit]; rewrite IH;
      cbn [orb negb]; try reflexivity.
    now rewrite andb_false_r.
Qed.

Lemma frame_running (st st' : GeometryViz F) (inp : frame_input) (r : bool) :
  frame st inp = Ok (st', r) -> r = negb (existsb is_quit (events inp)).
Proof.
  unfold frame.
  destruct (of_int (tick_ms inp)) as [ms|e]; cbn [Py.bind]; [|discriminate].
  destruct (lit 1000 1) as [k|e]; cbn [Py.bind]; [|discriminate].
  destruct (fdiv ms k) as [dt|e]; cbn [Py.bind]; [|discriminate].
  destruct (iadd (time st) dt) as [t|e]; cbn [Py.bind]; [|discriminate].
  destruct (if animate st then _ else _) as [st1|e]; cbn [Py.bind]; [|discriminate].
  pose proof (events_running (events inp) st1 true) as Hr.
  destruct (fold_left handle_event (events inp) (st1, true)) as [st2 running].
  cbn [snd andb] in Hr.
  destruct (handle_mouse st2 _ _) as [st3|e]; cbn [Py.bind]; [|discriminate].
  intro E. injection E as _ <-. exact Hr.
Qed.

(** X8: a frame whose events contain [QUIT] is the last one: it is still
    carried out in full, and no later input is read. A frame without
    [QUIT] is followed by the next. *)
Theorem geometry_run_stops_at_quit
        (st : GeometryViz F) (inp : frame_input) (rest : list frame_input) :
  (existsb is_quit (events inp) = true ->
   run st (inp :: rest) = run st [inp]) /\
  (existsb is_quit (events inp) = false ->
   run st (inp :: rest) = (r <- frame st inp ;; run (fst r) rest)).
Proof.
  cbn [run].
  destruct (frame st inp) as [[st1 r]|e] eqn:Hf; cbn [Py.bind fst snd];
    [|split; reflexivity].
  rewrite (frame_running st st1 inp r Hf).
  split; intros ->; reflexivity.
Qed.

End MouseHandling.

(* ===================================================================== *)
(** ** binary64: the square root against the hit radius *)
(* ===================================================================== *)

Module Binary64Sqrt.
Import Binary64Facts.

Lemma digits_exact p : 2 ^ 52 <= Zpos p < 2 ^ 53 -> Zpos (digits2_pos p) = 53.
Proof.
  intros [Hlo Hhi]. pose proof (digits_bound p Hhi) as Hle.
  assert (Hs : forall q, digits2_pos q = Pos.size q)
    by (induction q as [q IH|q IH|]; cbn [digits2_pos Pos.size]; rewrite ?IH; reflexivity).
  pose proof (Pos.size_gt p) as Hgt. rewrite <- Hs in Hgt.
  apply Pos2Z.pos_lt_pos in Hgt. rewrite Pos2Z.inj_pow in Hgt.
  destruct (Z_lt_le_dec (Zpos (digits2_pos p)) 53) as [Hlt|]; [exfalso|lia].
  assert (2 ^ Zpos (digits2_pos p) <= 2 ^ 52) by (apply Z.pow_le_mono_r; lia).
  lia.
Qed.

Lemma loc_of_shr_record_of_loc m l :
  loc_of_shr_record (shr_record_of_loc m l) = l /\
  shr_m (shr_record_of_loc m l) = m.
Proof. destruct l as [|[]]; split; reflexivity. Qed.

(** Rounding a 53-bit mantissa with any location: the mantissa or its
    successor, at the same exponent or, on carry, 2^52 one exponent up. *)
Lemma round_aux_53 (q : positive) (e : Z) (l : location) :
  2 ^ 52 <= Zpos q < 2 ^ 53 -> -1074 <= e <= 970 ->
  exists (M : positive) (E : Z),
    binary_round_aux prec emax false (Zpos q) e l = S754_finite false M E /\
    ((E = e /\ Zpos q <= Zpos M) \/ e < E).
Proof.
  intros Hq He.
  assert (Hnoshift : forall p l', 2 ^ 52 <= Zpos p < 2 ^ 53 ->
             shr_fexp prec emax (Zpos p) e l' = (shr_record_of_loc (Zpos p) l', e)).
  { intros p l' Hp. unfold shr_fexp. cbn [Zdigits2].
    rewrite (digits_exact p Hp), fexp_small by lia.
    replace (53 + e - 53 - e) with 0 by lia. reflexivity. }
  unfold binary_round_aux. rewrite (Hnoshift q l Hq).
  destruct (loc_of_shr_record_of_loc (Zpos q) l) as [-> ->].
  assert (Hr : round_nearest_even (Zpos q) l = Zpos q \/
               round_nearest_even (Zpos q) l = Zpos q + 1).
  { destruct l as [|[]]; cbn [round_nearest_even]; auto.
    destruct (Z.even (Zpos q)); auto. }
  assert (Hfin : forall p, 2 ^ 52 <= Zpos p < 2 ^ 53 -> Zpos q <= Zpos p ->
             exists M E,
               (let '(mrs, e'') := shr_fexp prec emax (Zpos p) e loc_Exact in
                match shr_m mrs with
                | 0 => S754_zero false
                | Zpos m => if e'' <=? emax - prec
                            then S754_finite false m e'' else S754_infinity false
                | Zneg _ => S754_nan
                end) = S754_finite false M E /\
               ((E = e /\ Zpos q <= Zpos M) \/ e < E)).
  { intros p Hp Hqp. rewrite (Hnoshift p loc_Exact Hp).
    cbn [shr_record_of_loc shr_m].
    replace (e <=? emax - prec) with true
      by (symmetry; apply Z.leb_le; unfold emax, prec; lia).
    exists p, e. split; [reflexivity | left; split; [reflexivity | exact Hqp]]. }
  destruct Hr as [-> | ->].
  - apply Hfin; [exact Hq | lia].
  - destruct (Z.eq_dec (Zpos q + 1) (2 ^ 53)) as [Hc|Hc].
    + rewrite Hc. exists 4503599627370496%positive, (e + 1).
      split; [|right; lia].
      unfold shr_fexp. cbn [Zdigits2].
      change (Zdigits2 (2 ^ 53)) with 54.
      rewrite fexp_small by lia.
      replace (54 + e - 53 - e) with 1 by lia.
      cbn [shr shr_record_of_loc iter_pos]. change (2 ^ 53) with (Zpos (xO 4503599627370496)).
      cbn [shr_1 shr_m].
      replace (e + 1 <=? emax - prec) with true
        by (symmetry; apply Z.leb_le; unfold emax, prec; lia).
      reflexivity.
    + assert (Hp : exists p, Zpos q + 1 = Zpos p)
        by (exists (q + 1)%positive; lia).
      destruct Hp as [p Hp]. rewrite Hp. apply Hfin; lia.
Qed.

(** The square root of an integer from 225 up is not below 15. *)
Lemma sqrt_not_below_15 (n : Z) :
  225 <= n < 2 ^ 53 ->
  SFltb (SFsqrt prec emax (canon_int n)) (canon_int 15) = false.
Proof.
  intros [Hlo Hhi]. destruct n as [|a|a]; try lia.
  pose proof (digits_bound a Hhi) as HD.
  assert (HD8 : 8 <= Zpos (digits2_pos a)).
  { assert (Hs : forall q, digits2_pos q = Pos.size q)
      by (induction q as [q IH|q IH|]; cbn [digits2_pos Pos.size]; rewrite ?IH; reflexivity).
    pose proof (Pos.size_gt a) as Hgt. rewrite <- Hs in Hgt.
    apply Pos2Z.pos_lt_pos in Hgt. rewrite Pos2Z.inj_pow in Hgt.
    destruct (Z_lt_le_dec (Zpos (digits2_pos a)) 8) as [Hlt|]; [exfalso|lia].
    assert (2 ^ Zpos (digits2_pos a) <= 2 ^ 7) by (apply Z.pow_le_mono_r; lia).
    change (2 ^ 7) with 128 in *. lia. }
  cbn [canon_int]. unfold canon_pos.
  remember (Zpos (digits2_pos a)) as D eqn:ED.
  set (mx := shl a (53 - D)).
  assert (Hmx : Zpos mx = Zpos a * 2 ^ (53 - D)) by (apply shl_mul; lia).
  assert (Hdmx : Zpos (digits2_pos mx) = 53)
    by (unfold mx; rewrite digits_shl by lia; lia).
  cbn [SFsqrt]. unfold SFsqrt_core_binary. cbn [Zdigits2]. rewrite Hdmx.
  rewrite !Z.div2_div.
  rewrite fexp_small by (assert (0 <= (53 + (D - 53) + 1) / 2) by (apply Z.div_pos; lia); lia).
  set (e' := Z.min ((53 + (D - 53) + 1) / 2 - 53) ((D - 53) / 2)).
  assert (He' : e' = (D + 1) / 2 - 53).
  { unfold e'. replace (53 + (D - 53) + 1) with (D + 1) by lia.
    apply Z.min_l.
    pose proof (Z.div_mod (D + 1) 2 ltac:(lia)).
    pose proof (Z.mod_pos_bound (D + 1) 2 ltac:(lia)).
    pose proof (Z.div_mod (D - 53) 2 ltac:(lia)).
    pose proof (Z.mod_pos_bound (D - 53) 2 ltac:(lia)).
    lia. }
  assert (He'rng : -49 <= e' <= -26).
  { rewrite He'.
    pose proof (Z.div_mod (D + 1) 2 ltac:(lia)).
    pose proof (Z.mod_pos_bound (D + 1) 2 ltac:(lia)). lia. }
  set (s := D - 53 - 2 * e').
  assert (Hs : s = 52 \/ s = 53).
  { unfold s. rewrite He'.
    pose proof (Z.div_mod (D + 1) 2 ltac:(lia)).
    pose proof (Z.mod_pos_bound (D + 1) 2 ltac:(lia)). lia. }
  assert (Hm' : (match s with
                 | 0 => Zpos mx
                 | Zpos _ => Z.shiftl (Zpos mx) s
                 | Zneg _ => 0
                 end) = Zpos a * (2 ^ (- e') * 2 ^ (- e'))).
  { replace (match s with 0 => Zpos mx | Zpos _ => Z.shiftl (Zpos mx) s | Zneg _ => 0 end)
      with (Z.shiftl (Zpos mx) s) by (destruct Hs as [-> | ->]; reflexivity).
    rewrite Z.shiftl_mul_pow2 by lia. rewrite Hmx, <- Z.mul_assoc.
    rewrite <- !Z.pow_add_r by lia. f_equal. f_equal. unfold s. lia. }
  rewrite Hm'. clear Hm'.
  set (T := 2 ^ (- e')).
  assert (HT : 0 < T) by (apply Z.pow_pos_nonneg; lia).
  assert (HT2 : T * T = 2 ^ (- 2 * e'))
    by (unfold T; rewrite <- Z.pow_add_r by lia; f_equal; lia).
  pose proof (Z.sqrtrem_spec (Zpos a * (T * T)) ltac:(nia)) as Hsq.
  destruct (Z.sqrtrem (Zpos a * (T * T))) as [q r].
  destruct Hsq as [Hsq Hr].
  (* the size of the root *)
  assert (Hmxrng : 2 ^ 52 <= Zpos mx < 2 ^ 53).
  { pose proof (digits_bound mx) as Hb.
    assert (Hs' : forall p, digits2_pos p = Pos.size p)
      by (induction p as [p IH|p IH|]; cbn [digits2_pos Pos.size]; rewrite ?IH; reflexivity).
    pose proof (Pos.size_gt mx) as Hgt. pose proof (Pos.size_le mx) as Hle.
    rewrite <- Hs' in Hgt, Hle.
    apply Pos2Z.pos_lt_pos in Hgt. apply Pos2Z.pos_le_pos in Hle.
    rewrite Pos2Z.inj_pow in Hgt, Hle. rewrite Hdmx in Hgt, Hle.
    change (2 ^ 53) with (2 * 2 ^ 52) in Hle. lia. }
  assert (Hval : Zpos a * (T * T) = Zpos mx * 2 ^ s).
  { rewrite Hmx, HT2, <- Z.mul_assoc, <- Z.pow_add_r by lia.
    f_equal. f_equal. unfold s. lia. }
  assert (Hq : 2 ^ 52 <= q < 2 ^ 53).
  { assert (H104 : 2 ^ 104 <= Zpos mx * 2 ^ s < 2 ^ 106).
    { destruct Hs as [-> | ->].
      - change (2 ^ 104) with (2 ^ 52 * 2 ^ 52).
        change (2 ^ 106) with (2 ^ 53 * 2 ^ 53).
        assert (0 < 2 ^ 52) by lia. assert (2 ^ 52 < 2 ^ 53) by lia. nia.
      - change (2 ^ 104) with (2 ^ 52 * 2 ^ 52).
        change (2 ^ 106) with (2 ^ 53 * 2 ^ 53).
        assert (0 < 2 ^ 52) by lia. assert (2 ^ 52 < 2 ^ 53) by lia. nia. }
    rewrite <- Hval in H104. rewrite Hsq in H104.
    change (2 ^ 104) with (2 ^ 52 * 2 ^ 52) in H104.
    change (2 ^ 106) with (2 ^ 53 * 2 ^ 53) in H104.
    assert (0 < 2 ^ 52) by lia. assert (0 < 2 ^ 53) by lia.
    split; nia. }
  assert (Hq15 : 15 * T <= q).
  { assert (225 * (T * T) <= q * q + r) by (rewrite <- Hsq; nia).
    nia. }
  destruct q as [|q|q]; try lia.
  set (l := if r =? 0 then loc_Exact
            else loc_Inexact (if r <=? Zpos q then Lt else Gt)).
  destruct (round_aux_53 q e' l Hq ltac:(lia)) as (M & E & -> & HME).
  unfold SFltb. cbn [SFcompare canon_int canon_pos].
  change (Zpos (digits2_pos 15)) with 4.
  change (shl 15 (53 - 4)) with 8444249301319680%positive.
  change (4 - 53) with (-49).
  destruct HME as [[-> HM] | HE].
  - destruct (Z.compare_spec e' (-49)) as [Heq|Hlt|Hgt]; [|lia|reflexivity].
    destruct (PosDef.Pos.compare_cont Eq M 8444249301319680) eqn:Ec;
      [reflexivity | exfalso | reflexivity].
    assert (Hlt : (M < 8444249301319680)%positive) by exact Ec.
    assert (HT49 : T = 2 ^ 49) by (unfold T; rewrite Heq; reflexivity).
    apply Pos2Z.pos_lt_pos in Hlt.
    assert (HK : Zpos 8444249301319680 = 15 * 2 ^ 49) by reflexivity.
    rewrite HK in Hlt. rewrite HT49 in Hq15. lia.
  - destruct (Z.compare_spec E (-49)) as [Heq|Hlt|Hgt]; [lia|lia|reflexivity].
Qed.

End Binary64Sqrt.

(* ===================================================================== *)
(** ** ele.py on binary64: hit radius, tracking, and a run that cannot raise *)
(* ===================================================================== *)

Section GeometryOnBinary64.
Import Binary64Facts Binary64Sqrt Ele EleDraw EleSafety.

Lemma sqrt_below_15 (n : Z) :
  0 <= n < 225 ->
  SFltb (SFsqrt prec emax (canon_int n)) (canon_int 15) = true.
Proof.
  intros Hn.
  assert (Hall : forallb (fun i => SFltb (SFsqrt prec emax (canon_int (Z.of_nat i)))
                                         (canon_int 15))
                         (seq 0 225) = true) by (vm_compute; reflexivity).
  rewrite forallb_forall in Hall.
  specialize (Hall (Z.to_nat n)). rewrite Z2Nat.id in Hall by lia.
  apply Hall. apply in_seq. lia.
Qed.

Lemma b64_sqrt_nonneg (n : Z) :
  0 <= n -> b64_sqrt (canon_int n) = Ok (SFsqrt prec emax (canon_int n)).
Proof. destruct n; [reflexivity | reflexivity | lia]. Qed.

(** On binary64, [distance < 15] decides [dx² + dy² < 225]. *)
Lemma near_b64 (mp : Z * Z) (pos : point) :
  small mp -> small pos ->
  near (F := b64) mp pos
  = Ok ((fst mp - (WIDTH / 2 + fst pos)) ^ 2
        + (snd mp - (HEIGHT / 2 - snd pos)) ^ 2 <? 225,
        (fst mp - (WIDTH / 2 + fst pos), snd mp - (HEIGHT / 2 - snd pos))).
Proof.
  intros [Hmx Hmy] [Hx Hy]. unfold near.
  change (2 ^ 24) with 16777216 in *.
  rewrite to_screen_int by (change (2 ^ 53) with 9007199254740992; lia).
  cbn [Py.bind fst snd]. change (WIDTH / 2) with 450. change (HEIGHT / 2) with 300.
  set (ox := fst mp - (450 + fst pos)). set (oy := snd mp - (300 - snd pos)).
  assert (Hox : Z.abs ox < 2 ^ 26) by (change (2 ^ 26) with 67108864; lia).
  assert (Hoy : Z.abs oy < 2 ^ 26) by (change (2 ^ 26) with 67108864; lia).
  assert (Hn : 0 <= ox ^ 2 + oy ^ 2 < 2 ^ 53).
  { rewrite !Z.pow_2_r. change (2 ^ 53) with (2 ^ 26 * 2 ^ 26 + 2 ^ 26 * 2 ^ 26).
    assert (0 < 2 ^ 26) by lia.
    assert (ox * ox < 2 ^ 26 * 2 ^ 26) by nia.
    assert (oy * oy < 2 ^ 26 * 2 ^ 26) by nia. nia. }
  cbn [of_int fsqrt fltb b64_float].
  rewrite b64_of_int_exact by lia. cbn [Py.bind].
  rewrite b64_sqrt_nonneg by lia. cbn [Py.bind].
  change (b64_of_int 15) with (Ok (canon_int 15)). cbn [Py.bind].
  f_equal. f_equal.
  destruct (Z.ltb_spec (ox ^ 2 + oy ^ 2) 225).
  - apply sqrt_below_15. lia.
  - apply sqrt_not_below_15. lia.
Qed.

Lemma hit_test_b64 (mp : Z * Z) (d : dict) :
  small mp -> Forall (fun kv => small (snd kv)) d ->
  hit_test (F := b64) mp d = Ok (first_within mp d).
Proof.
  intros Hmp Hd. induction Hd as [|[name pos] d Hpos Hd IH]; [reflexivity|].
  rewrite hit_test_step, near_b64 by assumption.
  cbn [Py.bind fst snd first_within].
  destruct (_ <? 225); [reflexivity | exact IH].
Qed.

Lemma first_within_some (mp : Z * Z) (d : dict) name off :
  first_within mp d = Some (name, off) ->
  exists pre pos post,
    d = pre ++ (name, pos) :: post /\
    off = (fst mp - (WIDTH / 2 + fst pos), snd mp - (HEIGHT / 2 - snd pos)) /\
    fst off ^ 2 + snd off ^ 2 < 225.
Proof.
  induction d as [|[k pos] d IH]; cbn [first_within]; [discriminate|].
  destruct (Z.ltb_spec ((fst mp - (WIDTH / 2 + fst pos)) ^ 2
                        + (snd mp - (HEIGHT / 2 - snd pos)) ^ 2) 225) as [Hlt|Hge].
  - intro E; inversion E; subst. exists [], pos, d.
    split; [reflexivity | split; [reflexivity | exact Hlt]].
  - intro E. destruct (IH E) as (pre & p & post & -> & Hoff & Hlt).
    exists ((k, pos) :: pre), p, post.
    split; [reflexivity | split; assumption].
Qed.

Lemma dict_get_first (pre post : dict) name (pos : point) :
  ~ In name (map fst pre) ->
  dict_get name (pre ++ (name, pos) :: post) = Some pos.
Proof.
  induction pre as [|[k v] pre IH]; cbn [app dict_get map fst In]; intro Hn.
  - now rewrite String.eqb_refl.
  - destruct (String.eqb_spec name k) as [->|Hne]; [exfalso; apply Hn; now left|].
    apply IH. intro Hin. apply Hn. now right.
Qed.

Lemma first_within_bounds (mp : Z * Z) (d : dict) name off :
  first_within mp d = Some (name, off) ->
  In name (map fst d) /\ Z.abs (fst off) <= 14 /\ Z.abs (snd off) <= 14.
Proof.
  intro E. destruct (first_within_some _ _ _ _ E) as (pre & pos & post & -> & _ & Hlt).
  split.
  - rewrite map_app. apply in_or_app. right. now left.
  - rewrite !Z.pow_2_r in Hlt.
    pose proof (Z.square_nonneg (fst off)). pose proof (Z.square_nonneg (snd off)).
    split; nia.
Qed.

Lemma dict_set_Forall (Q : point -> Prop) k v (d : dict) :
  Forall (fun kv => Q (snd kv)) d -> Q v ->
  Forall (fun kv => Q (snd kv)) (dict_set k v d).
Proof.
  intros Hd Hv. induction Hd as [|[k' v'] d Hk Hd IH]; cbn [dict_set].
  - now repeat constructor.
  - destruct (String.eqb k k'); constructor; assumption.
Qed.

Lemma in_reach_small (p : point) : in_reach p -> small p.
Proof. unfold in_reach, small. change (2 ^ 24) with 16777216. lia. Qed.

Ltac safe_split :=
  unfold safe; split; [|split; [|split; [|split; [|split]]]].

Lemma handle_mouse_safe (st : GeometryViz b64) (mp : Z * Z) (pressed : bool) :
  safe st -> in_window mp ->
  exists st', handle_mouse st mp pressed = Ok st' /\ safe st'.
Proof.
  intros (Hk & Hr & Hd & Ht & Hp & Ha) [Hmx Hmy].
  change WIDTH with 900 in Hmx. change HEIGHT with 600 in Hmy.
  unfold handle_mouse. destruct pressed.
  - destruct (dragging st) as [d|] eqn:Ed.
    + destruct (Hd d eq_refl) as (Hin & Hox & Hoy).
      eexists. split; [reflexivity|].
      safe_split; cbn [points dragging drag_offset time pulse_phase
                       rotation_angle set_points]; try assumption.
      * rewrite dict_set_keys; [exact Hk | now rewrite Hk].
      * apply dict_set_Forall; [exact Hr|].
        unfold in_reach, to_math. cbn [fst snd].
        change (WIDTH / 2) with 450. change (HEIGHT / 2) with 300. lia.
      * rewrite Ed. exact Hd.
    + rewrite hit_test_b64.
      * cbn [Py.bind].
        destruct (first_within mp (points st)) as [[name off]|] eqn:Ef.
        -- destruct (first_within_bounds _ _ _ _ Ef) as (Hin & Hox & Hoy).
           eexists. split; [reflexivity|].
           safe_split; cbn [points dragging drag_offset time pulse_phase
                            rotation_angle set_dragging]; try assumption.
           intros d E; inversion E; subst d.
           split; [now rewrite <- Hk | split; assumption].
        -- exists st. split; [reflexivity|].
           safe_split; try assumption. rewrite Ed. discriminate.
      * unfold small. change (2 ^ 24) with 16777216. lia.
      * eapply Forall_impl; [|exact Hr]. intros kv. apply in_reach_small.
  - eexists. split; [reflexivity|].
    safe_split; cbn [points dragging drag_offset time pulse_phase
                     rotation_angle set_dragging]; try assumption.
    discriminate.
Qed.

Lemma default_points_in_reach :
  Forall (fun kv : string * point => in_reach (snd kv)) default_points.
Proof. repeat constructor; cbn; lia. Qed.

Lemma handle_event_safe (sr : GeometryViz b64 * bool) (ev : event) :
  safe (fst sr) -> safe (fst (handle_event sr ev)).
Proof.
  destruct sr as [st r]. intros (Hk & Hr & Hd & Ht & Hp & Ha).
  destruct ev as [|[]|]; cbn [handle_event fst];
    safe_split;
    cbn [points dragging drag_offset time pulse_phase rotation_angle
         set_mode set_show_grid set_animate set_points];
    first [assumption | reflexivity | apply default_points_in_reach].
Qed.

Lemma events_safe (evs : list event) (sr : GeometryViz b64 * bool) :
  safe (fst sr) -> safe (fst (fold_left handle_event evs sr)).
Proof.
  revert sr. induction evs as [|ev evs IH]; intros sr Hsr; [exact Hsr|].
  cbn [fold_left]. apply IH. now apply handle_event_safe.
Qed.

Lemma float_of_convertible (x : num b64) :
  convertible x -> exists f, float_of x = Ok f.
Proof.
  destruct x as [z|f]; cbn [convertible float_of of_int b64_float]; intro Hc.
  - rewrite b64_of_int_exact by exact Hc. eexists; reflexivity.
  - eexists; reflexivity.
Qed.

Lemma frame_tail_safe (st1 : GeometryViz b64) (inp : frame_input) :
  safe st1 -> in_window (mouse_pos inp) ->
  exists st' r,
    (let (st2, running) := fold_left handle_event (events inp) (st1, true) in
     st3 <- handle_mouse st2 (mouse_pos inp) (mouse_pressed inp) ;;
     Ok (st3, running)) = Ok (st', r) /\ safe st'.
Proof.
  intros Hs1 Hwin.
  pose proof (events_safe (events inp) (st1, true) Hs1) as Hs2.
  destruct (fold_left handle_event (events inp) (st1, true)) as [st2 running].
  cbn [fst] in Hs2.
  destruct (handle_mouse_safe st2 (mouse_pos inp) (mouse_pressed inp) Hs2 Hwin)
    as (st3 & -> & Hs3).
  cbn [Py.bind]. exists st3, running. split; [reflexivity | exact Hs3].
Qed.

Lemma frame_safe (st : GeometryViz b64) (inp : frame_input) :
  safe st -> input_ok inp ->
  exists st' r, frame st inp = Ok (st', r) /\ safe st'.
Proof.
  intros Hsafe [Hms Hwin].
  pose proof Hsafe as (Hk & Hr & Hd & Ht & Hp & Ha).
  unfold frame, lit, iadd.
  cbn [of_int int_truediv fdiv fmul fadd b64_float].
  rewrite b64_of_int_exact by lia. cbn [Py.bind].
  change (b64_int_truediv 1000 1) with (Ok (canon_int 1000)). cbn [Py.bind].
  change (b64_div (canon_int (tick_ms inp)) (canon_int 1000))
    with (Ok (SFdiv prec emax (canon_int (tick_ms inp)) (canon_int 1000))).
  cbn [Py.bind].
  destruct (float_of_convertible _ Ht) as [ft ->]. cbn [Py.bind].
  destruct (animate st).
  - change (b64_of_int 3) with (Ok (canon_int 3)). cbn [Py.bind].
    destruct (float_of_convertible _ Hp) as [fp ->]. cbn [Py.bind].
    destruct (b64_int_truediv 5 10) as [c5|e] eqn:E5;
      [|vm_compute in E5; discriminate].
    cbn [Py.bind].
    destruct (float_of_convertible _ Ha) as [fa ->]. cbn [Py.bind].
    apply frame_tail_safe; [|exact Hwin].
    safe_split; cbn [points dragging drag_offset time pulse_phase
                     rotation_angle set_clock convertible];
      first [assumption | exact I].
  - cbn [Py.bind]. apply frame_tail_safe; [|exact Hwin].
    safe_split; cbn [points dragging drag_offset time pulse_phase
                     rotation_angle set_clock convertible];
      first [assumption | exact I].
Qed.

Lemma run_safe (inps : list frame_input) (st : GeometryViz b64) :
  safe st -> Forall input_ok inps ->
  exists st', run st inps = Ok st' /\ safe st'.
Proof.
  intros Hsafe Hin. revert st Hsafe.
  induction Hin as [|inp inps Hinp Hin IH]; intros st Hsafe.
  - exists st. split; [reflexivity | exact Hsafe].
  - cbn [run].
    destruct (frame_safe st inp Hsafe Hinp) as (st1 & r & -> & Hs1).
    cbn [Py.bind fst snd]. destruct r.
    + now apply IH.
    + exists st1. split; [reflexivity | exact Hs1].
Qed.

Lemma init_safe : safe (init (F := b64)).
Proof.
  safe_split; cbn [init points dragging time pulse_phase rotation_angle
                   convertible Z.abs]; try reflexivity; try discriminate.
  apply default_points_in_reach.
Qed.

(** X2: on binary64 and for positions of magnitude below 2^24, the scan of
    [handle_mouse] selects the first point of the dict whose squared pixel
    distance from the pointer is below 225, with the pointer's offset from
    it: the hit radius is 15 pixels, exclusive. *)
Theorem hit_radius_is_fifteen_pixels (mp : Z * Z) (d : dict) :
  small mp -> Forall (fun kv => small (snd kv)) d ->
  hit_test (F := b64) mp d = Ok (first_within mp d).
Proof. exact (hit_test_b64 mp d). Qed.

(** X5: on binary64, a point taken from a pixel position below 2^52 by
    [to_math] is drawn back at that pixel by [to_screen]. *)
Theorem to_screen_inverts_to_math (sx sy : Z) :
  Z.abs sx < 2 ^ 52 -> Z.abs sy < 2 ^ 52 ->
  to_screen (F := b64) (Int (fst (to_math sx sy))) (Int (snd (to_math sx sy)))
  = Ok (sx, sy).
Proof.
  intros Hx Hy. unfold to_math. cbn [fst snd].
  change (WIDTH / 2) with 450. change (HEIGHT / 2) with 300.
  change (2 ^ 52) with 4503599627370496 in *.
  rewrite to_screen_int by (change (2 ^ 53) with 9007199254740992; lia).
  f_equal. f_equal; lia.
Qed.

(** X4: on binary64: when a press at [mp0] grabs a point, and the button is
    held along any path that ends at [mp1], the point ends displaced by
    exactly the pointer's displacement (with y reversed) and no other
    point has moved; in particular a grab without movement leaves the
    point where it was. *)
Theorem grabbed_point_tracks_pointer
        (st st1 : GeometryViz b64) (mp0 mp1 : Z * Z)
        (ms : list ((Z * Z) * bool)) (name : string) :
  NoDup (map fst (points st)) ->
  Forall (fun kv => small (snd kv)) (points st) -> small mp0 ->
  dragging st = None ->
  handle_mouse st mp0 true = Ok st1 -> dragging st1 = Some name ->
  forallb snd ms = true ->
  exists (pos : point) (st2 : GeometryViz b64),
    dict_get name (points st) = Some pos /\
    handle_mouse_seq st1 (ms ++ [(mp1, true)]) = Ok st2 /\
    dict_get name (points st2)
    = Some (fst pos + (fst mp1 - fst mp0), snd pos - (snd mp1 - snd mp0)) /\
    forall n, n <> name -> dict_get n (points st2) = dict_get n (points st).
Proof.
  intros Hnd Hsmall Hmp Hd0 Hgrab Hd1 Hall.
  unfold handle_mouse in Hgrab. rewrite Hd0 in Hgrab.
  rewrite hit_test_b64 in Hgrab by assumption. cbn [Py.bind] in Hgrab.
  destruct (first_within mp0 (points st)) as [[name' off]|] eqn:Ef;
    inversion Hgrab; subst st1; clear Hgrab;
    [|rewrite Hd0 in Hd1; discriminate].
  cbn [dragging set_dragging] in Hd1. inversion Hd1; subst name'.
  destruct (first_within_some _ _ _ _ Ef) as (pre & pos & post & Hsplit & Hoff & _).
  assert (Hget : dict_get name (points st) = Some pos).
  { rewrite Hsplit. apply dict_get_first.
    rewrite Hsplit, map_app in Hnd. cbn [map fst] in Hnd.
    apply NoDup_remove_2 in Hnd. intro Hin. apply Hnd.
    apply in_or_app. now left. }
  set (st1 := set_dragging st (Some name) off).
  destruct (hold_then_move ms mp1 st1 name eq_refl Hall)
    as (st2 & Hrun & _ & Hpos & Hother).
  exists pos, st2. split; [exact Hget|]. split; [exact Hrun|].
  split; [|exact Hother].
  rewrite Hpos. unfold st1. cbn [drag_offset set_dragging]. subst off.
  unfold to_math. cbn [fst snd].
  change (WIDTH / 2) with 450. change (HEIGHT / 2) with 300.
  f_equal. f_equal; lia.
Qed.

(** X7: on binary64: from the initial state, for any sequence of frames whose
    pointer positions lie inside the window and whose tick is below 2^53
    ms, the state update of [run] never raises, every point stays within
    14 pixels of the window, and a captured offset is at most 14 pixels
    each way. *)
Theorem run_never_raises_in_window (inps : list frame_input) :
  Forall input_ok inps ->
  exists st', run (F := b64) init inps = Ok st' /\ safe st'.
Proof. intro Hin. exact (run_safe inps init init_safe Hin). Qed.

End GeometryOnBinary64.

(* ===================================================================== *)
(** ** ele.py: the shear, for any float arithmetic *)
(* ===================================================================== *)

Section Shear.
Import Ele EleDraw.
Context {F : Type} `{PyFloat F} `{PyMath F}.

Lemma to_screen_row (x x' y : num F) (p q : Z * Z) :
  to_screen x y = Ok p -> to_screen x' y = Ok q -> snd p = snd q.
Proof.
  unfold to_screen.
  destruct (int_truediv WIDTH 2) as [w2|e]; cbn [Py.bind]; [|discriminate].
  destruct (float_of x) as [fx|e]; cbn [Py.bind]; [|discriminate].
  destruct (ftrunc (fadd w2 fx)) as [sx|e]; cbn [Py.bind]; [|discriminate].
  destruct (float_of x') as [fx'|e]; cbn [Py.bind]; [|discriminate].
  destruct (ftrunc (fadd w2 fx')) as [sx'|e]; cbn [Py.bind]; [|discriminate].
  destruct (int_truediv HEIGHT 2) as [h2|e]; cbn [Py.bind]; [|discriminate].
  destruct (float_of y) as [fy|e]; cbn [Py.bind]; [|discriminate].
  destruct (ftrunc (fsub h2 fy)) as [sy|e]; cbn [Py.bind]; [|discriminate].
  intros E1 E2. inversion E1. inversion E2. reflexivity.
Qed.

Lemma mapM_rows {A : Type} (f g : A -> result (Z * Z)) (l : list A)
      (ps qs : list (Z * Z)) :
  (forall a p q, f a = Ok p -> g a = Ok q -> snd p = snd q) ->
  mapM f l = Ok ps -> mapM g l = Ok qs -> map snd ps = map snd qs.
Proof.
  intro Hfg. revert ps qs. induction l as [|a l IH]; intros ps qs.
  - cbn [mapM]. intros E1 E2. inversion E1. inversion E2. reflexivity.
  - cbn [mapM].
    destruct (f a) as [p|e] eqn:Ef; [|discriminate].
    destruct (mapM f l) as [ps'|e]; [|discriminate].
    destruct (g a) as [q|e] eqn:Eg; [|discriminate].
    destruct (mapM g l) as [qs'|e]; [|discriminate].
    intros E1 E2. inversion E1. inversion E2. cbn [map].
    f_equal; [eapply Hfg; eassumption | now apply IH].
Qed.

(** X14: the shear of [draw_affine_elements] moves the triangle's vertices
    along their rows only: each sheared vertex is drawn on the same
    screen row as the vertex it comes from, whatever the shear factor and
    whatever the float arithmetic. *)
Theorem shear_keeps_rows (st : GeometryViz F) (ts tr : list (Z * Z)) :
  transformed st = Ok ts -> triangle st = Ok tr ->
  map snd ts = map snd tr.
Proof.
  unfold transformed, triangle.
  destruct (mode_eqb (mode st) EUCLIDEAN).
  - intros E1 E2. inversion E1. inversion E2. reflexivity.
  - destruct (dict_lookup "A" (points st)) as [A|e]; cbn [Py.bind]; [|discriminate].
    destruct (dict_lookup "B" (points st)) as [B|e]; cbn [Py.bind]; [|discriminate].
    destruct (dict_lookup "C" (points st)) as [C|e]; cbn [Py.bind]; [|discriminate].
    destruct (shear_factor st) as [k|e]; cbn [Py.bind]; [|discriminate].
    apply mapM_rows. intros a p q.
    destruct (of_int (snd a)) as [y|e]; cbn [Py.bind]; [|discriminate].
    destruct (of_int (fst a)) as [x|e]; cbn [Py.bind]; [|discriminate].
    apply to_screen_row.
Qed.

End Shear.

(* ===================================================================== *)
(** * Further properties of ℝ²confusion.py *)
(* ===================================================================== *)

Section FiniteFieldMore.
Import Confusion.

Lemma finite_field_in (radius x y : Z) :
  In (x, y) (finite_field_points radius) <->
  In x range_m2_3 /\ In y range_m2_3 /\
  (x * x + y * y) mod 11 = (radius / 10) mod 11.
Proof.
  unfold finite_field_points. rewrite in_flat_map. split.
  - intros (x' & Hx' & Hin). apply in_flat_map in Hin.
    destruct Hin as (y' & Hy' & Hin).
    destruct (Z.eqb_spec ((x' * x' + y' * y') mod 11) ((radius / 10) mod 11))
      as [E|E]; [|contradiction].
    destruct Hin as [Hin|[]]. inversion Hin; subst. auto.
  - intros (Hx & Hy & E). exists x. split; [assumption|].
    apply in_flat_map. exists y. split; [assumption|].
    rewrite E, Z.eqb_refl. now left.
Qed.

Lemma range_m2_3_opp x : In x range_m2_3 -> In (- x) range_m2_3.
Proof. cbn. intros [<-|[<-|[<-|[<-|[<-|[]]]]]]; cbn; auto 6. Qed.

(** X16: the emitted lattice is symmetric: with a point it contains the
    mirror images in both axes and in the diagonal. *)
Theorem finite_field_points_symmetric (radius x y : Z) :
  In (x, y) (finite_field_points radius) ->
  In (- x, y) (finite_field_points radius) /\
  In (x, - y) (finite_field_points radius) /\
  In (y, x) (finite_field_points radius).
Proof.
  rewrite !finite_field_in. intros (Hx & Hy & E).
  repeat split; auto using range_m2_3_opp.
  - now replace (- x * - x) with (x * x) by ring.
  - now replace (- y * - y) with (y * y) by ring.
  - now rewrite Z.add_comm.
Qed.

(** X17: which radii give an empty picture: the sums of two squares on the
    grid are 0, 1, 2, 4, 5 and 8, so nothing is emitted exactly when
    [(radius // 10) % 11] is 3, 6, 7, 9 or 10. *)
Theorem finite_field_points_empty (radius : Z) :
  finite_field_points radius = [] <->
  In ((radius / 10) mod 11) [3; 6; 7; 9; 10].
Proof.
  unfold finite_field_points.
  pose proof (Z.mod_pos_bound (radius / 10) 11 ltac:(lia)) as Ht.
  remember ((radius / 10) mod 11) as t eqn:Et. clear Et.
  assert (Hc : t = 0 \/ t = 1 \/ t = 2 \/ t = 3 \/ t = 4 \/ t = 5 \/
               t = 6 \/ t = 7 \/ t = 8 \/ t = 9 \/ t = 10) by lia.
  destruct Hc as [->|[->|[->|[->|[->|[->|[->|[->|[->|[->| ->]]]]]]]]]];
    vm_compute; split; intro Hx; try discriminate; try tauto;
    repeat (destruct Hx as [Hx|Hx]; try discriminate); try contradiction.
Qed.

End FiniteFieldMore.

Section CrossSectionEvents.
Import Confusion ConfusionDraw.
Context {F : Type} `{PyFloat F} `{PyMath F}.

Lemma cross_events_running (evs : list event) (st : CrossSectionViz F)
      (r : bool) (sr : CrossSectionViz F * bool) :
  foldM handle_event evs (st, r) = Ok sr ->
  snd sr = r && negb (existsb is_quit evs).
Proof.
  revert st r. induction evs as [|ev evs IH]; intros st r.
  - cbn. intro E. inversion E. cbn. now rewrite andb_true_r.
  - cbn [foldM existsb].
    destruct (handle_event (st, r) ev) as [[st1 r1]|e] eqn:He; [|discriminate].
    intro E. rewrite (IH st1 r1 E).
    destruct ev as [|[]|]; cbn [handle_event is_quit orb negb] in *;
      try (destruct (lit 1 10); cbn [Py.bind] in He; [|discriminate]);
      inversion He; subst; try reflexivity.
    now rewrite andb_false_r.
Qed.

(** X25: a frame whose events contain [QUIT] is the last one: it is still
    carried out in full, and no later input is read. *)
Theorem cross_section_run_stops_at_quit
        (st : CrossSectionViz F) (inp : frame_input) (rest : list frame_input) :
  (existsb is_quit (events inp) = true ->
   run st (inp :: rest) = run st [inp]) /\
  (existsb is_quit (events inp) = false ->
   run st (inp :: rest) = (r <- frame st inp ;; run (fst r) rest)).
Proof.
  cbn [run].
  destruct (frame st inp) as [[st1 r]|e] eqn:Hf; cbn [Py.bind fst snd];
    [|split; reflexivity].
  assert (Hr : r = negb (existsb is_quit (events inp))).
  { unfold frame in Hf.
    destruct (advance st (tick_ms inp)) as [t|e]; cbn [Py.bind] in Hf; [|discriminate].
    destruct (if animate (set_time st t) then _ else _) as [s1|e];
      cbn [Py.bind] in Hf; [|discriminate].
    apply cross_events_running in Hf. exact Hf. }
  rewrite Hr. split; intros ->; reflexivity.
Qed.

Lemma cross_to_screen_row (x y : num F) (ox ox' oy : Z) (p q : Z * Z) :
  to_screen x y ox oy = Ok p -> to_screen x y ox' oy = Ok q -> snd p = snd q.
Proof.
  unfold to_screen.
  destruct (to_screen1 (WIDTH / 2 + ox) false x) as [sx|e]; cbn [Py.bind]; [|discriminate].
  destruct (to_screen1 (WIDTH / 2 + ox') false x) as [sx'|e]; cbn [Py.bind]; [|discriminate].
  destruct (to_screen1 (HEIGHT / 2 + oy) true y) as [sy|e]; cbn [Py.bind]; [|discriminate].
  intros E1 E2. inversion E1. inversion E2. reflexivity.
Qed.

(** X21: every pair of centres [draw_complex_projection_view] draws lies on
    one screen row, so the projection lines are horizontal; and there is
    one pair for every third solution. *)
Theorem projection_lines_horizontal (st : CrossSectionViz F)
        (sols : list (complex F * complex F)) (ps : list projection) :
  complex_circle_solutions (radius st) = Ok sols ->
  draw_complex_projection_view st = Ok ps ->
  Forall (fun p => snd (real_pt p) = snd (proj_pt p)) ps /\
  List.length ps = List.length (every_third sols).
Proof.
  intros Hs. unfold draw_complex_projection_view. rewrite Hs. cbn [Py.bind].
  generalize 0. generalize (every_third sols). clear Hs.
  intros l. revert ps. induction l as [|[z1 z2] l IH]; intros ps i.
  - cbn. intro E. inversion E. split; [constructor | reflexivity].
  - cbn [enumerate_from mapM].
    destruct (project (show_projections st) (i, (z1, z2))) as [p|e] eqn:Ep;
      [|discriminate].
    destruct (mapM _ (enumerate_from (i + 1) l)) as [ps'|e] eqn:Em; [|discriminate].
    intro E. inversion E; subst ps. destruct (IH ps' (i + 1) Em) as [Hall Hlen].
    split; [constructor; [|exact Hall] | cbn [List.length]; now rewrite Hlen].
    unfold project in Ep.
    destruct (to_screen (Float (fst z1)) (Float (fst z2)) (-200) 0) as [a|e] eqn:Ea;
      cbn [Py.bind] in Ep; [|discriminate].
    destruct (to_screen (Float (fst z1)) (Float (fst z2)) 200 0) as [b|e] eqn:Eb;
      cbn [Py.bind] in Ep; [|discriminate].
    inversion Ep. cbn [real_pt proj_pt].
    eapply cross_to_screen_row; eassumption.
Qed.

End CrossSectionEvents.

(* ===================================================================== *)
(** * Over the reals: sizes and bounds of what is drawn *)
(* ===================================================================== *)

Section DrawnSizes.
Import Ele EleDraw.
Open Scope R_scope.

Lemma R_trunc_between (v : R) (a b : Z) :
  (0 <= a)%Z -> IZR a <= v < IZR b + 1 -> (a <= R_trunc v <= b)%Z.
Proof.
  intros Ha [Hlo Hhi]. unfold R_trunc.
  assert (0 <= v) by (apply Rle_trans with (IZR a); [apply IZR_le; lia | exact Hlo]).
  destruct (Rle_dec 0 v) as [_|Hn]; [|contradiction].
  destruct (base_Int_part v) as [H1 H2]. split.
  - assert (IZR a < IZR (Int_part v + 1)) by (rewrite plus_IZR; lra).
    apply lt_IZR in H0. lia.
  - assert (IZR (Int_part v) < IZR (b + 1)) by (rewrite plus_IZR; lra).
    apply lt_IZR in H0. lia.
Qed.

Lemma R_trunc_shrinks (v : R) : Rabs (IZR (R_trunc v)) <= Rabs v.
Proof.
  unfold R_trunc. destruct (Rle_dec 0 v) as [Hp|Hn].
  - destruct (base_Int_part v) as [H1 H2].
    assert (0 <= IZR (Int_part v)).
    { assert (IZR (-1) < IZR (Int_part v)) by lra.
      apply lt_IZR in H. apply IZR_le. lia. }
    rewrite !Rabs_pos_eq by lra. exact H1.
  - destruct (base_Int_part (- v)) as [H1 H2].
    assert (0 <= IZR (Int_part (- v))).
    { assert (IZR (-1) < IZR (Int_part (- v))) by lra.
      apply lt_IZR in H. apply IZR_le. lia. }
    rewrite opp_IZR, Rabs_Ropp, Rabs_pos_eq by lra.
    rewrite (Rabs_left v) by lra. exact H1.
Qed.

Lemma pulse_exact (st : GeometryViz R) :
  pulse st = Ok (sin (time_R (pulse_phase st)) * (5 / 10) + 1).
Proof.
  unfold pulse, lit.
  cbn [int_truediv of_int fadd fmul msin R_float R_math].
  unfold R_int_truediv. cbn [Z.eqb].
  destruct (pulse_phase st); reflexivity.
Qed.

(** X12: over the reals the line thickness of [draw_euclidean_elements] is
    always 1, 2, 3 or 4, so the five glow lines are drawn with widths
    [thickness + 5] down to [thickness + 1], between 2 and 9. *)
Theorem glow_widths_within (st : GeometryViz R) :
  exists t : Z,
    thickness st = Ok t /\ (1 <= t <= 4)%Z /\
    glow_widths st = Ok [t + 5; t + 4; t + 3; t + 2; t + 1]%Z.
Proof.
  unfold glow_widths, thickness. rewrite pulse_exact.
  cbn [Py.bind of_int fmul ftrunc R_float].
  eexists. split; [reflexivity|]. split; [|reflexivity].
  pose proof (SIN_bound (time_R (pulse_phase st))) as [Hlo Hhi].
  apply R_trunc_between; [lia|]. lra.
Qed.

Lemma double_exact (x : num R) : double x = Ok (time_R x * 2).
Proof.
  destruct x as [z|f]; cbn [double of_int fmul R_float Py.bind time_R];
    [|reflexivity].
  now rewrite mult_IZR.
Qed.

(** X13: over the reals the point being dragged is drawn with a radius
    between 12 and 16, every other point with radius 8. *)
Theorem point_size_within (st : GeometryViz R) (name : string) :
  exists s : Z,
    point_size st name = Ok s /\
    (dragging st = Some name -> 12 <= s <= 16)%Z /\
    (dragging st <> Some name -> s = 8%Z).
Proof.
  unfold point_size. destruct (dragging st) as [d|] eqn:Ed.
  - destruct (String.eqb_spec d name) as [->|Hne].
    + rewrite double_exact.
      cbn [Py.bind of_int fmul fadd ftrunc msin R_float R_math].
      eexists. split; [reflexivity|]. split; [|intro Hn; now elim Hn].
      intros _. pose proof (SIN_bound (time_R (pulse_phase st) * 2)) as [Hlo Hhi].
      apply R_trunc_between; [lia|]. lra.
    + exists 8%Z. split; [reflexivity|]. split; [|reflexivity].
      intro E. inversion E. contradiction.
  - exists 8%Z. split; [reflexivity|]. split; [discriminate | reflexivity].
Qed.

Lemma shear_factor_exact (st : GeometryViz R) :
  shear_factor st = Ok (3 / 10 * sin (time_R (time st) * (5 / 10))).
Proof.
  unfold shear_factor, lit.
  cbn [int_truediv of_int fmul msin R_float R_math].
  unfold R_int_truediv. cbn [Z.eqb Py.bind].
  destruct (time st); reflexivity.
Qed.

Lemma to_screen_R (x y : R) :
  to_screen (F := R) (Float x) (Float y)
  = Ok (R_trunc (900 / 2 + x), R_trunc (600 / 2 - y)).
Proof.
  unfold to_screen.
  cbn [int_truediv float_of fadd fsub ftrunc R_float].
  unfold R_int_truediv. cbn [Z.eqb Py.bind]. reflexivity.
Qed.

Lemma to_screen_R_int (x y : Z) :
  to_screen (F := R) (Int x) (Int y)
  = Ok (R_trunc (900 / 2 + IZR x), R_trunc (600 / 2 - IZR y)).
Proof.
  unfold to_screen.
  cbn [int_truediv float_of of_int fadd fsub ftrunc R_float].
  unfold R_int_truediv. cbn [Z.eqb Py.bind]. reflexivity.
Qed.

Lemma shear_R (st : GeometryViz R) :
  exists k : R,
    shear_factor st = Ok k /\ - (3 / 10) <= k <= 3 / 10 /\
    (time_R (time st) = 0 -> k = 0 /\ transformed st = triangle st).
Proof.
  rewrite shear_factor_exact. eexists. split; [reflexivity|].
  pose proof (SIN_bound (time_R (time st) * (5 / 10))) as [Hlo Hhi].
  split; [lra|]. intro Ht. rewrite Ht, Rmult_0_l, sin_0.
  split; [lra|].
  unfold transformed, triangle. rewrite shear_factor_exact.
  destruct (mode_eqb (mode st) EUCLIDEAN); [reflexivity|].
  destruct (dict_lookup "A" (points st)) as [A|e]; cbn [Py.bind]; [|reflexivity].
  destruct (dict_lookup "B" (points st)) as [B|e]; cbn [Py.bind]; [|reflexivity].
  destruct (dict_lookup "C" (points st)) as [C|e]; cbn [Py.bind]; [|reflexivity].
  rewrite Ht, Rmult_0_l, sin_0, Rmult_0_r.
  assert (Hv : forall p : point,
             (y <- of_int (snd p) ;;
              x <- of_int (fst p) ;;
              to_screen (F := R) (Float (fadd x (fmul 0 y))) (Int (snd p)))
             = to_screen (Int (fst p)) (Int (snd p))).
  { intro p. cbn [of_int fadd fmul R_float Py.bind].
    unfold to_screen. cbn [float_of of_int]. 
    now rewrite Rmult_0_l, Rplus_0_r. }
  cbn [mapM]. rewrite !Hv. reflexivity.
Qed.

(** X15: over the reals the shear factor stays within [-0.3, 0.3], and at
    time 0, the state [__init__] sets, it is 0 and the sheared triangle
    is drawn on top of the original one. *)
Theorem shear_bounded_and_trivial_at_start (st : GeometryViz R) :
  exists k : R,
    shear_factor st = Ok k /\ - (3 / 10) <= k <= 3 / 10 /\
    (time_R (time st) = 0 -> k = 0 /\ transformed st = triangle st).
Proof. exact (shear_R st). Qed.

Close Scope R_scope.
End DrawnSizes.

(* ===================================================================== *)
(** * Over the reals: the curve samples and the slices *)
(* ===================================================================== *)

Section CurveOverReals.
Import Numpy Confusion ConfusionDraw.
Open Scope R_scope.

Lemma solutions_R (r : Z) :
  complex_circle_solutions (F := R) r
  = Ok (map (fun tc => solution_R r (fst tc) (snd tc))
            (list_prod (linspace_R 0 (2 * PI) 40)
                       (linspace_R (- (5 / 10)) (5 / 10) 5))).
Proof.
  assert (Hts : real_ts (F := R) = Ok (linspace_R 0 (2 * PI) 40)).
  { unfold real_ts. cbn [of_int fmul mpi R_float R_math Py.bind].
    apply linspace_exact. lia. }
  assert (Hcs : complex_params (F := R)
                = Ok (linspace_R (- (5 / 10)) (5 / 10) 5)).
  { unfold complex_params, lit.
    cbn [int_truediv fneg R_float]. unfold R_int_truediv.
    cbn [Z.eqb Py.bind]. apply linspace_exact. lia. }
  unfold complex_circle_solutions. rewrite Hts. cbn [Py.bind].
  rewrite (mapM_total _ (fun t => map (solution_R r t)
                                      (linspace_R (- (5 / 10)) (5 / 10) 5))).
  - cbn [Py.bind]. rewrite (map_list_prod (solution_R r)). reflexivity.
  - intros t _. rewrite Hcs. cbn [Py.bind].
    apply mapM_total. intros c _. apply solution_exact.
Qed.

(** X19: over the reals the real parts of every sampled pair, which are what
    [draw_complex_projection_view] plots, lie on the circle of radius
    [r·cosh c] for the pair's imaginary parameter [c], and the imaginary
    parts on the circle of radius [r·sinh c]; so no plotted point lies
    inside the real circle of radius [r]. *)
Theorem projected_points_outside_circle (r : Z) :
  exists sols : list (complex R * complex R),
    complex_circle_solutions (F := R) r = Ok sols /\
    Forall (fun zz =>
              exists c : R,
                - (1 / 2) <= c <= 1 / 2 /\
                fst (fst zz) * fst (fst zz) + fst (snd zz) * fst (snd zz)
                = (IZR r * cosh c) * (IZR r * cosh c) /\
                snd (fst zz) * snd (fst zz) + snd (snd zz) * snd (snd zz)
                = (IZR r * sinh c) * (IZR r * sinh c) /\
                IZR r * IZR r
                <= fst (fst zz) * fst (fst zz) + fst (snd zz) * fst (snd zz))
           sols.
Proof.
  eexists. split; [apply solutions_R|].
  apply Forall_forall. intros zz Hzz.
  apply in_map_iff in Hzz. destruct Hzz as ([t c] & <- & Hin).
  apply in_prod_iff in Hin. destruct Hin as [_ Hc].
  pose proof (linspace_R_range (- (5 / 10)) (5 / 10) 5 ltac:(lra)) as Hr.
  rewrite Forall_forall in Hr. specialize (Hr c Hc).
  exists c. split; [lra|].
  cbn [fst snd]. rewrite solution_R_parts. cbn [fst snd].
  pose proof (sin2_cos2 t) as Ht. unfold Rsqr in Ht.
  pose proof (cosh2_minus_sinh2 c) as Hch.
  set (S := sin t) in *. set (C := cos t) in *.
  set (ch := cosh c) in *. set (sh := sinh c) in *.
  assert (E1 : IZR r * (C * ch) * (IZR r * (C * ch))
               + IZR r * (S * ch) * (IZR r * (S * ch))
               = IZR r * ch * (IZR r * ch)).
  { transitivity (IZR r * ch * (IZR r * ch) * (S * S + C * C)); [ring|].
    rewrite Ht. ring. }
  assert (E2 : IZR r * (- S * sh) * (IZR r * (- S * sh))
               + IZR r * (C * sh) * (IZR r * (C * sh))
               = IZR r * sh * (IZR r * sh)).
  { transitivity (IZR r * sh * (IZR r * sh) * (S * S + C * C)); [ring|].
    rewrite Ht. ring. }
  split; [exact E1|]. split; [exact E2|].
  rewrite E1.
  replace (IZR r * ch * (IZR r * ch))
    with (IZR r * IZR r * (1 + sh * sh))
    by (rewrite <- Hch; ring).
  pose proof (Rle_0_sqr (IZR r)) as H1. pose proof (Rle_0_sqr sh) as H2.
  unfold Rsqr in H1, H2. nra.
Qed.

(** X20: over the reals the first and the last value of the real parameter
    are 0 and 2π, and they give the same pair for every imaginary
    parameter: the sampler visits its starting points twice. *)
Theorem curve_samples_close_up (r : Z) :
  (exists ts : list R, real_ts (F := R) = Ok (0 :: ts ++ [2 * PI])) /\
  forall c : R, solution (F := R) r (2 * PI) c = solution r 0 c.
Proof.
  split.
  - unfold real_ts. cbn [of_int fmul mpi R_float R_math Py.bind].
    rewrite linspace_exact by lia. unfold linspace_R.
    change (seq 0 40) with (0%nat :: seq 1 38 ++ [39%nat]).
    cbn [map]. rewrite map_app. cbn [map Nat.eqb Nat.sub].
    eexists. f_equal. apply (f_equal2 cons); [|reflexivity].
    cbn [Z.of_nat]. lra.
  - intro c. rewrite !solution_exact. f_equal.
    unfold solution_R. now rewrite cos_2PI, sin_2PI, cos_0, sin_0.
Qed.

(** X22: over the reals, while [s² + x² <= r²] the absolute value of [y_val]
    changes nothing: the sampled point lies on the sphere
    [x² + y² + s² = r²], with [y >= 0]. *)
Theorem y_val_on_sphere (radius : Z) (s x : R) :
  s * s + x * x <= IZR radius * IZR radius ->
  exists y : R,
    y_val (F := R) radius s x = Ok y /\ 0 <= y /\
    x * x + y * y + s * s = IZR radius * IZR radius.
Proof.
  intro Hin. unfold y_val.
  cbn [fpow2 of_int fsqrt fabs fsub fmul R_float Py.bind].
  rewrite R_sqrt_nonneg by apply Rabs_pos.
  eexists. split; [reflexivity|]. split; [apply sqrt_pos|].
  rewrite Z.pow_2_r, mult_IZR.
  rewrite Rabs_pos_eq by lra. rewrite sqrt_sqrt by lra. ring.
Qed.

Lemma y_val_on_sphere_witness :
  0 * 0 + 50 * 50 <= IZR 80 * IZR 80 /\
  exists y : R,
    y_val (F := R) 80 0 50 = Ok y /\ 0 <= y /\
    50 * 50 + y * y + 0 * 0 = IZR 80 * IZR 80.
Proof.
  split; [lra|]. apply (y_val_on_sphere 80 0 50). lra.
Defined.

(** X23: over the reals the radius of the circle of the fourth quadrant of
    [draw_four_d_slices] is never below 10 and never above the larger of
    10 and [self.radius]. *)
Theorem radius_adjusted_within (st : CrossSectionViz R) :
  exists n : Z,
    radius_adjusted st = Ok n /\ (10 <= n <= Z.max 10 (radius st))%Z.
Proof.
  unfold radius_adjusted.
  cbn [of_int fsub fabs fadd fltb ftrunc R_float Py.bind].
  set (v := IZR (radius st) - Rabs (slice_real_im st + slice_imaginary st)).
  pose proof (Rabs_pos (slice_real_im st + slice_imaginary st)) as Habs.
  unfold R_ltb. destruct (Rlt_dec 10 v) as [Hgt|Hle].
  - eexists. split; [reflexivity|].
    assert (Hr : (10 < radius st)%Z) by (apply lt_IZR; unfold v in Hgt; lra).
    rewrite Z.max_r by lia.
    apply R_trunc_between; [lia|]. unfold v in *. lra.
  - exists 10%Z. split; [reflexivity | lia].
Qed.

Lemma rational_point_exact (angle : R) :
  rational_point angle
  = Ok (R_trunc (40 * cos angle), R_trunc (40 * sin angle)).
Proof. reflexivity. Qed.

(** X18: over the reals every lattice point of the ℚ̄ quadrant lies in the
    closed disc of radius 40: truncation toward zero never moves a point
    outwards.  There are 20 of them. *)
Theorem rational_points_in_disc :
  exists pts : list (Z * Z),
    rational_points (F := R) = Ok pts /\
    List.length pts = 20%nat /\
    Forall (fun p => (fst p * fst p + snd p * snd p <= 1600)%Z) pts.
Proof.
  unfold rational_points.
  cbn [of_int fmul mpi R_float R_math Py.bind].
  rewrite linspace_exact by lia. cbn [Py.bind].
  rewrite (mapM_total _ (fun a => (R_trunc (40 * cos a), R_trunc (40 * sin a))))
    by (intros; apply rational_point_exact).
  eexists. split; [reflexivity|].
  split; [now rewrite length_map, linspace_R_length|].
  apply Forall_forall. intros p Hp. apply in_map_iff in Hp.
  destruct Hp as (a & <- & _). cbn [fst snd].
  apply le_IZR. rewrite plus_IZR, !mult_IZR.
  pose proof (R_trunc_shrinks (40 * cos a)) as Hx.
  pose proof (R_trunc_shrinks (40 * sin a)) as Hy.
  pose proof (sin2_cos2 a) as Hsc. unfold Rsqr in Hsc.
  set (X := IZR (R_trunc (40 * cos a))) in *.
  set (Y := IZR (R_trunc (40 * sin a))) in *.
  assert (HX : X * X <= (40 * cos a) * (40 * cos a)).
  { pose proof (Rabs_pos X). pose proof (Rabs_pos (40 * cos a)).
    replace (X * X) with (Rabs X * Rabs X)
      by (rewrite <- Rabs_mult; apply Rabs_pos_eq; apply Rle_0_sqr).
    replace (40 * cos a * (40 * cos a)) with (Rabs (40 * cos a) * Rabs (40 * cos a))
      by (rewrite <- Rabs_mult; apply Rabs_pos_eq; apply Rle_0_sqr).
    nra. }
  assert (HY : Y * Y <= (40 * sin a) * (40 * sin a)).
  { pose proof (Rabs_pos Y). pose proof (Rabs_pos (40 * sin a)).
    replace (Y * Y) with (Rabs Y * Rabs Y)
      by (rewrite <- Rabs_mult; apply Rabs_pos_eq; apply Rle_0_sqr).
    replace (40 * sin a * (40 * sin a)) with (Rabs (40 * sin a) * Rabs (40 * sin a))
      by (rewrite <- Rabs_mult; apply Rabs_pos_eq; apply Rle_0_sqr).
    nra. }
  nra.
Qed.

Close Scope R_scope.
End CurveOverReals.

(* ===================================================================== *)
(** * Over the reals: the clocks of GeometryViz and the arrow keys *)
(* ===================================================================== *)

Section ClocksOverReals.
Import Ele EleDraw.
Open Scope R_scope.

Lemma hit_test_R_total (mp : Z * Z) (d : dict) :
  exists h, hit_test (F := R) mp d = Ok h.
Proof.
  induction d as [|[name pos] d IH]; [eexists; reflexivity|].
  cbn [hit_test fst snd]. rewrite to_screen_R_int.
  cbn [Py.bind of_int fsqrt R_float fst snd].
  rewrite R_sqrt_nonneg by (apply IZR_le; nia).
  cbn [Py.bind]. destruct (fltb _ _); [eexists; reflexivity | exact IH].
Qed.

Lemma handle_mouse_R_total (st : GeometryViz R) mp pressed :
  exists st', handle_mouse st mp pressed = Ok st'.
Proof.
  unfold handle_mouse. destruct pressed; [|eexists; reflexivity].
  destruct (dragging st); [eexists; reflexivity|].
  destruct (hit_test_R_total mp (points st)) as [h ->]. cbn [Py.bind].
  destruct h as [[name off]|]; eexists; reflexivity.
Qed.

Lemma handle_event_time (sr : GeometryViz R * bool) (ev : event) :
  time (fst (handle_event sr ev)) = time (fst sr).
Proof. destruct sr as [st r], ev as [|[]|]; reflexivity. Qed.

Lemma events_keep_time (evs : list event) (sr : GeometryViz R * bool) :
  time (fst (fold_left handle_event evs sr)) = time (fst sr).
Proof.
  revert sr. induction evs as [|ev evs IH]; intro sr; [reflexivity|].
  cbn [fold_left]. rewrite IH. apply handle_event_time.
Qed.

Lemma handle_mouse_time (st st' : GeometryViz R) mp pressed :
  handle_mouse st mp pressed = Ok st' -> time st' = time st.
Proof.
  unfold handle_mouse. destruct pressed.
  - destruct (dragging st).
    + intro E; inversion E; reflexivity.
    + destruct (hit_test mp (points st)) as [[[name off]|]|e];
        cbn [Py.bind]; intro E; inversion E; reflexivity.
  - intro E; inversion E; reflexivity.
Qed.

Lemma iadd_R (x : num R) (d : R) : iadd x d = Ok (Float (time_R x + d)).
Proof. destruct x; reflexivity. Qed.

(** One iteration over the reals: it returns, the flag is false exactly
    when the events hold a [QUIT], [time] grows by the tick, and with
    the animation on the two phases grow by 3 and by 1/2 times the
    tick. *)
Lemma frame_R (st : GeometryViz R) (inp : frame_input) :
  exists st',
    frame st inp = Ok (st', negb (existsb is_quit (events inp))) /\
    time_R (time st') = time_R (time st) + IZR (tick_ms inp) / 1000 /\
    (forallb (fun ev => negb (is_space ev)) (events inp) = true ->
     animate st' = animate st) /\
    (animate st = true ->
     time_R (pulse_phase st')
     = time_R (pulse_phase st) + 3 * (IZR (tick_ms inp) / 1000) /\
     time_R (rotation_angle st')
     = time_R (rotation_angle st) + IZR (tick_ms inp) / 1000 / 2) /\
    (animate st = false -> phases st' = phases st).
Proof.
  assert (E : exists st1,
             (ms <- of_int (tick_ms inp) ;;
              k <- lit 1000 1 ;;
              dt <- fdiv ms k ;;
              t <- iadd (time st) dt ;;
              (if animate st then
                 c3 <- of_int 3 ;;
                 ph <- iadd (pulse_phase st) (fmul dt c3) ;;
                 c5 <- lit 5 10 ;;
                 ang <- iadd (rotation_angle st) (fmul dt c5) ;;
                 Ok (set_clock st t ph ang)
               else Ok (set_clock st t (pulse_phase st) (rotation_angle st))))
             = Ok st1 /\
             time_R (time st1) = time_R (time st) + IZR (tick_ms inp) / 1000 /\
             animate st1 = animate st /\
             (animate st = true ->
              time_R (pulse_phase st1)
              = time_R (pulse_phase st) + 3 * (IZR (tick_ms inp) / 1000) /\
              time_R (rotation_angle st1)
              = time_R (rotation_angle st) + IZR (tick_ms inp) / 1000 / 2) /\
             (animate st = false -> phases st1 = phases st)).
  { unfold lit. cbn [of_int int_truediv fdiv fmul R_float Py.bind].
    unfold R_int_truediv. cbn [Z.eqb Py.bind].
    rewrite R_div_nonzero by lra. cbn [Py.bind].
    rewrite !iadd_R. cbn [Py.bind].
    destruct (animate st) eqn:Ha.
    - eexists. split; [reflexivity|].
      cbn [time pulse_phase rotation_angle animate set_clock time_R].
      split; [field|]. split; [exact Ha|].
      split; [intros _; split; field | discriminate].
    - eexists. split; [reflexivity|].
      cbn [time pulse_phase rotation_angle animate set_clock time_R].
      split; [field|]. split; [exact Ha|].
      split; [discriminate | reflexivity]. }
  destruct E as (st1 & E1 & Ht & Han & Hph & Hfr).
  unfold frame.
  pose proof (events_running (events inp) st1 true) as Hr.
  pose proof (events_keep_time (events inp) (st1, true)) as Hti.
  pose proof (events_keep_phases (events inp) (st1, true)) as Hpi.
  pose proof (events_keep_animate (events inp) (st1, true)) as Hai.
  destruct (handle_mouse_R_total
              (fst (fold_left handle_event (events inp) (st1, true)))
              (mouse_pos inp) (mouse_pressed inp)) as [st3 Hm].
  exists st3. split.
  - revert E1.
    destruct (of_int (tick_ms inp)) as [ms|e]; cbn [Py.bind]; [|discriminate].
    destruct (lit 1000 1) as [k|e]; cbn [Py.bind]; [|discriminate].
    destruct (fdiv ms k) as [dt|e]; cbn [Py.bind]; [|discriminate].
    destruct (iadd (time st) dt) as [t|e]; cbn [Py.bind]; [|discriminate].
    intros ->. cbn [Py.bind].
    destruct (fold_left handle_event (events inp) (st1, true)) as [st2 running].
    cbn [fst snd andb] in *. rewrite Hm. cbn [Py.bind]. now rewrite Hr.
  - pose proof (handle_mouse_time _ _ _ _ Hm) as Hmt.
    pose proof (handle_mouse_keeps _ _ _ _ Hm) as [Hmp Hma].
    cbn [fst] in *.
    assert (Hp3 : phases st3 = phases st1) by (now rewrite Hmp, Hpi).
    unfold phases in Hp3. injection Hp3 as Hp3a Hp3b.
    split; [now rewrite Hmt, Hti|].
    split; [intro Hev; now rewrite Hma, (Hai Hev)|].
    split.
    + intro Ha. rewrite Hp3a, Hp3b. exact (Hph Ha).
    + intro Ha. unfold phases. rewrite Hp3a, Hp3b. exact (Hfr Ha).
Qed.

Lemma run_clock_R (inps : list frame_input) (st : GeometryViz R) :
  exists st',
    run st inps = Ok st' /\
    time_R (time st') = time_R (time st) + IZR (run_ms inps) / 1000.
Proof.
  revert st. induction inps as [|inp inps IH]; intro st.
  - exists st. split; [reflexivity|]. cbn [run_ms]. lra.
  - destruct (frame_R st inp) as (st1 & Hf & Ht & _).
    cbn [run run_ms]. rewrite Hf. cbn [Py.bind fst snd].
    destruct (existsb is_quit (events inp)); cbn [negb].
    + exists st1. split; [reflexivity | exact Ht].
    + destruct (IH st1) as (st' & Hr & Ht').
      exists st'. split; [exact Hr|].
      rewrite Ht', Ht, plus_IZR. lra.
Qed.

(** X9: over the reals the state update of a run never raises, and
    [self.time] ends as its first value plus the milliseconds of the
    frames gone through, divided by 1000: neither the events, the pointer
    nor the animation switch take part in it. *)
Theorem time_counts_every_frame (inps : list frame_input) (st : GeometryViz R) :
  exists st',
    run st inps = Ok st' /\
    time_R (time st') = time_R (time st) + IZR (run_ms inps) / 1000.
Proof. exact (run_clock_R inps st). Qed.

(** X10: over the reals, while the animation is on and no frame holds the
    space key, the pulse phase advances 3 times as fast as [self.time]
    and the rotation angle half as fast. *)
Theorem phases_follow_time (inps : list frame_input) (st st' : GeometryViz R) :
  animate st = true ->
  forallb (fun inp => forallb (fun ev => negb (is_space ev)) (events inp))
          inps = true ->
  run st inps = Ok st' ->
  time_R (pulse_phase st') - time_R (pulse_phase st)
  = 3 * (time_R (time st') - time_R (time st)) /\
  time_R (rotation_angle st') - time_R (rotation_angle st)
  = (time_R (time st') - time_R (time st)) / 2.
Proof.
  revert st. induction inps as [|inp inps IH]; intros st Ha Hin Hrun.
  - inversion Hrun; subst. split; lra.
  - cbn [forallb] in Hin. apply andb_prop in Hin. destruct Hin as [Hevs Hin].
    destruct (frame_R st inp) as (st1 & Hf & Ht & Han & Hph & _).
    destruct (Hph Ha) as [Hp Hr].
    cbn [run] in Hrun. rewrite Hf in Hrun. cbn [Py.bind fst snd] in Hrun.
    destruct (negb (existsb is_quit (events inp))).
    + assert (Ha1 : animate st1 = true) by (now rewrite (Han Hevs)).
      destruct (IH st1 Ha1 Hin Hrun) as [Hp' Hr']. split; lra.
    + inversion Hrun; subst. split; lra.
Qed.

Close Scope R_scope.
End ClocksOverReals.

Section ArrowKeys.
Import Confusion ConfusionDraw.
Open Scope R_scope.

(** X24: over the reals the events of a frame move the two slice parameters
    by a tenth of the net number of arrow keys, up less down for
    [slice_real_im] and right less left for [slice_imaginary], whatever
    their order and whatever other events come between them. *)
Theorem arrow_keys_add_up (evs : list event) (st : CrossSectionViz R) (r : bool) :
  exists st' r',
    foldM handle_event evs (st, r) = Ok (st', r') /\
    slice_real_im st'
    = slice_real_im st + IZR (fst (net_arrows evs)) / 10 /\
    slice_imaginary st'
    = slice_imaginary st + IZR (snd (net_arrows evs)) / 10.
Proof.
  revert st r. induction evs as [|ev evs IH]; intros st r.
  - exists st, r. split; [reflexivity|]. cbn [net_arrows fold_right fst snd].
    split; lra.
  - assert (E : exists st1 r1,
               handle_event (st, r) ev = Ok (st1, r1) /\
               slice_real_im st1
               = slice_real_im st + IZR (fst (arrow_step ev)) / 10 /\
               slice_imaginary st1
               = slice_imaginary st + IZR (snd (arrow_step ev)) / 10).
    { destruct ev as [|[]|]; cbn [handle_event arrow_step fst snd];
        unfold lit; cbn [int_truediv R_float]; unfold R_int_truediv;
        cbn [Z.eqb Py.bind fadd fsub R_float];
        eexists; eexists; (split; [reflexivity|]);
        cbn [slice_real_im slice_imaginary set_slices set_flags set_view_mode];
        split; lra. }
    destruct E as (st1 & r1 & E1 & Ha & Hb).
    destruct (IH st1 r1) as (st' & r' & E' & Ha' & Hb').
    exists st', r'. cbn [foldM]. rewrite E1. cbn [Py.bind].
    split; [exact E'|].
    change (net_arrows (ev :: evs))
      with (fst (arrow_step ev) + fst (net_arrows evs),
            snd (arrow_step ev) + snd (net_arrows evs))%Z.
    cbn [fst snd]. rewrite !plus_IZR. split; lra.
Qed.

Close Scope R_scope.
End ArrowKeys.

(* ===================================================================== *)
(** * The grid *)
(* ===================================================================== *)

Section Grid.
Import PyRange Ele EleDraw.

Lemma py_range_in (a b s x : Z) :
  0 < s ->
  In x (py_range a b s) <-> a <= x < b /\ (x - a) mod s = 0.
Proof.
  intro Hs. unfold py_range, range_len.
  destruct (Z.ltb_spec 0 s) as [_|]; [|lia].
  rewrite in_map_iff. split.
  - intros (i & <- & Hi). apply in_seq in Hi.
    assert (Hlt : Z.of_nat i < (b - a + s - 1) / s) by lia.
    assert (Hi' : (Z.of_nat i + 1) * s <= b - a + s - 1).
    { assert (Z.of_nat i + 1 <= (b - a + s - 1) / s) by lia.
      pose proof (Z.mul_div_le (b - a + s - 1) s Hs). nia. }
    split; [nia|].
    replace (a + Z.of_nat i * s - a) with (Z.of_nat i * s) by ring.
    apply Z.mod_mul. lia.
  - intros [[Hlo Hhi] Hm].
    apply Z.mod_divide in Hm; [|lia]. destruct Hm as [q Hq].
    assert (0 <= q) by nia.
    exists (Z.to_nat q). split; [rewrite Z2Nat.id by lia; lia|].
    apply in_seq. split; [lia|]. cbn [Nat.add].
    apply Nat2Z.inj_lt. rewrite Z2Nat.id by lia.
    assert (q < (b - a + s - 1) / s).
    { assert (q + 1 <= (b - a + s - 1) / s)
        by (apply Z.div_le_lower_bound; [lia | nia]).
      lia. }
    rewrite Z2Nat.id by lia. lia.
Qed.

Lemma grid_in (l : draw_line) :
  In l (grid_lines true) <->
  (exists x, 0 <= x < WIDTH /\ x mod GRID_SIZE = 0 /\
             l = {| line_from := (x, 0); line_to := (x, HEIGHT);
                    line_width := 1 |}) \/
  (exists y, 0 < y <= HEIGHT /\ y mod GRID_SIZE = 0 /\
             l = {| line_from := (0, y); line_to := (WIDTH, y);
                    line_width := 1 |}).
Proof.
  unfold grid_lines. cbn [negb]. rewrite in_app_iff, !in_map_iff.
  change WIDTH with 900. change HEIGHT with 600. change GRID_SIZE with 25.
  change (Z.opp 900 / 2) with (-450). change (900 / 2) with 450.
  change (Z.opp 600 / 2) with (-300). change (600 / 2) with 300.
  split.
  - intros [(x & <- & Hx)|(y & <- & Hy)].
    + apply py_range_in in Hx; [|lia]. destruct Hx as [Hx Hm].
      left. exists (450 + x). split; [lia|]. split; [|reflexivity].
      replace (450 + x) with (x - -450 + 0) by ring.
      rewrite Z.add_mod, Hm by lia. reflexivity.
    + apply py_range_in in Hy; [|lia]. destruct Hy as [Hy Hm].
      right. exists (300 - y). split; [lia|]. split; [|reflexivity].
      apply Z.mod_divide in Hm; [|lia]. destruct Hm as [q Hq].
      replace (300 - y) with ((24 - q) * 25) by lia.
      apply Z.mod_mul. lia.
  - intros [(x & Hx & Hm & ->)|(y & Hy & Hm & ->)].
    + left. exists (x - 450). split; [f_equal; f_equal; lia|].
      apply py_range_in; [lia|]. split; [lia|].
      replace (x - 450 - -450) with x by ring. exact Hm.
    + right. exists (300 - y). split; [f_equal; f_equal; lia|].
      apply py_range_in; [lia|]. split; [lia|].
      apply Z.mod_divide in Hm; [|lia]. destruct Hm as [q Hq].
      replace (300 - y - -300) with ((24 - q) * 25) by lia.
      apply Z.mod_mul. lia.
Qed.

(** X11: [draw_elegant_grid] draws nothing when the grid is off.  When it is
    on it draws, with width 1, the vertical line of every multiple of 25
    from 0 to 875 (so the left edge but not the right one), and the
    horizontal line of every multiple of 25 from 25 to 600 (so the row
    [HEIGHT] below the window but not the top edge), and nothing else. *)
Theorem grid_lines_positions {F : Type} `{PyFloat F} (st : GeometryViz F)
        (l : draw_line) :
  In l (draw_elegant_grid st) <->
  show_grid st = true /\
  ((exists x, 0 <= x < WIDTH /\ x mod GRID_SIZE = 0 /\
              l = {| line_from := (x, 0); line_to := (x, HEIGHT);
                     line_width := 1 |}) \/
   (exists y, 0 < y <= HEIGHT /\ y mod GRID_SIZE = 0 /\
              l = {| line_from := (0, y); line_to := (WIDTH, y);
                     line_width := 1 |})).
Proof.
  unfold draw_elegant_grid. destruct (show_grid st).
  - rewrite grid_in. tauto.
  - cbn. split; [tauto | intros [? _]; discriminate].
Qed.

End Grid.

(* ===================================================================== *)
(** * The properties at concrete inputs *)
(* ===================================================================== *)

Section Instances.
Import Numpy Confusion ConfusionDraw.


Lemma run_keeps_point_names_witness :
  exists st' : Ele.GeometryViz b64,
    EleDraw.well_formed (F := b64) Ele.init /\
    Ele.run Ele.init [drag_frame; drag_frame] = Ok st' /\
    EleDraw.well_formed st' /\
    forall name, In name EleDraw.point_names ->
                 exists p, Ele.dict_lookup name (Ele.points st') = Ok p.
Proof.
  assert (Hw : EleDraw.well_formed (F := b64) Ele.init)
    by (split; [reflexivity | intros d Hd; discriminate Hd]).
  assert (Hr : exists st', Ele.run (F := b64) Ele.init [drag_frame; drag_frame]
                           = Ok st')
    by (eexists; vm_compute; reflexivity).
  destruct Hr as [st' Hr]. exists st'.
  split; [exact Hw|]. split; [exact Hr|].
  exact (run_keeps_point_names [drag_frame; drag_frame] Ele.init st' Hw Hr).
Defined.

Lemma drag_path_independent_witness :
  Ele.dragging grabbed = Some "A"%string /\
  forallb snd drag_path = true /\
  exists st',
    EleDraw.handle_mouse_seq grabbed (drag_path ++ [((400, 300), true)])
    = Ok st' /\
    Ele.dragging st' = Some "A"%string /\
    Ele.drag_offset st' = (2, 1) /\
    Ele.dict_get "A" (Ele.points st') = Some (Ele.to_math (400 - 2) (300 - 1)) /\
    forall n, n <> "A"%string ->
              Ele.dict_get n (Ele.points st')
              = Ele.dict_get n (Ele.points grabbed).
Proof.
  split; [reflexivity|]. split; [reflexivity|].
  exact (drag_path_independent drag_path (400, 300) grabbed "A"%string
                               eq_refl eq_refl).
Defined.

Lemma geometry_run_stops_at_quit_witness :
  existsb EleDraw.is_quit (Ele.events quit_frame) = true /\
  Ele.run (F := b64) Ele.init [quit_frame; drag_frame]
  = Ele.run Ele.init [quit_frame].
Proof.
  split; [reflexivity|].
  apply (proj1 (geometry_run_stops_at_quit (F := b64) Ele.init quit_frame
                                           [drag_frame])).
  reflexivity.
Defined.

Lemma hit_radius_is_fifteen_pixels_witness :
  EleSafety.small (332, 381) /\
  Forall (fun kv => EleSafety.small (snd kv)) Ele.default_points /\
  Ele.hit_test (F := b64) (332, 381) Ele.default_points
  = Ok (EleSafety.first_within (332, 381) Ele.default_points).
Proof.
  assert (Hs : EleSafety.small (332, 381)) by (split; reflexivity).
  assert (Hd : Forall (fun kv => EleSafety.small (snd kv)) Ele.default_points)
    by (repeat constructor).
  split; [exact Hs|]. split; [exact Hd|].
  exact (hit_radius_is_fifteen_pixels (332, 381) Ele.default_points Hs Hd).
Defined.

Lemma to_screen_inverts_to_math_witness :
  Z.abs 332 < 2 ^ 52 /\ Z.abs 381 < 2 ^ 52 /\
  Ele.to_screen (F := b64) (Int (fst (Ele.to_math 332 381)))
                (Int (snd (Ele.to_math 332 381)))
  = Ok (332, 381).
Proof.
  split; [reflexivity|]. split; [reflexivity|].
  exact (to_screen_inverts_to_math 332 381 eq_refl eq_refl).
Defined.

Lemma grabbed_point_tracks_pointer_witness :
  NoDup (map fst (Ele.points (Ele.init (F := b64)))) /\
  Forall (fun kv => EleSafety.small (snd kv)) (Ele.points (Ele.init (F := b64))) /\
  EleSafety.small (332, 381) /\
  Ele.dragging (Ele.init (F := b64)) = None /\
  Ele.handle_mouse Ele.init (332, 381) true = Ok grabbed /\
  Ele.dragging grabbed = Some "A"%string /\
  forallb snd drag_path = true /\
  exists (pos : Ele.point) (st2 : Ele.GeometryViz b64),
    Ele.dict_get "A" (Ele.points (Ele.init (F := b64))) = Some pos /\
    EleDraw.handle_mouse_seq grabbed (drag_path ++ [((400, 300), true)])
    = Ok st2 /\
    Ele.dict_get "A" (Ele.points st2)
    = Some (fst pos + (400 - 332), snd pos - (300 - 381)) /\
    forall n, n <> "A"%string ->
              Ele.dict_get n (Ele.points st2)
              = Ele.dict_get n (Ele.points (Ele.init (F := b64))).
Proof.
  assert (Hn : NoDup (map fst (Ele.points (Ele.init (F := b64))))).
  { repeat (constructor;
            [cbn; intros Hin;
             repeat (destruct Hin as [Hin|Hin]; [discriminate Hin|]);
             exact Hin|]).
    constructor. }
  assert (Hd : Forall (fun kv => EleSafety.small (snd kv))
                      (Ele.points (Ele.init (F := b64))))
    by (repeat constructor).
  assert (Hs : EleSafety.small (332, 381)) by (split; reflexivity).
  assert (Hg : Ele.handle_mouse (F := b64) Ele.init (332, 381) true = Ok grabbed)
    by (vm_compute; reflexivity).
  split; [exact Hn|]. split; [exact Hd|]. split; [exact Hs|].
  split; [reflexivity|]. split; [exact Hg|]. split; [reflexivity|].
  split; [reflexivity|].
  exact (grabbed_point_tracks_pointer
           Ele.init grabbed (332, 381) (400, 300) drag_path "A"%string
           Hn Hd Hs eq_refl Hg eq_refl eq_refl).
Defined.

Lemma run_never_raises_in_window_witness :
  Forall EleSafety.input_ok [drag_frame; quit_frame; drag_frame] /\
  exists st',
    Ele.run (F := b64) Ele.init [drag_frame; quit_frame; drag_frame] = Ok st' /\
    EleSafety.safe st'.
Proof.
  assert (Hin : Forall EleSafety.input_ok [drag_frame; quit_frame; drag_frame]).
  { repeat constructor; try reflexivity; cbn; discriminate. }
  split; [exact Hin|].
  exact (run_never_raises_in_window [drag_frame; quit_frame; drag_frame] Hin).
Defined.

Lemma finite_field_points_symmetric_witness :
  In (2, -2) (finite_field_points 80) /\
  In (- 2, -2) (finite_field_points 80) /\
  In (2, - -2) (finite_field_points 80) /\
  In (-2, 2) (finite_field_points 80).
Proof.
  assert (Hin : In (2, -2) (finite_field_points 80))
    by (right; right; left; reflexivity).
  split; [exact Hin|].
  exact (finite_field_points_symmetric 80 2 (-2) Hin).
Defined.

Lemma cross_section_run_stops_at_quit_witness :
  existsb is_quit (events cross_quit_frame) = true /\
  run c_on [cross_quit_frame; frame_up] = run c_on [cross_quit_frame].
Proof.
  split; [reflexivity|].
  apply (proj1 (cross_section_run_stops_at_quit c_on cross_quit_frame
                                                [frame_up])).
  reflexivity.
Defined.

Open Scope R_scope.

Lemma sin_half_bounds : 479 / 1000 <= sin (1 / 2) <= 48 / 100.
Proof.
  pose proof PI2_1 as Hpi.
  destruct (sin_bound (1 / 2) 0 ltac:(lra) ltac:(lra)) as [Hlo Hhi].
  unfold sin_approx, sin_term in Hlo, Hhi.
  cbn [Nat.mul Nat.add sum_f_R0 pow Factorial.fact INR] in Hlo, Hhi.
  split; lra.
Qed.

Lemma to_screen_R_float_int (x : R) (y : Z) :
  Ele.to_screen (F := R) (Float x) (Int y)
  = Ok (R_trunc (900 / 2 + x), R_trunc (600 / 2 - IZR y)).
Proof.
  unfold Ele.to_screen.
  cbn [int_truediv float_of of_int fadd fsub ftrunc R_float].
  unfold R_int_truediv. cbn [Z.eqb Py.bind]. reflexivity.
Qed.

Lemma R_trunc_at (v : R) (a : Z) :
  (0 <= a)%Z -> IZR a <= v < IZR a + 1 -> R_trunc v = a.
Proof.
  intros Ha Hv. pose proof (R_trunc_between v a a Ha Hv). lia.
Qed.

Lemma run_init_second :
  Ele.run (F := R) Ele.init [second]
  = Ok (Ele.set_dragging
          (Ele.set_clock Ele.init
                         (Float (0 + 1000 / (1000 / 1)))
                         (Float (0 + 1000 / (1000 / 1) * 3))
                         (Float (0 + 1000 / (1000 / 1) * (5 / 10))))
          None (0, 0)%Z).
Proof.
  cbn [Ele.run]. unfold Ele.frame, lit, Ele.iadd.
  cbn [of_int int_truediv fdiv fadd fmul R_float Py.bind float_of
       Ele.tick_ms second Ele.time Ele.pulse_phase Ele.rotation_angle
       Ele.init].
  unfold R_int_truediv. cbn [Z.eqb Py.bind].
  rewrite R_div_nonzero by lra.
  cbn [Py.bind Ele.animate Ele.init Ele.events second fold_left
       Ele.handle_mouse Ele.mouse_pressed snd fst Ele.run
       float_of Ele.pulse_phase Ele.rotation_angle of_int R_float fadd fmul].
  reflexivity.
Qed.

Lemma shear_keeps_rows_witness :
  exists st : Ele.GeometryViz R,
    Ele.run Ele.init [second] = Ok st /\
    Ele.transformed st = Ok [(318, 380); (617, 180); (391, 150)]%Z /\
    EleDraw.triangle st = Ok [(330, 380); (600, 180); (370, 150)]%Z /\
    map snd [(318, 380); (617, 180); (391, 150)]%Z
    = map snd [(330, 380); (600, 180); (370, 150)]%Z.
Proof.
  eexists. split; [exact run_init_second|].
  set (st := Ele.set_dragging _ None (0, 0)%Z).
  pose proof sin_half_bounds as [Hlo Hhi].
  assert (Htr : EleDraw.triangle st
                = Ok [(330, 380); (600, 180); (370, 150)]%Z).
  { unfold EleDraw.triangle.
    change (Ele.mode_eqb (Ele.mode st) Ele.EUCLIDEAN) with false.
    change (Ele.dict_lookup "A" (Ele.points st))
      with (Ok (A := Ele.point) (-120, -80)%Z).
    change (Ele.dict_lookup "B" (Ele.points st))
      with (Ok (A := Ele.point) (150, 120)%Z).
    change (Ele.dict_lookup "C" (Ele.points st))
      with (Ok (A := Ele.point) (-80, 150)%Z).
    cbn [Py.bind mapM fst snd]. rewrite !to_screen_R_int. cbn [Py.bind].
    rewrite (R_trunc_at (900 / 2 + -120) 330)
      by first [lia | lra].
    rewrite (R_trunc_at (600 / 2 - -80) 380)
      by first [lia | lra].
    rewrite (R_trunc_at (900 / 2 + 150) 600)
      by first [lia | lra].
    rewrite (R_trunc_at (600 / 2 - 120) 180)
      by first [lia | lra].
    rewrite (R_trunc_at (900 / 2 + -80) 370)
      by first [lia | lra].
    rewrite (R_trunc_at (600 / 2 - 150) 150)
      by first [lia | lra].
    reflexivity. }
  assert (Hts : Ele.transformed st
                = Ok [(318, 380); (617, 180); (391, 150)]%Z).
  { unfold Ele.transformed. rewrite shear_factor_exact.
    change (Ele.mode_eqb (Ele.mode st) Ele.EUCLIDEAN) with false.
    change (Ele.dict_lookup "A" (Ele.points st))
      with (Ok (A := Ele.point) (-120, -80)%Z).
    change (Ele.dict_lookup "B" (Ele.points st))
      with (Ok (A := Ele.point) (150, 120)%Z).
    change (Ele.dict_lookup "C" (Ele.points st))
      with (Ok (A := Ele.point) (-80, 150)%Z).
    change (time_R (Ele.time st)) with (0 + 1000 / (1000 / 1)).
    replace ((0 + 1000 / (1000 / 1)) * (5 / 10)) with (1 / 2) by field.
    cbn [Py.bind mapM fst snd of_int fadd fmul R_float].
    rewrite !to_screen_R_float_int. cbn [Py.bind].
    rewrite (R_trunc_at (900 / 2 + (-120 + 3 / 10 * sin (1 / 2) * -80)) 318)
      by first [lia | lra].
    rewrite (R_trunc_at (600 / 2 - -80) 380)
      by first [lia | lra].
    rewrite (R_trunc_at (900 / 2 + (150 + 3 / 10 * sin (1 / 2) * 120)) 617)
      by first [lia | lra].
    rewrite (R_trunc_at (600 / 2 - 120) 180)
      by first [lia | lra].
    rewrite (R_trunc_at (900 / 2 + (-80 + 3 / 10 * sin (1 / 2) * 150)) 391)
      by first [lia | lra].
    rewrite (R_trunc_at (600 / 2 - 150) 150)
      by first [lia | lra].
    reflexivity. }
  split; [exact Hts|]. split; [exact Htr|].
  exact (shear_keeps_rows st _ _ Hts Htr).
Defined.

Lemma point_size_within_witness :
  let st := Ele.set_dragging (F := R) Ele.init (Some "A"%string) (2, 1)%Z in
  Ele.dragging st = Some "A"%string /\
  exists s : Z, EleDraw.point_size st "A" = Ok s /\ (12 <= s <= 16)%Z.
Proof.
  intro st. split; [reflexivity|].
  destruct (point_size_within st "A") as (s & Hs & Hd & _).
  exists s. split; [exact Hs | exact (Hd eq_refl)].
Defined.

Lemma shear_bounded_and_trivial_at_start_witness :
  time_R (Ele.time (Ele.init (F := R))) = 0 /\
  exists k : R,
    Ele.shear_factor (F := R) Ele.init = Ok k /\ k = 0 /\
    Ele.transformed (F := R) Ele.init = EleDraw.triangle Ele.init.
Proof.
  split; [reflexivity|].
  destruct (shear_bounded_and_trivial_at_start Ele.init) as (k & Hk & _ & H0).
  exists k. split; [exact Hk | exact (H0 eq_refl)].
Defined.

Lemma phases_follow_time_witness :
  exists st' : Ele.GeometryViz R,
    Ele.animate (Ele.init (F := R)) = true /\
    forallb (fun inp => forallb (fun ev => negb (Ele.is_space ev))
                                (Ele.events inp)) [drag_frame; second] = true /\
    Ele.run Ele.init [drag_frame; second] = Ok st' /\
    time_R (Ele.pulse_phase st') - time_R (Ele.pulse_phase (Ele.init (F := R)))
    = 3 * (time_R (Ele.time st') - time_R (Ele.time (Ele.init (F := R)))) /\
    time_R (Ele.rotation_angle st')
    - time_R (Ele.rotation_angle (Ele.init (F := R)))
    = (time_R (Ele.time st') - time_R (Ele.time (Ele.init (F := R)))) / 2.
Proof.
  destruct (run_clock_R [drag_frame; second] Ele.init) as (st' & Hr & _).
  exists st'. split; [reflexivity|]. split; [reflexivity|].
  split; [exact Hr|].
  exact (phases_follow_time [drag_frame; second] Ele.init st'
                            eq_refl eq_refl Hr).
Defined.

Lemma project_R_total (b : bool) (iz : Z * (complex R * complex R)) :
  exists p, project b iz = Ok p.
Proof.
  destruct iz as [i [z1 z2]]. unfold project, to_screen, to_screen1.
  cbn [of_int ftrunc R_float Py.bind]. eexists. reflexivity.
Qed.

Lemma mapM_exists {A B : Type} (f : A -> result B) (l : list A) :
  (forall a, exists b, f a = Ok b) -> exists l', mapM f l = Ok l'.
Proof.
  intro Hf. induction l as [|a l [l' IH]]; [eexists; reflexivity|].
  destruct (Hf a) as [b Hb]. cbn [mapM]. rewrite Hb, IH.
  eexists. reflexivity.
Qed.

Lemma projection_lines_horizontal_witness :
  exists (sols : list (complex R * complex R)) (ps : list projection),
    complex_circle_solutions (radius c_on) = Ok sols /\
    draw_complex_projection_view c_on = Ok ps /\
    List.length sols = 200%nat /\
    Forall (fun p => snd (real_pt p) = snd (proj_pt p)) ps /\
    List.length ps = List.length (every_third sols).
Proof.
  pose proof (solutions_R (radius c_on)) as Hs.
  destruct (mapM_exists (project (show_projections c_on))
              (enumerate_from 0
                 (every_third
                    (map (fun tc => solution_R (radius c_on) (fst tc) (snd tc))
                         (list_prod (linspace_R 0 (2 * PI) 40)
                                    (linspace_R (- (5 / 10)) (5 / 10) 5)))))
              (project_R_total _)) as [ps Hps].
  assert (Hd : draw_complex_projection_view c_on = Ok ps).
  { unfold draw_complex_projection_view. rewrite Hs. cbn [Py.bind]. exact Hps. }
  eexists. exists ps.
  split; [exact Hs|]. split; [exact Hd|].
  split; [now rewrite length_map, length_prod, !linspace_R_length|].
  exact (projection_lines_horizontal c_on _ ps Hs Hd).
Defined.

Close Scope R_scope.
End Instances.
